(** * Manually written autograd operations of the Variable layer

    A shallow embedding of [torch/csrc/autograd/VariableTypeManual.cpp]:
    the unwrap/validate helpers ([checked_cast_variable], [unpack],
    [unpack_opt], the list form of [unpack]) and the hand-written
    operations [set_data], [is_leaf], [output_nr], [_version], [copy_],
    [resize_], [resize_as_], [detach] and [detach_].

    C++ objects reached through pointers live in an explicit [Store];
    a function that may throw runs in a state-and-exception monad whose
    store survives a throw, as the heap of the C++ program does. *)

From Stdlib Require Import ZArith NArith String DecimalString Lia.
From stdpp Require Import base option list gmap.

Local Open Scope string_scope.
Local Open Scope list_scope.
Set Warnings "-register-all".

(** ** Element types, backends and devices *)

(** The enum [ScalarType] is declared outside this file. Its values in
    declaration order end with the undefined scalar type, after which
    the enum counts its values in [NumOptions]. (The constructor of the
    undefined scalar type cannot be called [Undefined], the name of the
    undefined tensor handle below.) *)
Inductive ScalarType :=
  | Byte | Char | Short | Int | Long | Half | Float | Double
  | ComplexHalf | ComplexFloat | ComplexDouble | Bool
  | QInt8 | QUInt8 | QInt32 | BFloat16
  | UndefinedScalarType.

Inductive Backend := CPU | SparseCPU | CUDA | SparseCUDA.

Inductive DeviceType := DeviceCPU | DeviceCUDA.

Record Device := { device_type : DeviceType; device_index : Z }.

(** What [Tensor::type()] returns: the properties keyed by backend and
    scalar type that [allTypesForBackends] enumerates. *)
Record DeprecatedTypeProperties :=
  { type_backend : Backend; type_scalar : ScalarType }.

#[global] Instance ScalarType_eq_dec : EqDecision ScalarType.
Proof. solve_decision. Defined.
#[global] Instance Backend_eq_dec : EqDecision Backend.
Proof. solve_decision. Defined.
#[global] Instance DeviceType_eq_dec : EqDecision DeviceType.
Proof. solve_decision. Defined.
#[global] Instance Device_eq_dec : EqDecision Device.
Proof. solve_decision. Defined.
#[global] Instance DeprecatedTypeProperties_eq_dec :
  EqDecision DeprecatedTypeProperties.
Proof. solve_decision. Defined.

(** The values of the enum in declaration order. *)
Definition all_scalar_types : list ScalarType :=
  [Byte; Char; Short; Int; Long; Half; Float; Double;
   ComplexHalf; ComplexFloat; ComplexDouble; Bool;
   QInt8; QUInt8; QInt32; BFloat16; UndefinedScalarType].

(** [ScalarType::NumOptions], the enumerator that follows the last
    scalar type. *)
Definition NumOptions : nat := 17.

(** [static_cast<ScalarType>(s)]. *)
Definition ScalarType_of_index (s : nat) : ScalarType :=
  nth s all_scalar_types UndefinedScalarType.

(** The inner loop runs [s] from 0 up to [NumOptions], the outer one
    over the backends. *)
Definition allTypesForBackends (backends : list Backend)
  : list DeprecatedTypeProperties :=
  flat_map (fun p =>
              map (fun s => {| type_backend := p;
                               type_scalar := ScalarType_of_index s |})
                  (seq 0 NumOptions)) backends.

Definition allCPUTypes : list DeprecatedTypeProperties :=
  allTypesForBackends [CPU; SparseCPU].

Definition allCUDATypes : list DeprecatedTypeProperties :=
  allTypesForBackends [CUDA; SparseCUDA].

(** Modelled from the spec: [isFloatingPoint] is declared outside this
    file; it holds of the floating element types. *)
Definition isFloatingPoint (t : ScalarType) : bool :=
  match t with
  | Half | Float | Double | BFloat16 => true
  | _ => false
  end.

(** ** Tensor handles and the objects they point to *)

(** Identity of a [TensorImpl]. *)
Definition addr := nat.

(** A [Tensor] is a reference-counted pointer, null when undefined. *)
Inductive Tensor := Undefined | Impl (p : addr).

#[global] Instance Tensor_eq_dec : EqDecision Tensor.
Proof. solve_decision. Defined.

Definition defined (t : Tensor) : bool :=
  match t with Undefined => false | Impl _ => true end.

(** The non-autograd fields of a [TensorImpl]: shape, strides, the
    storage it points to, device and type. *)
Record TensorData := {
  sizes_ : list Z;
  strides_ : list Z;
  storage_ : nat;
  device_ : Device;
  backend_ : Backend;
  scalar_type_ : ScalarType
}.

Record TensorOptions := {
  options_dtype : ScalarType;
  options_device : Device;
  options_backend : Backend
}.

(** Gradient-function nodes. An edge is a node together with an input
    slot, or nothing ([Edge()]). *)
Inductive Node :=
  | AccumulateGradOf (leaf : addr)
  | CopyBackwards (next_edges : list (option (Node * N)))
                  (src_options : TensorOptions) (src_device : Device)
  | GeneratedNode (name : string) (next_edges : list (option (Node * N))).

Definition Edge := option (Node * N).

Record ViewInfo := { base_ : Tensor; is_differentiable_ : bool }.

(** [grad_accumulator_] is a weak pointer: [None] when empty, [Some k]
    when it refers to control block [k], which may have expired. *)
Record AutogradMeta := {
  grad_fn_ : option Node;
  grad_accumulator_ : option nat;
  requires_grad_ : bool;
  view_ : option ViewInfo;
  output_nr_ : N
}.

Record TensorImpl := {
  data_ : TensorData;
  version_counter_ : nat;
  allow_tensor_metadata_change_ : bool;
  autograd_meta_ : option AutogradMeta
}.

Record InputMetadata := {
  metadata_type : DeprecatedTypeProperties;
  metadata_shape : list Z;
  metadata_device : Device
}.

(** A gradient accumulator has a single input, whose metadata is
    [input_metadata(0)]. *)
Record AccumulateGrad := { input_metadata0 : InputMetadata }.

(** What the tracer is told, in order. *)
Inductive TraceEvent :=
  | TraceNode (op : string) (inputs : list (string * Tensor))
  | TraceInsert (op : string) (inputs : list Tensor)
  | TraceEnsureUnique (what : string) (t : Tensor)
  | TraceSetOutput (value : option string) (t : Tensor)
  | TraceAddOutput (op : string) (t : Tensor)
  | TracePopIntArrayRef (name : string)
  | TraceWarn (op : string)
  | TraceDelValueTrace (t : Tensor).

Record TracingState := { force_outplace : bool; graph : list TraceEvent }.

Definition Storage := list Z.

Record Store := {
  impls : gmap addr TensorImpl;
  heap : gmap nat Storage;
  versions : gmap nat nat;
  accumulators : gmap nat AccumulateGrad;
  tracer : option TracingState
}.

(** ** Errors *)

Inductive ErrorKind :=
  | UndefinedTensorError
  | NotAVariableError
  | IncompatibleTypeError
  | InvalidOperation
  | ViewSafetyError
  | KernelError
  | UndefinedBehaviour.

#[global] Instance ErrorKind_eq_dec : EqDecision ErrorKind.
Proof. solve_decision. Defined.

Record Error := { kind : ErrorKind; what : string }.

Inductive Outcome (A : Type) :=
  | Ok (a : A)
  | Throw (e : Error).
Arguments Ok {A} a.
Arguments Throw {A} e.

(** The decimal text the C++ stream insertion prints for an integer. *)
Definition show_int (z : Z) : string := NilZero.string_of_int (Z.to_int z).

(** ** The monad of the operations *)

Definition M (A : Type) : Type := Store -> Outcome A * Store.

Definition ret {A} (a : A) : M A := fun s => (Ok a, s).

Definition bind {A B} (m : M A) (f : A -> M B) : M B :=
  fun s => match m s with
           | (Ok a, s') => f a s'
           | (Throw e, s') => (Throw e, s')
           end.

Definition throw {A} (k : ErrorKind) (msg : string) : M A :=
  fun s => (Throw {| kind := k; what := msg |}, s).

Definition gets {A} (f : Store -> A) : M A := fun s => (Ok (f s), s).

Definition modify (f : Store -> Store) : M unit := fun s => (Ok tt, f s).

(** Reading through a pointer that does not point to what the code
    expects is undefined behaviour in C++; the model stops there. *)
Definition deref {A} (f : Store -> option A) : M A :=
  fun s => match f s with
           | Some a => (Ok a, s)
           | None => (Throw {| kind := UndefinedBehaviour;
                               what := "invalid dereference" |}, s)
           end.

Declare Scope op_scope.
Delimit Scope op_scope with op.
Notation "x <- c1 ;; c2" := (bind c1 (fun x => c2))
  (at level 100, c1 at next level, right associativity) : op_scope.
Notation "c1 ;;; c2" := (bind c1 (fun _ => c2))
  (at level 100, right associativity) : op_scope.
Local Open Scope op_scope.

(** ** Reading the store *)

Definition impl_of (s : Store) (t : Tensor) : option TensorImpl :=
  match t with
  | Undefined => None
  | Impl p => impls s !! p
  end.

Definition is_variable (s : Store) (t : Tensor) : option bool :=
  i ← impl_of s t; Some (bool_decide (is_Some (autograd_meta_ i))).

Definition get_autograd_meta (s : Store) (t : Tensor) : option AutogradMeta :=
  i ← impl_of s t; autograd_meta_ i.

Definition tensor_data (s : Store) (t : Tensor) : option TensorData :=
  data_ <$> impl_of s t.

Definition scalar_type (s : Store) (t : Tensor) : option ScalarType :=
  scalar_type_ <$> tensor_data s t.

Definition device (s : Store) (t : Tensor) : option Device :=
  device_ <$> tensor_data s t.

Definition type (s : Store) (t : Tensor) : option DeprecatedTypeProperties :=
  (fun d => {| type_backend := backend_ d; type_scalar := scalar_type_ d |})
    <$> tensor_data s t.

Definition options (s : Store) (t : Tensor) : option TensorOptions :=
  (fun d => {| options_dtype := scalar_type_ d; options_device := device_ d;
               options_backend := backend_ d |}) <$> tensor_data s t.

Definition grad_fn (s : Store) (t : Tensor) : option (option Node) :=
  grad_fn_ <$> get_autograd_meta s t.

(** Modelled from the spec: the [requires_grad()] accessor is declared
    outside this file; the flag is [requires_grad_] on a leaf and is
    implied by the presence of [grad_fn] otherwise. *)
Definition requires_grad (s : Store) (t : Tensor) : option bool :=
  (fun m => requires_grad_ m || bool_decide (is_Some (grad_fn_ m)))
    <$> get_autograd_meta s t.

Definition is_view (s : Store) (t : Tensor) : option bool :=
  (fun m => bool_decide (is_Some (view_ m))) <$> get_autograd_meta s t.

(** Modelled from the spec: [current_version] is declared outside this
    file; it is the current mutation epoch of the variable's counter. *)
Definition current_version (s : Store) (t : Tensor) : option nat :=
  i ← impl_of s t; versions s !! version_counter_ i.

Definition lock (s : Store) (w : option nat) : option AccumulateGrad :=
  k ← w; accumulators s !! k.

Definition grad_accumulator (s : Store) (t : Tensor) : option (option nat) :=
  grad_accumulator_ <$> get_autograd_meta s t.

(** ** Writing the store *)

Definition with_impls (f : gmap addr TensorImpl -> gmap addr TensorImpl)
    (s : Store) : Store :=
  {| impls := f (impls s); heap := heap s; versions := versions s;
     accumulators := accumulators s; tracer := tracer s |}.

Definition with_heap (h : gmap nat Storage) (s : Store) : Store :=
  {| impls := impls s; heap := h; versions := versions s;
     accumulators := accumulators s; tracer := tracer s |}.

Definition with_versions (f : gmap nat nat -> gmap nat nat) (s : Store) : Store :=
  {| impls := impls s; heap := heap s; versions := f (versions s);
     accumulators := accumulators s; tracer := tracer s |}.

Definition with_tracer (f : option TracingState -> option TracingState)
    (s : Store) : Store :=
  {| impls := impls s; heap := heap s; versions := versions s;
     accumulators := accumulators s; tracer := f (tracer s) |}.

Definition set_meta (f : AutogradMeta -> AutogradMeta) (i : TensorImpl)
  : TensorImpl :=
  {| data_ := data_ i; version_counter_ := version_counter_ i;
     allow_tensor_metadata_change_ := allow_tensor_metadata_change_ i;
     autograd_meta_ := f <$> autograd_meta_ i |}.

Definition set_data_fields (f : TensorData -> TensorData) (i : TensorImpl)
  : TensorImpl :=
  {| data_ := f (data_ i); version_counter_ := version_counter_ i;
     allow_tensor_metadata_change_ := allow_tensor_metadata_change_ i;
     autograd_meta_ := autograd_meta_ i |}.

Definition alter_impl (f : TensorImpl -> TensorImpl) (t : Tensor) : M unit :=
  match t with
  | Undefined => throw UndefinedBehaviour "invalid dereference"
  | Impl p => modify (with_impls (alter f p))
  end.

(** Writes through [get_autograd_meta()]: the pointer must be non-null. *)
Definition update_meta (t : Tensor) (f : AutogradMeta -> AutogradMeta) : M unit :=
  _ <- deref (fun s => get_autograd_meta s t) ;;
  alter_impl (set_meta f) t.

(** ** The tracer side channel *)

Definition isTracing : M bool :=
  gets (fun s => bool_decide (is_Some (tracer s))).

Definition traced (ev : TraceEvent) (t : option TracingState)
  : option TracingState :=
  (fun ts => {| force_outplace := force_outplace ts;
                graph := graph ts ++ [ev] |}) <$> t.

Definition record (ev : TraceEvent) : M unit :=
  modify (with_tracer (traced ev)).

(** ** External collaborators

    The plain tensor library, the in-place safety check and the printer
    of type names are declared outside this file. The kernels run with
    autograd bookkeeping suspended: they see the storage contents and
    the non-autograd fields of their arguments, nothing else. A kernel
    or a check that throws returns the message of its exception. *)

Class Collaborators := {
  toString : DeprecatedTypeProperties -> string;
  _has_compatible_shallow_copy_type : Store -> Tensor -> Tensor -> bool;
  check_inplace : gmap addr TensorImpl -> Tensor -> option string;
  at_copy_ : gmap nat Storage -> TensorData -> TensorData -> bool ->
             string + gmap nat Storage;
  at_resize_ : gmap nat Storage -> TensorData -> list Z ->
               string + (gmap nat Storage * (list Z * list Z));
  at_resize_as_ : gmap nat Storage -> TensorData -> TensorData ->
                  string + (gmap nat Storage * (list Z * list Z))
}.

(** [c10::str]: the pieces of a message, concatenated. *)
Definition str (parts : list string) : string := String.concat "" parts.

Section Operations.
Context `{Collaborators}.

(** ** Unwrap / validate *)

(** Both overloads (const and non-const reference) have this body. *)
Definition checked_cast_variable (t : Tensor) (name : string) (pos : Z)
  : M Tensor :=
  if negb (defined t) then
    throw UndefinedTensorError
      (str ["Expected a Tensor of type Variable but found an undefined Tensor for argument #";
            show_int pos; " '"; name; "'"])
  else
    v <- deref (fun s => is_variable s t) ;;
    if negb v then
      ty <- deref (fun s => type s t) ;;
      throw NotAVariableError
        (str ["Expected object of type Variable but found type "; toString ty;
              " for argument #"; show_int pos; " '"; name; "'"])
    else ret t.

Definition unpack (t : Tensor) (name : string) (pos : Z) : M Tensor :=
  checked_cast_variable t name pos.

Definition unpack_opt (t : Tensor) (name : string) (pos : Z) : M Tensor :=
  if negb (defined t) then ret Undefined else unpack t name pos.

(** The loop of the list form of [unpack], from index [i] on: [rest] is
    [tl[i..]] and [res] is the vector [ret] built so far. *)
Fixpoint unpack_list_from (rest : list Tensor) (name : string) (pos : Z)
    (i : nat) (res : list Tensor) : M (list Tensor) :=
  match rest with
  | [] => ret res
  | t :: rest' =>
    if negb (defined t) then unpack_list_from rest' name pos (S i) res
    else
      v <- deref (fun s => is_variable s t) ;;
      if negb v then
        ty <- deref (fun s => type s t) ;;
        throw NotAVariableError
          (str ["Expected object of type Variable but found type "; toString ty;
                " at position #"; show_int (Z.of_nat i); " ";
                "for iterable argument #"; show_int pos; " '"; name; "'"])
      else unpack_list_from rest' name pos (S i) (<[i:=t]> res)
  end.

Definition unpack_list (tl : list Tensor) (name : string) (pos : Z)
  : M (list Tensor) :=
  unpack_list_from tl name pos 0 (replicate (length tl) Undefined).

(** ** Metadata access *)

Definition is_leaf (self : Tensor) : M bool :=
  m <- deref (fun s => get_autograd_meta s self) ;;
  ret (bool_decide (grad_fn_ m = None)).

(** [output_nr_ == nullptr]: the stored slot index is compared with the
    null pointer constant, and the truth value of the comparison is what
    is converted to the [int64_t] result. *)
Definition output_nr (self : Tensor) : M Z :=
  m <- deref (fun s => get_autograd_meta s self) ;;
  ret (Z.b2z (N.eqb (output_nr_ m) 0)).

Definition _version (self : Tensor) : M nat :=
  deref (fun s => current_version s self).

(** Modelled from the spec: [increment_version] is declared outside this
    file; it bumps the epoch of the variable's version counter. *)
Definition increment_version (self : Tensor) : M unit :=
  i <- deref (fun s => impl_of s self) ;;
  n <- deref (fun s => versions s !! version_counter_ i) ;;
  modify (with_versions <[version_counter_ i := S n]>).

(** ** Graph edge builder *)

(** Modelled from the spec: [compute_requires_grad] is declared outside
    this file; it is true iff any input requires gradients. *)
Fixpoint compute_requires_grad (s : Store) (inputs : list Tensor)
  : option bool :=
  match inputs with
  | [] => Some false
  | t :: ts =>
    r ← requires_grad s t;
    rs ← compute_requires_grad s ts;
    Some (r || rs)
  end.

(** Modelled from the spec: the edge of one input is its [grad_fn] (or
    its implicit accumulator) with its [output_nr] when it requires
    gradient tracking, and the empty edge otherwise. *)
Definition gradient_edge (s : Store) (t : Tensor) : option Edge :=
  match t with
  | Undefined => None
  | Impl p =>
    m ← get_autograd_meta s t;
    Some (if requires_grad_ m || bool_decide (is_Some (grad_fn_ m)) then
            Some (default (AccumulateGradOf p) (grad_fn_ m), output_nr_ m)
          else None)
  end.

(** Modelled from the spec: [collect_next_edges] is declared outside
    this file; one edge per input, in input order. *)
Definition collect_next_edges (s : Store) (inputs : list Tensor)
  : option (list Edge) :=
  mapM (gradient_edge s) inputs.

Definition set_gradient_edge (n : Node) (nr : N) (m : AutogradMeta)
  : AutogradMeta :=
  {| grad_fn_ := Some n; grad_accumulator_ := grad_accumulator_ m;
     requires_grad_ := requires_grad_ m; view_ := view_ m;
     output_nr_ := nr |}.

(** Modelled from the spec: [rebase_history] is declared outside this
    file; it replaces [(grad_fn, output_nr)] by [(new_grad_fn, 0)] when
    [new_grad_fn] is non-null and does nothing when it is null. *)
Definition rebase_history (self : Tensor) (new_grad_fn : option Node)
  : M unit :=
  match new_grad_fn with
  | Some n => update_meta self (set_gradient_edge n 0)
  | None => ret tt
  end.

(** ** The manual operation set *)

(** Modelled from the spec: [shallow_copy_from] is declared outside this
    file; it replaces the non-autograd fields (shape, strides, storage
    pointer, device, type) by those of the source and keeps the autograd
    metadata, the version counter and the metadata-change flag. *)
Definition shallow_copy_from (self new_data : Tensor) : M unit :=
  d <- deref (fun s => tensor_data s new_data) ;;
  _ <- deref (fun s => impl_of s self) ;;
  alter_impl (set_data_fields (fun _ => d)) self.

Definition reset_grad_accumulator (m : AutogradMeta) : AutogradMeta :=
  {| grad_fn_ := grad_fn_ m; grad_accumulator_ := None;
     requires_grad_ := requires_grad_ m; view_ := view_ m;
     output_nr_ := output_nr_ m |}.

(** The mutex of the metadata is held from the lookup of the
    accumulator to the end of the function; one thread runs here. *)
Definition set_data (self new_data : Tensor) : M unit :=
  compatible <- gets (fun s => _has_compatible_shallow_copy_type s self new_data) ;;
  (if compatible then ret tt
   else throw IncompatibleTypeError
     "Attempted to call `variable.set_data(tensor)`, but `variable` and `tensor` have incompatible tensor type.") ;;;
  autograd_meta <- deref (fun s => get_autograd_meta s self) ;;
  prior_accumulator <- gets (fun s => lock s (grad_accumulator_ autograd_meta)) ;;
  match prior_accumulator with
  | Some acc =>
    let prior_device := metadata_device (input_metadata0 acc) in
    new_device <- deref (fun s => device s new_data) ;;
    new_type <- deref (fun s => type s new_data) ;;
    self_type <- deref (fun s => type s self) ;;
    if bool_decide (new_type <> self_type)
       || bool_decide (prior_device <> new_device)
    then update_meta self reset_grad_accumulator
    else ret tt
  | None => ret tt
  end ;;;
  shallow_copy_from self new_data.

(** The in-place safety check; its failure is propagated verbatim. *)
Definition check_inplace_guard (self : Tensor) : M unit :=
  fun s => match check_inplace (impls s) self with
           | Some msg => (Throw {| kind := ViewSafetyError; what := msg |}, s)
           | None => (Ok tt, s)
           end.

(** [self_.copy_(src_, non_blocking)] under [AutoNonVariableTypeMode]. *)
Definition raw_copy_ (self_ src_ : Tensor) (non_blocking : bool) : M unit :=
  a <- deref (fun s => tensor_data s self_) ;;
  b <- deref (fun s => tensor_data s src_) ;;
  fun s => match at_copy_ (heap s) a b non_blocking with
           | inl msg => (Throw {| kind := KernelError; what := msg |}, s)
           | inr h => (Ok tt, with_heap h s)
           end.

Definition set_shape (sz : list Z * list Z) (d : TensorData) : TensorData :=
  {| sizes_ := sz.1; strides_ := sz.2; storage_ := storage_ d;
     device_ := device_ d; backend_ := backend_ d;
     scalar_type_ := scalar_type_ d |}.

(** [self_.resize_(size)] under [AutoNonVariableTypeMode]. *)
Definition raw_resize_ (self_ : Tensor) (size : list Z) : M unit :=
  a <- deref (fun s => tensor_data s self_) ;;
  fun s => match at_resize_ (heap s) a size with
           | inl msg => (Throw {| kind := KernelError; what := msg |}, s)
           | inr (h, sz) =>
             alter_impl (set_data_fields (set_shape sz)) self_ (with_heap h s)
           end.

(** [at::resize_as_(self_, the_template_)] under [AutoNonVariableTypeMode]. *)
Definition raw_resize_as_ (self_ the_template_ : Tensor) : M unit :=
  a <- deref (fun s => tensor_data s self_) ;;
  b <- deref (fun s => tensor_data s the_template_) ;;
  fun s => match at_resize_as_ (heap s) a b with
           | inl msg => (Throw {| kind := KernelError; what := msg |}, s)
           | inr (h, sz) =>
             alter_impl (set_data_fields (set_shape sz)) self_ (with_heap h s)
           end.

(** The gradient function of [copy_]: the local [grad_fn], null unless
    gradients are required and [self] has a floating element type. *)
Definition copy_grad_fn (self src : Tensor) : M (option Node) :=
  requires_grad <- deref (fun s => compute_requires_grad s [self; src]) ;;
  st <- deref (fun s => scalar_type s self) ;;
  let requires_grad := requires_grad && isFloatingPoint st in
  if requires_grad then
    edges <- deref (fun s => collect_next_edges s [self; src]) ;;
    o <- deref (fun s => options s src) ;;
    d <- deref (fun s => device s src) ;;
    ret (Some (CopyBackwards edges o d))
  else ret None.

(** The tracer's part at the start of [copy_]; the result names the
    traced value [output], null when not tracing. *)
Definition copy_trace_entry (self src : Tensor) : M (option string) :=
  tracing <- isTracing ;;
  if tracing then
    outplace <- deref (fun s => fmap (M:=option) force_outplace (tracer s)) ;;
    if outplace then
      record (TraceNode "aten::expand_as" [("src", src); ("self", self)]) ;;;
      record (TraceEnsureUnique "copy_ (possibly due to an assignment)" self) ;;;
      ret (Some "aten::expand_as")
    else
      record (TraceInsert "aten::copy_" [self; src]) ;;;
      ret (Some "aten::copy_")
  else ret None.

Definition copy_ (self src : Tensor) (non_blocking : bool) : M Tensor :=
  output <- copy_trace_entry self src ;;
  self_ <- unpack self "self" 0 ;;
  src_ <- unpack src "src" 1 ;;
  check_inplace_guard self ;;;
  grad_fn <- copy_grad_fn self src ;;
  raw_copy_ self_ src_ non_blocking ;;;
  increment_version self ;;;
  rebase_history self grad_fn ;;;
  tracing <- isTracing ;;
  (if tracing then record (TraceSetOutput output self) else ret tt) ;;;
  ret self.

(** The tracer's part of [resize_]: the stashed size is dropped, a
    warning is issued and the traced value of [self] is forgotten. *)
Definition resize_trace (self : Tensor) : M unit :=
  tracing <- isTracing ;;
  if tracing then
    record (TracePopIntArrayRef "size") ;;;
    record (TraceWarn "resize_") ;;;
    record (TraceDelValueTrace self)
  else ret tt.

Definition resize_ (self : Tensor) (size : list Z) : M Tensor :=
  self_ <- unpack self "self" 0 ;;
  rg <- deref (fun s => requires_grad s self) ;;
  (if rg then throw InvalidOperation "cannot resize variables that require grad"
   else ret tt) ;;;
  resize_trace self ;;;
  raw_resize_ self_ size ;;;
  ret self.

(** The tracer's part of [resize_as_]. *)
Definition resize_as_trace (self : Tensor) : M unit :=
  tracing <- isTracing ;;
  if tracing then
    record (TraceWarn "resize_as_") ;;;
    record (TraceDelValueTrace self)
  else ret tt.

Definition resize_as_ (self the_template : Tensor) : M Tensor :=
  self_ <- unpack self "self" 0 ;;
  the_template_ <- unpack the_template "the_template" 1 ;;
  rg <- deref (fun s => requires_grad s self) ;;
  (if rg then throw InvalidOperation "cannot resize variables that require grad"
   else ret tt) ;;;
  resize_as_trace self ;;;
  raw_resize_as_ self_ the_template_ ;;;
  ret self.

(** Modelled from the spec: [make_variable_view] is declared outside
    this file; its result is a new Variable that shares the storage of
    [data] and the version counter of [base], records [base] and the
    differentiability and metadata-change flags it is given, carries the
    given gradient edge, and does not require gradients by itself. An
    undefined [data] gives an undefined result. *)
Definition make_variable_view (base data : Tensor) (is_differentiable : bool)
    (allow_tensor_metadata_change : bool) (gradient_edge : Edge) : M Tensor :=
  if negb (defined data) then ret Undefined
  else
    d <- deref (fun s => tensor_data s data) ;;
    b <- deref (fun s => impl_of s base) ;;
    p <- gets (fun s => fresh (dom (impls s))) ;;
    modify (with_impls <[p :=
      {| data_ := d;
         version_counter_ := version_counter_ b;
         allow_tensor_metadata_change_ := allow_tensor_metadata_change;
         autograd_meta_ := Some
           {| grad_fn_ := fst <$> gradient_edge;
              grad_accumulator_ := None;
              requires_grad_ := false;
              view_ := Some {| base_ := base;
                               is_differentiable_ := is_differentiable |};
              output_nr_ := default 0%N (snd <$> gradient_edge) |} |}]>) ;;;
    ret (Impl p).

(** The tracer's part at the start of [detach] and [detach_]. *)
Definition detach_trace_entry (self : Tensor) (unique : option string)
  : M unit :=
  tracing <- isTracing ;;
  if tracing then
    record (TraceNode "aten::detach" [("self", self)]) ;;;
    match unique with
    | Some w => record (TraceEnsureUnique w self)
    | None => ret tt
    end
  else ret tt.

Definition detach_trace_exit (result : Tensor) : M unit :=
  tracing <- isTracing ;;
  if tracing then record (TraceAddOutput "aten::detach" result) else ret tt.

(** [RECORD_FUNCTION] feeds the profiler and the names are propagated
    only under [BUILD_NAMEDTENSOR]; neither is part of the model. *)
Definition detach (self : Tensor) : M Tensor :=
  detach_trace_entry self None ;;;
  result <- make_variable_view self self false false None ;;
  detach_trace_exit result ;;;
  ret result.

(** Modelled from the spec: [set_requires_grad] is declared outside this
    file; it stores the flag. *)
Definition set_requires_grad (b : bool) (m : AutogradMeta) : AutogradMeta :=
  {| grad_fn_ := grad_fn_ m; grad_accumulator_ := grad_accumulator_ m;
     requires_grad_ := b; view_ := view_ m; output_nr_ := output_nr_ m |}.

Definition reset_grad_fn (m : AutogradMeta) : AutogradMeta :=
  {| grad_fn_ := None; grad_accumulator_ := grad_accumulator_ m;
     requires_grad_ := requires_grad_ m; view_ := view_ m;
     output_nr_ := output_nr_ m |}.

Definition set_output_nr (n : N) (m : AutogradMeta) : AutogradMeta :=
  {| grad_fn_ := grad_fn_ m; grad_accumulator_ := grad_accumulator_ m;
     requires_grad_ := requires_grad_ m; view_ := view_ m; output_nr_ := n |}.

Definition detach_ (self : Tensor) : M Tensor :=
  detach_trace_entry self (Some "detach_") ;;;
  v <- deref (fun s => is_view s self) ;;
  (if v then throw InvalidOperation
              "Can't detach views in-place. Use detach() instead"
   else ret tt) ;;;
  update_meta self (set_requires_grad false) ;;;
  update_meta self reset_grad_fn ;;;
  update_meta self (set_output_nr 0) ;;;
  detach_trace_exit self ;;;
  ret self.

End Operations.

(** ** Vocabulary of the properties *)

(** [sub] occurs in [s]. *)
Definition mentions (sub s : string) : Prop :=
  exists pre post, s = String.append pre (String.append sub post).

(** A handle the list form of [unpack] lets through. *)
Definition passes (s : Store) (t : Tensor) : Prop :=
  t = Undefined \/ is_variable s t = Some true.

Definition fails_with {A} (k : ErrorKind) (o : Outcome A) : bool :=
  match o with
  | Throw e => bool_decide (kind e = k)
  | Ok _ => false
  end.

Definition succeeds {A} (o : Outcome A) : bool :=
  match o with Ok _ => true | Throw _ => false end.

(** The weak pointer of [t] referred to an accumulator in [s] and is
    empty in [s']. *)
Definition accumulator_reset (s s' : Store) (t : Tensor) : Prop :=
  (exists k, grad_accumulator s t = Some (Some k)) /\
  grad_accumulator s' t = Some None.

(** A materialized accumulator records the device of its variable. *)
Definition accumulator_consistent (s : Store) (t : Tensor) : Prop :=
  forall m acc,
    get_autograd_meta s t = Some m ->
    lock s (grad_accumulator_ m) = Some acc ->
    device s t = Some (metadata_device (input_metadata0 acc)).

(** Whether [set_data] finds a live accumulator that the new data
    makes stale. *)
Definition set_data_resets (s : Store) (self new_data : Tensor) : bool :=
  match get_autograd_meta s self with
  | Some m =>
    match lock s (grad_accumulator_ m) with
    | Some acc =>
      bool_decide (type s new_data <> type s self)
      || bool_decide (Some (metadata_device (input_metadata0 acc))
                      <> device s new_data)
    | None => false
    end
  | None => false
  end.

(** The object [detach] creates for a variable [v] with object [i]. *)
Definition detached_view (v : Tensor) (i : TensorImpl) : TensorImpl :=
  {| data_ := data_ i;
     version_counter_ := version_counter_ i;
     allow_tensor_metadata_change_ := false;
     autograd_meta_ := Some
       {| grad_fn_ := None; grad_accumulator_ := None;
          requires_grad_ := false;
          view_ := Some {| base_ := v; is_differentiable_ := false |};
          output_nr_ := 0 |} |}.

(** The condition under which [copy_] builds its gradient function. *)
Definition copy_requires_grad (s : Store) (self src : Tensor) : option bool :=
  a ← requires_grad s self;
  b ← requires_grad s src;
  st ← scalar_type s self;
  Some ((a || b) && isFloatingPoint st).

(** The node [copy_] builds when it builds one: its edges are those of
    [self] and [src], and it remembers the options and device of [src]. *)
Definition copy_node (s : Store) (self src : Tensor)
  : option Node :=
  edges ← collect_next_edges s [self; src];
  o ← options s src;
  d ← device s src;
  Some (CopyBackwards edges o d).

(** The local [grad_fn] of a call of [copy_] on the objects of [s]. *)
Definition copy_built (s : Store) (self src : Tensor)
  : option Node :=
  match copy_requires_grad s self src with
  | Some true => copy_node s self src
  | _ => None
  end.

(** The store after [rebase_history (Impl p) g]. *)
Definition rebased (g : option Node) (p : addr) (s : Store) : Store :=
  match g with
  | Some n => with_impls (alter (set_meta (set_gradient_edge n 0)) p) s
  | None => s
  end.

(** Everything in a store but the trace. *)
Definition objects (s : Store)
  : gmap addr TensorImpl * gmap nat Storage * gmap nat nat
    * gmap nat AccumulateGrad :=
  (impls s, heap s, versions s, accumulators s).

(** The trace with [evs] appended, when there is one. *)
Definition append_events (evs : list TraceEvent) (t : option TracingState)
  : option TracingState :=
  (fun ts => {| force_outplace := force_outplace ts;
                graph := graph ts ++ evs |}) <$> t.

(** The [force_outplace] flag of the trace being recorded. *)
Definition outplace (s : Store) : bool :=
  default false (force_outplace <$> tracer s).

(** What [copy_] tells the tracer before it looks at its arguments, and
    the name of the traced value it binds to [self] at the end. *)
Definition copy_entry_events (fo : bool) (self src : Tensor)
  : list TraceEvent :=
  if fo then
    [TraceNode "aten::expand_as" [("src", src); ("self", self)];
     TraceEnsureUnique "copy_ (possibly due to an assignment)" self]
  else [TraceInsert "aten::copy_" [self; src]].

Definition copy_output (fo : bool) : string :=
  if fo then "aten::expand_as" else "aten::copy_".

(** A computation that leaves the trace as it found it. *)
Definition preserves_tracer {A} (m : M A) : Prop :=
  forall s, tracer (m s).2 = tracer s.

(** A computation that tells the tracer [ev a] when it returns [a], and
    nothing when it throws. *)
Definition appends_on_success {A} (ev : A -> TraceEvent) (m : M A) : Prop :=
  forall s,
    tracer (m s).2 =
    match (m s).1 with
    | Ok a => traced (ev a) (tracer s)
    | Throw _ => tracer s
    end.

(** What [detach] and [detach_] tell the tracer on entry. *)
Definition detach_entry_events (self : Tensor) (unique : option string)
  : list TraceEvent :=
  TraceNode "aten::detach" [("self", self)]
  :: match unique with
     | Some w => [TraceEnsureUnique w self]
     | None => []
     end.

(** What [resize_] and [resize_as_] tell the tracer once past their
    checks. *)
Definition resize_events (self : Tensor) : list TraceEvent :=
  [TracePopIntArrayRef "size"; TraceWarn "resize_"; TraceDelValueTrace self].

Definition resize_as_events (self : Tensor) : list TraceEvent :=
  [TraceWarn "resize_as_"; TraceDelValueTrace self].

(** ** The phases of [copy_] *)

Section CopyPhases.
Context `{Collaborators}.

(** The first part of the body of [copy_]: the tracer's entry, the
    unwrapping of both arguments and the in-place safety check. Its
    result is the locals [output], [self_] and [src_]. *)
Definition copy_checks (self src : Tensor)
  : M (option string * Tensor * Tensor) :=
  output <- copy_trace_entry self src ;;
  self_ <- unpack self "self" 0 ;;
  src_ <- unpack src "src" 1 ;;
  check_inplace_guard self ;;;
  ret (output, self_, src_).

(** The last part of the body of [copy_], from the kernel on. *)
Definition copy_apply (self self_ src_ : Tensor) (non_blocking : bool)
    (grad_fn : option Node) (output : option string) : M Tensor :=
  raw_copy_ self_ src_ non_blocking ;;;
  increment_version self ;;;
  rebase_history self grad_fn ;;;
  tracing <- isTracing ;;
  (if tracing then record (TraceSetOutput output self) else ret tt) ;;;
  ret self.

(** The gradient function a call of [copy_] builds: the value of its
    local [grad_fn] once the call is past its checks, null when the call
    stops before. *)
Definition copy_builds (s : Store) (self src : Tensor) : option Node :=
  match copy_checks self src s with
  | (Ok _, s1) =>
    match copy_grad_fn self src s1 with
    | (Ok grad_fn, _) => grad_fn
    | (Throw _, _) => None
    end
  | (Throw _, _) => None
  end.

End CopyPhases.

(** ** A small concrete world *)

Definition is_sparse (b : Backend) : bool :=
  match b with SparseCPU | SparseCUDA => true | _ => false end.

(** Kernels that copy whole storages and set sizes as asked, a type
    check that separates dense from sparse tensors, and a safety check
    that rejects a leaf that requires gradients. *)
#[local] Instance sample_lib : Collaborators := {|
  toString := fun ty =>
    match type_scalar ty with
    | Float => "FloatType"
    | Long => "LongType"
    | _ => "OtherType"
    end;
  _has_compatible_shallow_copy_type := fun s a b =>
    match tensor_data s a, tensor_data s b with
    | Some x, Some y => bool_decide (is_sparse (backend_ x) = is_sparse (backend_ y))
    | _, _ => false
    end;
  check_inplace := fun im t =>
    match t with
    | Impl p =>
      match im !! p ≫= autograd_meta_ with
      | Some m =>
        if requires_grad_ m && bool_decide (grad_fn_ m = None)
        then Some "a leaf Variable that requires grad has been used in an in-place operation."
        else None
      | None => None
      end
    | Undefined => None
    end;
  at_copy_ := fun h a b _ =>
    match h !! storage_ b with
    | Some v => inr (<[storage_ a := v]> h)
    | None => inl "copy_: source has no storage"
    end;
  at_resize_ := fun h a size =>
    if forallb (Z.leb 0) size then inr (h, (size, strides_ a))
    else inl "resize_: negative dimension";
  at_resize_as_ := fun h a b => inr (h, (sizes_ b, strides_ b))
|}.

Definition cpu : Device := {| device_type := DeviceCPU; device_index := 0 |}.
Definition cuda0 : Device := {| device_type := DeviceCUDA; device_index := 0 |}.

Definition sample_data (st : nat) (d : Device) (b : Backend) (ty : ScalarType)
  : TensorData :=
  {| sizes_ := [2%Z]; strides_ := [1%Z]; storage_ := st; device_ := d;
     backend_ := b; scalar_type_ := ty |}.

Definition sample_meta (g : option Node) (acc : option nat) (rg : bool)
    (v : option ViewInfo) (n : N) : AutogradMeta :=
  {| grad_fn_ := g; grad_accumulator_ := acc; requires_grad_ := rg;
     view_ := v; output_nr_ := n |}.

Definition sample_impl (d : TensorData) (vc : nat) (m : option AutogradMeta)
  : TensorImpl :=
  {| data_ := d; version_counter_ := vc;
     allow_tensor_metadata_change_ := true; autograd_meta_ := m |}.

(** Tensor 0 is plain; 1 is a float leaf that requires gradients, with a
    live accumulator on the CPU; 2 is a float variable on a CUDA device;
    3 is an integer variable; 4 is a view of 1; 5 is output 2 of a
    generated node; 6 is a sparse variable; 7 is a float variable that
    does not require gradients. *)
Definition sample_store : Store :=
  {| impls := list_to_map
       [ (0, sample_impl (sample_data 0 cpu CPU Float) 0 None);
         (1, sample_impl (sample_data 1 cpu CPU Float) 1
               (Some (sample_meta None (Some 0) true None 0)));
         (2, sample_impl (sample_data 2 cuda0 CUDA Float) 2
               (Some (sample_meta None None false None 0)));
         (3, sample_impl (sample_data 3 cpu CPU Long) 3
               (Some (sample_meta None None false None 0)));
         (4, sample_impl (sample_data 1 cpu CPU Float) 1
               (Some (sample_meta None None false
                        (Some {| base_ := Impl 1; is_differentiable_ := true |}) 0)));
         (5, sample_impl (sample_data 5 cpu CPU Float) 5
               (Some (sample_meta (Some (GeneratedNode "MulBackward0" [])) None
                        false None 2)));
         (6, sample_impl (sample_data 6 cpu SparseCPU Float) 6
               (Some (sample_meta None None false None 0)));
         (7, sample_impl (sample_data 7 cpu CPU Float) 7
               (Some (sample_meta None None false None 0))) ];
     heap := list_to_map
       [ (0, [1; 2]%Z); (1, [3; 4]%Z); (2, [5; 6]%Z); (3, [7; 8]%Z);
         (5, [9; 10]%Z); (6, [11; 12]%Z); (7, [13; 14]%Z) ];
     versions := list_to_map
       [ (0, 0); (1, 4); (2, 0); (3, 0); (5, 1); (6, 0); (7, 0) ];
     accumulators := list_to_map
       [ (0, {| input_metadata0 :=
                  {| metadata_type := {| type_backend := CPU; type_scalar := Float |};
                     metadata_shape := [2%Z]; metadata_device := cpu |} |}) ];
     tracer := None |}.

(** The same world with a trace being recorded. *)
Definition traced_store : Store :=
  with_tracer (fun _ => Some {| force_outplace := false; graph := [] |})
    sample_store.

(** * Properties *)

(** ** The monad *)

Lemma bind_ok {A B} (m : M A) (f : A -> M B) s a s' :
  m s = (Ok a, s') -> bind m f s = f a s'.
Proof. intros E. unfold bind. now rewrite E. Qed.

Lemma bind_throw {A B} (m : M A) (f : A -> M B) s e s' :
  m s = (Throw e, s') -> bind m f s = (Throw e, s').
Proof. intros E. unfold bind. now rewrite E. Qed.

Lemma deref_some {A} (f : Store -> option A) s a :
  f s = Some a -> deref f s = (Ok a, s).
Proof. intros E. unfold deref. now rewrite E. Qed.

Lemma bind_deref {A B} (f : Store -> option A) (k : A -> M B) s a :
  f s = Some a -> bind (deref f) k s = k a s.
Proof. intros E. apply bind_ok, deref_some, E. Qed.

(** ** Strings *)

Lemma append_cons ch (a b : string) :
  String.append (String ch a) b = String ch (String.append a b).
Proof. reflexivity. Qed.

Lemma append_nil_r (a : string) : String.append a "" = a.
Proof.
  induction a as [|ch a IH]; [reflexivity | now rewrite append_cons, IH].
Qed.

Lemma append_assoc (a b c : string) :
  String.append (String.append a b) c = String.append a (String.append b c).
Proof.
  induction a as [|ch a IH]; [reflexivity | now rewrite !append_cons, IH].
Qed.

Lemma str_cons (a : string) (l : list string) :
  str (a :: l) = String.append a (str l).
Proof.
  unfold str. destruct l as [|b l].
  - symmetry. apply append_nil_r.
  - reflexivity.
Qed.

Lemma str_app (l1 l2 : list string) :
  str (l1 ++ l2) = String.append (str l1) (str l2).
Proof.
  induction l1 as [|a l1 IH].
  - reflexivity.
  - change ((a :: l1) ++ l2)%list with (a :: (l1 ++ l2))%list.
    now rewrite !str_cons, IH, append_assoc.
Qed.

Lemma mentions_str (x : string) (l1 l2 : list string) :
  mentions x (str (l1 ++ x :: l2)).
Proof.
  exists (str l1), (str l2). now rewrite str_app, str_cons.
Qed.

(** ** Reading the store *)

Lemma is_variable_true s t :
  is_variable s t = Some true <->
  exists i m, impl_of s t = Some i /\ autograd_meta_ i = Some m.
Proof.
  unfold is_variable. split.
  - destruct (impl_of s t) as [i|]; simpl; [|discriminate].
    intros [= E]. apply bool_decide_eq_true in E as [m E]. eauto.
  - intros (i & m & -> & E). simpl. f_equal.
    apply bool_decide_eq_true. rewrite E. eauto.
Qed.

Lemma is_variable_false s t :
  is_variable s t = Some false <->
  exists i, impl_of s t = Some i /\ autograd_meta_ i = None.
Proof.
  unfold is_variable. split.
  - destruct (impl_of s t) as [i|]; simpl; [|discriminate].
    intros [= E]. apply bool_decide_eq_false in E. exists i. split; [done|].
    destruct (autograd_meta_ i); [|done]. exfalso. apply E. eauto.
  - intros (i & -> & E). simpl. f_equal.
    apply bool_decide_eq_false. rewrite E. intros [? ?]. discriminate.
Qed.

Lemma is_variable_meta s t :
  is_variable s t = Some true <-> is_Some (get_autograd_meta s t).
Proof.
  rewrite is_variable_true. unfold get_autograd_meta. split.
  - intros (i & m & -> & E). simpl. eauto.
  - intros [m E]. destruct (impl_of s t) as [i|]; simpl in E; [|discriminate].
    eauto.
Qed.

Lemma is_variable_defined s t b : is_variable s t = Some b -> defined t = true.
Proof. destruct t; [discriminate | done]. Qed.

Section Proofs.
Context `{Collaborators}.

(** ** Unwrap / validate *)

Lemma checked_cast_variable_undefined name pos s :
  checked_cast_variable Undefined name pos s =
  (Throw {| kind := UndefinedTensorError;
            what := str ["Expected a Tensor of type Variable but found an undefined Tensor for argument #";
                         show_int pos; " '"; name; "'"] |}, s).
Proof. reflexivity. Qed.

Lemma checked_cast_variable_plain t name pos s ty :
  is_variable s t = Some false -> type s t = Some ty ->
  checked_cast_variable t name pos s =
  (Throw {| kind := NotAVariableError;
            what := str ["Expected object of type Variable but found type ";
                         toString ty; " for argument #"; show_int pos;
                         " '"; name; "'"] |}, s).
Proof.
  intros V T. unfold checked_cast_variable.
  rewrite (is_variable_defined _ _ _ V). simpl.
  rewrite (bind_deref _ _ _ _ V). simpl.
  now rewrite (bind_deref _ _ _ _ T).
Qed.

Lemma checked_cast_variable_ok t name pos s :
  is_variable s t = Some true -> checked_cast_variable t name pos s = (Ok t, s).
Proof.
  intros V. unfold checked_cast_variable.
  rewrite (is_variable_defined _ _ _ V). simpl.
  now rewrite (bind_deref _ _ _ _ V).
Qed.

Lemma plain_has_type s t :
  is_variable s t = Some false -> is_Some (type s t).
Proof.
  intros (i & E & _)%is_variable_false. unfold type, tensor_data.
  rewrite E. simpl. eauto.
Qed.

(** C9. [unpack] rejects an undefined handle with an
    [UndefinedTensorError] and a defined handle that is not a Variable
    with a [NotAVariableError]; either message is built from the given
    argument name and position and so mentions both; a defined Variable
    is returned as it is, the store untouched. In particular
    [unpack(undefined, "x", 0)] fails with a message that ends in
    [#0 'x']. *)
Theorem unpack_contract (s : Store) (t : Tensor) (name : string) (pos : Z) :
  (defined t = false ->
   exists msg,
     unpack t name pos s =
       (Throw {| kind := UndefinedTensorError; what := msg |}, s) /\
     msg = str ["Expected a Tensor of type Variable but found an undefined Tensor for argument #";
                show_int pos; " '"; name; "'"] /\
     mentions name msg /\ mentions (show_int pos) msg) /\
  (is_variable s t = Some false ->
   exists ty msg,
     type s t = Some ty /\
     unpack t name pos s =
       (Throw {| kind := NotAVariableError; what := msg |}, s) /\
     msg = str ["Expected object of type Variable but found type ";
                toString ty; " for argument #"; show_int pos;
                " '"; name; "'"] /\
     mentions name msg /\ mentions (show_int pos) msg) /\
  (is_variable s t = Some true -> unpack t name pos s = (Ok t, s)) /\
  unpack Undefined "x" 0 s =
    (Throw {| kind := UndefinedTensorError;
              what := "Expected a Tensor of type Variable but found an undefined Tensor for argument #0 'x'" |},
     s).
Proof.
  repeat split.
  - intros D. destruct t; [|discriminate]. eexists. split; [|split; [|split]].
    + apply checked_cast_variable_undefined.
    + reflexivity.
    + apply (mentions_str name [_; _; _] [_]).
    + apply (mentions_str (show_int pos) [_] [_; _; _]).
  - intros V. destruct (plain_has_type _ _ V) as [ty T].
    exists ty. eexists. split; [exact T|]. split; [|split; [|split]].
    + apply checked_cast_variable_plain; eassumption.
    + reflexivity.
    + apply (mentions_str name [_; _; _; _; _] [_]).
    + apply (mentions_str (show_int pos) [_; _; _] [_; _; _]).
  - apply checked_cast_variable_ok.
Qed.

Lemma unpack_list_from_ok s name pos rest (done_ : list Tensor) :
  Forall (passes s) rest ->
  unpack_list_from rest name pos (length done_)
    (done_ ++ replicate (length rest) Undefined) s
  = (Ok (done_ ++ rest), s).
Proof.
  intros P. revert done_.
  induction P as [|t rest [->|V] _ IH]; intros done_.
  - simpl. now rewrite !app_nil_r.
  - simpl. specialize (IH (done_ ++ [Undefined])).
    rewrite length_app, <- !app_assoc in IH. simpl in IH.
    now rewrite Nat.add_1_r in IH.
  - simpl. rewrite (is_variable_defined _ _ _ V). simpl.
    rewrite (bind_deref _ _ _ _ V). simpl.
    specialize (IH (done_ ++ [t])).
    rewrite length_app, <- !app_assoc in IH. simpl in IH.
    rewrite Nat.add_1_r in IH. rewrite <- IH. f_equal.
    rewrite insert_app_r_alt by lia. now rewrite Nat.sub_diag.
Qed.

Lemma unpack_list_from_plain s name pos l1 t l2 ty :
  Forall (passes s) l1 -> is_variable s t = Some false -> type s t = Some ty ->
  forall i res,
    unpack_list_from (l1 ++ t :: l2) name pos i res s =
    (Throw {| kind := NotAVariableError;
              what := str ["Expected object of type Variable but found type ";
                           toString ty; " at position #";
                           show_int (Z.of_nat (i + length l1)); " ";
                           "for iterable argument #"; show_int pos;
                           " '"; name; "'"] |}, s).
Proof.
  intros P V T.
  induction P as [|u l1 [->|U] _ IH]; intros i res.
  - simpl. rewrite (is_variable_defined _ _ _ V). simpl.
    rewrite (bind_deref _ _ _ _ V). simpl.
    rewrite (bind_deref _ _ _ _ T). now rewrite Nat.add_0_r.
  - simpl. rewrite IH. now rewrite Nat.add_succ_r.
  - simpl. rewrite (is_variable_defined _ _ _ U). simpl.
    rewrite (bind_deref _ _ _ _ U). simpl.
    rewrite IH. now rewrite Nat.add_succ_r.
Qed.

(** C10. On a list whose elements are all undefined or Variables, the
    list form of [unpack] returns the list itself: the same length, the
    same elements at the same positions, an undefined element wherever
    the input has one. On a list with an element that is defined but not
    a Variable it fails with a [NotAVariableError] that names the
    position of the first such element. *)
Theorem unpack_list_contract (s : Store) (tl : list Tensor) (name : string)
    (pos : Z) :
  (Forall (passes s) tl ->
   exists res,
     unpack_list tl name pos s = (Ok res, s) /\
     length res = length tl /\
     (forall i, res !! i = tl !! i) /\
     (forall i, tl !! i = Some Undefined -> res !! i = Some Undefined)) /\
  (forall l1 t l2,
     tl = l1 ++ t :: l2 -> Forall (passes s) l1 ->
     is_variable s t = Some false ->
     exists ty,
       type s t = Some ty /\
       unpack_list tl name pos s =
       (Throw {| kind := NotAVariableError;
                 what := str ["Expected object of type Variable but found type ";
                              toString ty; " at position #";
                              show_int (Z.of_nat (length l1)); " ";
                              "for iterable argument #"; show_int pos;
                              " '"; name; "'"] |}, s)).
Proof.
  split.
  - intros P. exists tl. split; [|done].
    apply (unpack_list_from_ok s name pos tl [] P).
  - intros l1 t l2 -> P V. destruct (plain_has_type _ _ V) as [ty T].
    exists ty. split; [exact T|]. unfold unpack_list.
    now rewrite (unpack_list_from_plain s name pos l1 t l2 ty P V T).
Qed.

(** ** Frame lemmas for the two ways an object is written *)

Lemma impl_of_alter s f p t :
  impl_of (with_impls (alter f p) s) t =
  if decide (t = Impl p) then f <$> impl_of s t else impl_of s t.
Proof.
  destruct (decide (t = Impl p)) as [->|NE].
  - apply lookup_alter_eq.
  - destruct t as [|q]; [done|]. apply lookup_alter_ne. congruence.
Qed.

Lemma get_meta_set_meta s f p t :
  get_autograd_meta (with_impls (alter (set_meta f) p) s) t =
  if decide (t = Impl p) then f <$> get_autograd_meta s t
  else get_autograd_meta s t.
Proof.
  unfold get_autograd_meta. rewrite impl_of_alter.
  case_decide; [|done]. now destruct (impl_of s t).
Qed.

Lemma get_meta_set_data_fields s f p t :
  get_autograd_meta (with_impls (alter (set_data_fields f) p) s) t =
  get_autograd_meta s t.
Proof.
  unfold get_autograd_meta. rewrite impl_of_alter.
  case_decide; [|done]. now destruct (impl_of s t).
Qed.

Lemma tensor_data_set_meta s f p t :
  tensor_data (with_impls (alter (set_meta f) p) s) t = tensor_data s t.
Proof.
  unfold tensor_data. rewrite impl_of_alter.
  case_decide; [|done]. now destruct (impl_of s t).
Qed.

Lemma tensor_data_set_data_fields s f p t :
  tensor_data (with_impls (alter (set_data_fields f) p) s) t =
  if decide (t = Impl p) then f <$> tensor_data s t else tensor_data s t.
Proof.
  unfold tensor_data. rewrite impl_of_alter.
  case_decide; [|done]. now destruct (impl_of s t).
Qed.

Lemma current_version_alter s f p t :
  (forall i, version_counter_ (f i) = version_counter_ i) ->
  current_version (with_impls (alter f p) s) t = current_version s t.
Proof.
  intros F. unfold current_version. rewrite impl_of_alter.
  case_decide; [|done]. destruct (impl_of s t); simpl; [|done]. now rewrite F.
Qed.

Lemma update_meta_ok s p m f :
  get_autograd_meta s (Impl p) = Some m ->
  update_meta (Impl p) f s = (Ok tt, with_impls (alter (set_meta f) p) s).
Proof. intros E. unfold update_meta. now rewrite (bind_deref _ _ _ _ E). Qed.

(** ** Metadata access *)

Lemma output_nr_truth_value s self m :
  get_autograd_meta s self = Some m ->
  output_nr self s = (Ok (Z.b2z (N.eqb (output_nr_ m) 0)), s).
Proof. intros E. unfold output_nr. now rewrite (bind_deref _ _ _ _ E). Qed.

(** Whatever slot index is stored, it is not what [output_nr] returns. *)
Lemma output_nr_never_the_slot s self m :
  get_autograd_meta s self = Some m ->
  exists r, output_nr self s = (Ok r, s) /\ r <> Z.of_N (output_nr_ m).
Proof.
  intros E. eexists. split; [apply (output_nr_truth_value _ _ _ E)|].
  destruct (N.eqb_spec (output_nr_ m) 0) as [->|NE]; simpl; lia.
Qed.

(** C3. At a variable whose metadata stores output slot 2, [output_nr]
    returns 0: the truth value of the comparison of the slot index with
    the null pointer constant, not the slot index. *)
Theorem output_nr_at_slot_2 :
  (output_nr_ <$> get_autograd_meta sample_store (Impl 5)) = Some 2%N /\
  output_nr (Impl 5) sample_store = (Ok 0%Z, sample_store).
Proof. split; reflexivity. Qed.

(** ** [set_data] *)

(** C4. When the shallow-copy types of [self] and [new_data] are
    incompatible, [set_data] throws an [IncompatibleTypeError] and the
    store it leaves is the store it found: no field of [self], of its
    autograd metadata or of its accumulator has been written. *)
Theorem set_data_incompatible (s : Store) (self new_data : Tensor) :
  _has_compatible_shallow_copy_type s self new_data = false ->
  set_data self new_data s =
    (Throw {| kind := IncompatibleTypeError;
              what := "Attempted to call `variable.set_data(tensor)`, but `variable` and `tensor` have incompatible tensor type." |},
     s) /\
  forall o s', set_data self new_data s = (o, s') ->
    fails_with IncompatibleTypeError o = true /\
    impl_of s' self = impl_of s self /\
    get_autograd_meta s' self = get_autograd_meta s self /\
    accumulators s' = accumulators s /\
    versions s' = versions s /\ heap s' = heap s.
Proof.
  intros C.
  assert (set_data self new_data s =
    (Throw {| kind := IncompatibleTypeError;
              what := "Attempted to call `variable.set_data(tensor)`, but `variable` and `tensor` have incompatible tensor type." |},
     s)) as E.
  { unfold set_data, bind, gets. now rewrite C. }
  split; [exact E|]. intros o s'. rewrite E. now intros [= <- <-].
Qed.

Lemma shallow_copy_from_ok s p i new_data d :
  impls s !! p = Some i -> tensor_data s new_data = Some d ->
  shallow_copy_from (Impl p) new_data s =
  (Ok tt, with_impls (alter (set_data_fields (fun _ => d)) p) s).
Proof.
  intros I D. unfold shallow_copy_from.
  rewrite (bind_deref _ _ _ _ D).
  now rewrite (bind_deref (fun s => impl_of s (Impl p)) _ _ _ I).
Qed.

(** What [set_data] does when the types are compatible. *)
Lemma set_data_compatible s p m new_data b :
  _has_compatible_shallow_copy_type s (Impl p) new_data = true ->
  get_autograd_meta s (Impl p) = Some m ->
  impl_of s new_data = Some b ->
  set_data (Impl p) new_data s =
  (Ok tt,
   with_impls (alter (set_data_fields (fun _ => data_ b)) p)
     (if set_data_resets s (Impl p) new_data
      then with_impls (alter (set_meta reset_grad_accumulator) p) s
      else s)).
Proof.
  intros C E B.
  assert (exists i, impls s !! p = Some i) as [i I].
  { unfold get_autograd_meta in E. simpl in E.
    destruct (impls s !! p) as [i|]; [eauto | discriminate]. }
  assert (tensor_data s new_data = Some (data_ b)) as D.
  { unfold tensor_data. now rewrite B. }
  assert (tensor_data s (Impl p) = Some (data_ i)) as Dp.
  { unfold tensor_data. simpl. now rewrite I. }
  unfold set_data_resets. rewrite E.
  unfold set_data.
  rewrite (bind_ok _ _ s true s) by (unfold gets; now rewrite C).
  rewrite (bind_ok _ _ s tt s) by reflexivity.
  rewrite (bind_deref _ _ _ _ E).
  rewrite (bind_ok _ _ s (lock s (grad_accumulator_ m)) s) by reflexivity.
  destruct (lock s (grad_accumulator_ m)) as [acc|].
  - assert (device s new_data = Some (device_ (data_ b))) as Hd
      by (unfold device; now rewrite D).
    assert (type s new_data =
              Some {| type_backend := backend_ (data_ b);
                      type_scalar := scalar_type_ (data_ b) |}) as Hn
      by (unfold type; now rewrite D).
    assert (type s (Impl p) =
              Some {| type_backend := backend_ (data_ i);
                      type_scalar := scalar_type_ (data_ i) |}) as Hs
      by (unfold type; now rewrite Dp).
    rewrite Hd, Hn, Hs.
    unfold bind at 1. cbv zeta.
    rewrite (bind_deref _ _ _ _ Hd), (bind_deref _ _ _ _ Hn),
      (bind_deref _ _ _ _ Hs).
    assert (forall (x y : DeprecatedTypeProperties),
              bool_decide (Some x <> Some y) = bool_decide (x <> y)) as T.
    { intros x y. apply bool_decide_ext. split; congruence. }
    assert (forall (x y : Device),
              bool_decide (Some x <> Some y) = bool_decide (x <> y)) as V.
    { intros x y. apply bool_decide_ext. split; congruence. }
    rewrite T, V.
    destruct (bool_decide _ || bool_decide _).
    + rewrite (update_meta_ok s p m _ E).
      apply shallow_copy_from_ok with (i := set_meta reset_grad_accumulator i).
      * simpl. now rewrite lookup_alter_eq, I.
      * now rewrite tensor_data_set_meta.
    + now apply shallow_copy_from_ok with (i := i).
  - rewrite (bind_ok _ _ s tt s) by reflexivity.
    now apply shallow_copy_from_ok with (i := i).
Qed.

Lemma set_data_final_meta s p m new_data b s' :
  _has_compatible_shallow_copy_type s (Impl p) new_data = true ->
  get_autograd_meta s (Impl p) = Some m ->
  impl_of s new_data = Some b ->
  set_data (Impl p) new_data s = (Ok tt, s') ->
  get_autograd_meta s' (Impl p) =
    Some (if set_data_resets s (Impl p) new_data
          then reset_grad_accumulator m else m) /\
  tensor_data s' (Impl p) = Some (data_ b) /\
  accumulators s' = accumulators s.
Proof.
  intros C E B R. rewrite (set_data_compatible _ _ _ _ _ C E B) in R.
  injection R as <-. rewrite get_meta_set_data_fields.
  rewrite tensor_data_set_data_fields, decide_True by done.
  destruct (set_data_resets s (Impl p) new_data).
  - rewrite get_meta_set_meta, decide_True, E by done.
    rewrite tensor_data_set_meta. repeat split.
    unfold get_autograd_meta in E. unfold tensor_data.
    destruct (impl_of s (Impl p)); [done | discriminate].
  - rewrite E. repeat split.
    unfold get_autograd_meta in E. unfold tensor_data.
    destruct (impl_of s (Impl p)); [done | discriminate].
Qed.

Lemma lock_some s w acc : lock s w = Some acc -> exists k, w = Some k.
Proof. destruct w as [k|]; [eauto | discriminate]. Qed.

Lemma set_data_resets_true s self new_data m :
  get_autograd_meta s self = Some m ->
  set_data_resets s self new_data = true <->
  exists acc,
    lock s (grad_accumulator_ m) = Some acc /\
    (type s new_data <> type s self \/
     device s new_data <> Some (metadata_device (input_metadata0 acc))).
Proof.
  intros E. unfold set_data_resets. rewrite E. split.
  - destruct (lock s (grad_accumulator_ m)) as [acc|]; [|discriminate].
    intros [T|D]%orb_true_iff; exists acc; split; try done.
    + left. now apply bool_decide_eq_true in T.
    + right. apply bool_decide_eq_true in D. congruence.
  - intros (acc & -> & [T|D]); apply orb_true_iff.
    + left. now apply bool_decide_eq_true.
    + right. apply bool_decide_eq_true. congruence.
Qed.

(** After a successful [set_data] a live accumulator of [self] records
    the device [self] now has, whatever held before. *)
Lemma set_data_consistent s self new_data m b s' :
  _has_compatible_shallow_copy_type s self new_data = true ->
  get_autograd_meta s self = Some m ->
  impl_of s new_data = Some b ->
  set_data self new_data s = (Ok tt, s') ->
  accumulator_consistent s' self.
Proof.
  intros C E B R. destruct self as [|p]; [discriminate|].
  destruct (set_data_final_meta _ _ _ _ _ _ C E B R) as (M' & D' & A').
  intros m' acc' E' L'. rewrite M' in E'. injection E' as <-.
  unfold device. rewrite D'. simpl. f_equal.
  destruct (set_data_resets s (Impl p) new_data) eqn:Rs; [discriminate|].
  assert (lock s (grad_accumulator_ m) = Some acc') as L.
  { unfold lock in *. now rewrite <- A'. }
  destruct (decide (device s new_data =
                    Some (metadata_device (input_metadata0 acc')))) as [D|D].
  - unfold device, tensor_data in D. rewrite B in D. simpl in D. congruence.
  - assert (set_data_resets s (Impl p) new_data = true); [|congruence].
    apply (set_data_resets_true _ _ _ _ E). eauto.
Qed.

(** C5. With compatible types [set_data] succeeds, and it resets the
    gradient accumulator of [self] exactly when [self] has a live
    accumulator and the type or the device of [new_data] differs from
    the type or device [self] had (the device a materialized accumulator
    records). An accumulator materialized on one device is always reset
    by new data on another device; an empty or expired weak pointer is
    left as it is. *)
Theorem set_data_accumulator (s : Store) (self new_data : Tensor)
    (m : AutogradMeta) (b : TensorImpl) :
  _has_compatible_shallow_copy_type s self new_data = true ->
  get_autograd_meta s self = Some m ->
  impl_of s new_data = Some b ->
  exists s',
    set_data self new_data s = (Ok tt, s') /\
    (forall acc,
       lock s (grad_accumulator_ m) = Some acc ->
       device s new_data <> Some (metadata_device (input_metadata0 acc)) ->
       accumulator_reset s s' self) /\
    (lock s (grad_accumulator_ m) = None ->
       grad_accumulator s' self = grad_accumulator s self) /\
    (accumulator_consistent s self ->
       (accumulator_reset s s' self <->
        is_Some (lock s (grad_accumulator_ m)) /\
        (type s new_data <> type s self \/
         device s new_data <> device s self))).
Proof.
  intros C E B. destruct self as [|p]; [discriminate|].
  eexists. split; [apply (set_data_compatible _ _ _ _ _ C E B)|].
  destruct (set_data_final_meta _ _ _ _ _ _ C E B
              (set_data_compatible _ _ _ _ _ C E B)) as (M' & _ & _).
  set (s' := with_impls _ _) in *.
  assert (grad_accumulator s (Impl p) = Some (grad_accumulator_ m)) as G
    by (unfold grad_accumulator; now rewrite E).
  assert (grad_accumulator s' (Impl p) =
          Some (grad_accumulator_
                  (if set_data_resets s (Impl p) new_data
                   then reset_grad_accumulator m else m))) as G'
    by (unfold grad_accumulator; now rewrite M').
  split; [|split].
  - intros acc L D. split.
    + destruct (lock_some _ _ _ L) as [k K]. exists k. now rewrite G, K.
    + rewrite G'. replace (set_data_resets s (Impl p) new_data) with true; [done|].
      symmetry. apply (set_data_resets_true s (Impl p) new_data m E). eauto.
  - intros L. rewrite G, G'.
    destruct (set_data_resets s (Impl p) new_data) eqn:Rs; [|done].
    apply (set_data_resets_true s (Impl p) new_data m E) in Rs as (acc & L' & _). congruence.
  - intros Inv. split.
    + intros [[k K] N]. rewrite G in K. injection K as K.
      destruct (set_data_resets s (Impl p) new_data) eqn:Rs.
      * apply (set_data_resets_true s (Impl p) new_data m E) in Rs as (acc & L & Cond). split; [eauto|].
        rewrite (Inv m acc E L). tauto.
      * rewrite G', K in N. discriminate.
    + intros [[acc L] Cond]. rewrite (Inv m acc E L) in Cond. split.
      * destruct (lock_some _ _ _ L) as [k K]. exists k. now rewrite G, K.
      * rewrite G'.
        replace (set_data_resets s (Impl p) new_data) with true; [done|].
        symmetry. apply (set_data_resets_true s (Impl p) new_data m E). eauto.
Qed.

(** ** The tracer writes nothing but the trace *)

Lemma with_tracer_id s : with_tracer (fun x => x) s = s.
Proof. now destruct s. Qed.

Lemma detach_trace_entry_run self u s :
  exists g, detach_trace_entry self u s = (Ok tt, with_tracer g s).
Proof.
  unfold detach_trace_entry, isTracing, bind, gets.
  destruct (bool_decide (is_Some (tracer s))).
  - destruct u as [w|].
    + now exists (fun x => traced (TraceEnsureUnique w self)
                             (traced (TraceNode "aten::detach" [("self", self)]) x)).
    + now exists (traced (TraceNode "aten::detach" [("self", self)])).
  - exists (fun x => x). now rewrite with_tracer_id.
Qed.

Lemma detach_trace_exit_run result s :
  exists g, detach_trace_exit result s = (Ok tt, with_tracer g s).
Proof.
  unfold detach_trace_exit, isTracing, bind, gets.
  destruct (bool_decide (is_Some (tracer s))).
  - now exists (traced (TraceAddOutput "aten::detach" result)).
  - exists (fun x => x). now rewrite with_tracer_id.
Qed.

(** ** [detach_] *)

Lemma detach__view self s :
  is_view s self = Some true ->
  exists g,
    detach_ self s =
    (Throw {| kind := InvalidOperation;
              what := "Can't detach views in-place. Use detach() instead" |},
     with_tracer g s).
Proof.
  intros V. unfold detach_.
  destruct (detach_trace_entry_run self (Some "detach_") s) as [g G].
  exists g. rewrite (bind_ok _ _ _ _ _ G).
  now rewrite (bind_deref (fun s => is_view s self) _ _ true).
Qed.

Lemma detach__plain p m s :
  get_autograd_meta s (Impl p) = Some m -> view_ m = None ->
  exists g,
    detach_ (Impl p) s =
    (Ok (Impl p),
     with_tracer g
       (with_impls
          (alter (set_meta (set_output_nr 0)) p
           ∘ alter (set_meta reset_grad_fn) p
           ∘ alter (set_meta (set_requires_grad false)) p) s)).
Proof.
  intros E V. unfold detach_.
  destruct (detach_trace_entry_run (Impl p) (Some "detach_") s) as [g G].
  rewrite (bind_ok _ _ _ _ _ G).
  assert (is_view (with_tracer g s) (Impl p) = Some false) as NV.
  { unfold is_view. change (get_autograd_meta (with_tracer g s) (Impl p))
      with (get_autograd_meta s (Impl p)). rewrite E. simpl. now rewrite V. }
  rewrite (bind_deref _ _ _ _ NV). simpl.
  rewrite (bind_ok _ _ _ tt _ eq_refl).
  set (s1 := with_tracer g s).
  assert (get_autograd_meta s1 (Impl p) = Some m) as E1 by exact E.
  rewrite (bind_ok _ _ _ _ _ (update_meta_ok s1 p m _ E1)).
  set (s2 := with_impls _ s1).
  assert (get_autograd_meta s2 (Impl p) = Some (set_requires_grad false m)) as E2.
  { unfold s2. now rewrite get_meta_set_meta, decide_True, E1 by done. }
  rewrite (bind_ok _ _ _ _ _ (update_meta_ok s2 p _ _ E2)).
  set (s3 := with_impls _ s2).
  assert (get_autograd_meta s3 (Impl p) =
          Some (reset_grad_fn (set_requires_grad false m))) as E3.
  { unfold s3. now rewrite get_meta_set_meta, decide_True, E2 by done. }
  rewrite (bind_ok _ _ _ _ _ (update_meta_ok s3 p _ _ E3)).
  set (s4 := with_impls _ s3).
  destruct (detach_trace_exit_run (Impl p) s4) as [g' G'].
  rewrite (bind_ok _ _ _ _ _ G').
  exists (fun x => g' (g x)). reflexivity.
Qed.

(** C7. [detach_] on a view throws an [InvalidOperation] and leaves
    every object, its autograd metadata included, as it was (only the
    trace, when one is recorded, has grown). On a Variable that is not a
    view it returns [self] with [requires_grad] false, [grad_fn] null
    and [output_nr] 0, written in the metadata of [self] itself: the
    other fields of [self] and every other object are unchanged. *)
Theorem detach__contract (s : Store) (self : Tensor) :
  (is_view s self = Some true ->
   exists msg s',
     detach_ self s = (Throw {| kind := InvalidOperation; what := msg |}, s') /\
     impls s' = impls s /\ versions s' = versions s /\
     accumulators s' = accumulators s /\ heap s' = heap s /\
     get_autograd_meta s' self = get_autograd_meta s self) /\
  (forall m,
     get_autograd_meta s self = Some m -> view_ m = None ->
     exists s',
       detach_ self s = (Ok self, s') /\
       get_autograd_meta s' self =
         Some {| grad_fn_ := None; grad_accumulator_ := grad_accumulator_ m;
                 requires_grad_ := false; view_ := None; output_nr_ := 0 |} /\
       requires_grad s' self = Some false /\
       grad_fn s' self = Some None /\
       tensor_data s' self = tensor_data s self /\
       current_version s' self = current_version s self /\
       (forall t, t <> self -> impl_of s' t = impl_of s t)).
Proof.
  split.
  - intros V. destruct (detach__view self s V) as [g G].
    eexists; eexists. split; [exact G|]. now repeat split.
  - intros m E V. destruct self as [|p]; [discriminate|].
    destruct (detach__plain p m s E V) as [g G].
    eexists. split; [exact G|].
    set (s' := with_tracer _ _).
    assert (get_autograd_meta s' (Impl p) =
            Some {| grad_fn_ := None; grad_accumulator_ := grad_accumulator_ m;
                    requires_grad_ := false; view_ := None; output_nr_ := 0 |})
      as E'.
    { unfold get_autograd_meta in *. simpl in *.
      rewrite !lookup_alter_eq.
      destruct (impls s !! p) as [i|]; [|discriminate]. simpl in *.
      rewrite E. simpl. unfold set_output_nr, reset_grad_fn, set_requires_grad.
      simpl. now rewrite V. }
    split; [exact E'|]. split; [|split; [|split; [|split]]].
    + unfold requires_grad. now rewrite E'.
    + unfold grad_fn. now rewrite E'.
    + unfold tensor_data. simpl. rewrite !lookup_alter_eq.
      now destruct (impls s !! p).
    + unfold current_version. simpl. rewrite !lookup_alter_eq.
      now destruct (impls s !! p).
    + intros [|q] NE; [done|]. simpl.
      rewrite !lookup_alter_ne by congruence. done.
Qed.

(** ** [detach] *)

Lemma fresh_impl_unused s : impls s !! fresh (dom (impls s)) = None.
Proof. apply not_elem_of_dom, is_fresh. Qed.

Lemma detach_run s v i :
  impl_of s v = Some i ->
  exists g,
    detach v s =
    (Ok (Impl (fresh (dom (impls s)))),
     with_tracer g
       (with_impls <[fresh (dom (impls s)) := detached_view v i]> s)).
Proof.
  intros I. unfold detach.
  destruct (detach_trace_entry_run v None s) as [g G].
  rewrite (bind_ok _ _ _ _ _ G).
  assert (defined v = true) as D by (destruct v; [discriminate | done]).
  unfold make_variable_view. rewrite D. simpl negb. cbv iota.
  assert (impl_of (with_tracer g s) v = Some i) as I' by exact I.
  assert (tensor_data (with_tracer g s) v = Some (data_ i)) as T
    by (unfold tensor_data; now rewrite I').
  rewrite (bind_ok _ _ (with_tracer g s) (Impl (fresh (dom (impls s))))
             (with_impls <[fresh (dom (impls s)) := detached_view v i]>
                (with_tracer g s))).
  - destruct (detach_trace_exit_run (Impl (fresh (dom (impls s))))
                (with_impls <[fresh (dom (impls s)) := detached_view v i]>
                   (with_tracer g s))) as [g' G'].
    rewrite (bind_ok _ _ _ _ _ G').
    now exists (fun x => g' (g x)).
  - rewrite (bind_deref _ _ _ _ T), (bind_deref _ _ _ _ I').
    reflexivity.
Qed.

(** C8. [detach] leaves every object that existed before the call as it
    was, so the version counter, [grad_fn] and [requires_grad] of [v]
    are unchanged. It returns a new Variable that shares the storage and
    the version counter of [v], is recorded as a view of [v], has a null
    [grad_fn], does not require gradients, and is marked
    non-differentiable with metadata changes disallowed. *)
Theorem detach_contract (s : Store) (v : Tensor) (i : TensorImpl)
    (m : AutogradMeta) :
  impl_of s v = Some i -> autograd_meta_ i = Some m ->
  exists r s',
    detach v s = (Ok (Impl r), s') /\
    impls s !! r = None /\
    (forall t, t <> Impl r -> impl_of s' t = impl_of s t) /\
    impl_of s' v = Some i /\
    versions s' = versions s /\ heap s' = heap s /\
    accumulators s' = accumulators s /\
    current_version s' v = current_version s v /\
    grad_fn s' v = grad_fn s v /\
    requires_grad s' v = requires_grad s v /\
    impl_of s' (Impl r) = Some (detached_view v i) /\
    (storage_ <$> tensor_data s' (Impl r)) = (storage_ <$> tensor_data s v) /\
    current_version s' (Impl r) = current_version s' v /\
    is_view s' (Impl r) = Some true /\
    grad_fn s' (Impl r) = Some None /\
    requires_grad s' (Impl r) = Some false.
Proof.
  intros I A. destruct (detach_run s v i I) as [g G].
  exists (fresh (dom (impls s))). eexists. split; [exact G|].
  set (r := fresh (dom (impls s))). set (s' := with_tracer _ _).
  assert (impls s !! r = None) as F by apply fresh_impl_unused.
  assert (forall t, t <> Impl r -> impl_of s' t = impl_of s t) as O.
  { intros [|q] NE; [done|]. simpl. apply lookup_insert_ne. congruence. }
  assert (v <> Impl r) as NE.
  { intros ->. simpl in I. congruence. }
  assert (impl_of s' (Impl r) = Some (detached_view v i)) as R
    by (simpl; apply lookup_insert_eq).
  assert (impl_of s' v = impl_of s v) as Iv by (apply O, NE).
  split; [exact F|]. split; [exact O|]. split; [congruence|].
  repeat (split; [reflexivity|]).
  split; [unfold current_version; now rewrite Iv|].
  split; [unfold grad_fn, get_autograd_meta; now rewrite Iv|].
  split; [unfold requires_grad, get_autograd_meta; now rewrite Iv|].
  split; [exact R|].
  split; [unfold tensor_data; now rewrite R, I|].
  split; [unfold current_version; now rewrite R, Iv, I|].
  unfold is_view, grad_fn, requires_grad, get_autograd_meta. rewrite R.
  now repeat split.
Qed.

(** ** [resize_] and [resize_as_] *)

Lemma resize_trace_run self s :
  exists g, resize_trace self s = (Ok tt, with_tracer g s).
Proof.
  unfold resize_trace, isTracing, bind, gets.
  destruct (bool_decide (is_Some (tracer s))).
  - now exists (fun x => traced (TraceDelValueTrace self)
                  (traced (TraceWarn "resize_")
                     (traced (TracePopIntArrayRef "size") x))).
  - exists (fun x => x). now rewrite with_tracer_id.
Qed.

Lemma resize_as_trace_run self s :
  exists g, resize_as_trace self s = (Ok tt, with_tracer g s).
Proof.
  unfold resize_as_trace, isTracing, bind, gets.
  destruct (bool_decide (is_Some (tracer s))).
  - now exists (fun x => traced (TraceDelValueTrace self)
                  (traced (TraceWarn "resize_as_") x)).
  - exists (fun x => x). now rewrite with_tracer_id.
Qed.

(** A handle that is not a Variable is rejected by [unpack] before
    anything is written, and not with an [InvalidOperation]. *)
Lemma unpack_rejects s t name pos :
  is_variable s t <> Some true ->
  exists e,
    unpack t name pos s = (Throw e, s) /\ kind e <> InvalidOperation.
Proof.
  intros NV. unfold unpack.
  destruct (is_variable s t) as [[|]|] eqn:V; [done| |].
  - destruct (plain_has_type _ _ V) as [ty T].
    rewrite (checked_cast_variable_plain _ name pos _ ty V T).
    eexists; split; [reflexivity | done].
  - destruct t as [|q]; [eexists; split; [reflexivity | done]|].
    unfold checked_cast_variable.
    change (negb (defined (Impl q))) with false. cbv iota.
    unfold bind, deref.
    rewrite V. eexists; split; [reflexivity | done].
Qed.

Lemma meta_impl s p m :
  get_autograd_meta s (Impl p) = Some m ->
  exists i, impls s !! p = Some i /\ autograd_meta_ i = Some m.
Proof.
  unfold get_autograd_meta. simpl.
  destruct (impls s !! p) as [i|]; [eauto | discriminate].
Qed.

Lemma meta_is_variable s t m :
  get_autograd_meta s t = Some m -> is_variable s t = Some true.
Proof. intros E. apply is_variable_meta. eauto. Qed.

Lemma raw_resize__run s p i size :
  impls s !! p = Some i ->
  raw_resize_ (Impl p) size s =
  match at_resize_ (heap s) (data_ i) size with
  | inl msg => (Throw {| kind := KernelError; what := msg |}, s)
  | inr (h, sz) =>
    (Ok tt, with_impls (alter (set_data_fields (set_shape sz)) p)
              (with_heap h s))
  end.
Proof.
  intros I. unfold raw_resize_.
  rewrite (bind_deref (fun s => tensor_data s (Impl p)) _ s (data_ i))
    by (unfold tensor_data; simpl; now rewrite I).
  destruct (at_resize_ (heap s) (data_ i) size) as [msg|[h sz]]; reflexivity.
Qed.

Lemma raw_resize_as__run s p i t j :
  impls s !! p = Some i -> impl_of s t = Some j ->
  raw_resize_as_ (Impl p) t s =
  match at_resize_as_ (heap s) (data_ i) (data_ j) with
  | inl msg => (Throw {| kind := KernelError; what := msg |}, s)
  | inr (h, sz) =>
    (Ok tt, with_impls (alter (set_data_fields (set_shape sz)) p)
              (with_heap h s))
  end.
Proof.
  intros I J. unfold raw_resize_as_.
  rewrite (bind_deref (fun s => tensor_data s (Impl p)) _ s (data_ i))
    by (unfold tensor_data; simpl; now rewrite I).
  rewrite (bind_deref (fun s => tensor_data s t) _ s (data_ j))
    by (unfold tensor_data; now rewrite J).
  destruct (at_resize_as_ (heap s) (data_ i) (data_ j)) as [msg|[h sz]];
    reflexivity.
Qed.

(** The outcome of [resize_] on a Variable. *)
Lemma resize__run s p i m size :
  impls s !! p = Some i -> autograd_meta_ i = Some m ->
  exists g,
    resize_ (Impl p) size s =
    if requires_grad_ m || bool_decide (is_Some (grad_fn_ m)) then
      (Throw {| kind := InvalidOperation;
                what := "cannot resize variables that require grad" |}, s)
    else
      match at_resize_ (heap s) (data_ i) size with
      | inl msg => (Throw {| kind := KernelError; what := msg |},
                    with_tracer g s)
      | inr (h, sz) =>
        (Ok (Impl p),
         with_impls (alter (set_data_fields (set_shape sz)) p)
           (with_heap h (with_tracer g s)))
      end.
Proof.
  intros I A.
  assert (get_autograd_meta s (Impl p) = Some m) as E
    by (unfold get_autograd_meta; simpl; now rewrite I).
  destruct (resize_trace_run (Impl p) s) as [g G]. exists g.
  unfold resize_, unpack.
  rewrite (bind_ok _ _ _ _ _
             (checked_cast_variable_ok _ _ _ _ (meta_is_variable _ _ _ E))).
  rewrite (bind_deref (fun s => requires_grad s (Impl p)) _ s
             (requires_grad_ m || bool_decide (is_Some (grad_fn_ m))))
    by (unfold requires_grad; now rewrite E).
  destruct (requires_grad_ m || bool_decide (is_Some (grad_fn_ m))).
  - reflexivity.
  - rewrite (bind_ok _ _ s tt s eq_refl), (bind_ok _ _ _ _ _ G).
    unfold bind. rewrite (raw_resize__run (with_tracer g s) p i size I).
    simpl heap.
    destruct (at_resize_ (heap s) (data_ i) size) as [msg|[h sz]]; reflexivity.
Qed.

(** The outcome of [resize_as_] on two Variables. *)
Lemma resize_as__run s p i m t j :
  impls s !! p = Some i -> autograd_meta_ i = Some m ->
  impl_of s t = Some j -> is_variable s t = Some true ->
  exists g,
    resize_as_ (Impl p) t s =
    if requires_grad_ m || bool_decide (is_Some (grad_fn_ m)) then
      (Throw {| kind := InvalidOperation;
                what := "cannot resize variables that require grad" |}, s)
    else
      match at_resize_as_ (heap s) (data_ i) (data_ j) with
      | inl msg => (Throw {| kind := KernelError; what := msg |},
                    with_tracer g s)
      | inr (h, sz) =>
        (Ok (Impl p),
         with_impls (alter (set_data_fields (set_shape sz)) p)
           (with_heap h (with_tracer g s)))
      end.
Proof.
  intros I A J V.
  assert (get_autograd_meta s (Impl p) = Some m) as E
    by (unfold get_autograd_meta; simpl; now rewrite I).
  destruct (resize_as_trace_run (Impl p) s) as [g G]. exists g.
  unfold resize_as_, unpack.
  rewrite (bind_ok _ _ _ _ _
             (checked_cast_variable_ok _ _ _ _ (meta_is_variable _ _ _ E))).
  rewrite (bind_ok _ _ _ _ _ (checked_cast_variable_ok _ _ _ _ V)).
  rewrite (bind_deref (fun s => requires_grad s (Impl p)) _ s
             (requires_grad_ m || bool_decide (is_Some (grad_fn_ m))))
    by (unfold requires_grad; now rewrite E).
  destruct (requires_grad_ m || bool_decide (is_Some (grad_fn_ m))).
  - reflexivity.
  - rewrite (bind_ok _ _ s tt s eq_refl), (bind_ok _ _ _ _ _ G).
    unfold bind.
    rewrite (raw_resize_as__run (with_tracer g s) p i t j I J).
    simpl heap.
    destruct (at_resize_as_ (heap s) (data_ i) (data_ j)) as [msg|[h sz]];
      reflexivity.
Qed.

Lemma grad_fn_set_data_fields s f p t :
  grad_fn (with_impls (alter (set_data_fields f) p) s) t = grad_fn s t.
Proof. unfold grad_fn. now rewrite get_meta_set_data_fields. Qed.

(** The three outcomes of a resize, read off the shape of its result. *)
Lemma resize_outcomes {A} (s : Store) (t : Tensor) (m : AutogradMeta)
    (g : option TracingState -> option TracingState) (p : addr) (a : A)
    (k : string + gmap nat Storage * (list Z * list Z))
    (o : Outcome A) (s' : Store) :
  get_autograd_meta s t = Some m ->
  (if requires_grad_ m || bool_decide (is_Some (grad_fn_ m)) then
     (Throw {| kind := InvalidOperation;
               what := "cannot resize variables that require grad" |}, s)
   else
     match k with
     | inl msg => (Throw {| kind := KernelError; what := msg |},
                   with_tracer g s)
     | inr (h, sz) =>
       (Ok a, with_impls (alter (set_data_fields (set_shape sz)) p)
                (with_heap h (with_tracer g s)))
     end) = (o, s') ->
  (fails_with InvalidOperation o = true <-> requires_grad s t = Some true) /\
  grad_fn s' t = grad_fn s t /\
  (requires_grad s t = Some true -> s' = s /\ succeeds o = false).
Proof.
  intros E R. unfold requires_grad. rewrite E. simpl.
  destruct (requires_grad_ m || bool_decide (is_Some (grad_fn_ m))).
  - injection R as <- <-. simpl. repeat split; done.
  - destruct k as [msg|[h sz]]; injection R as <- <-; simpl.
    + repeat split; try done; try (intros [= ?]; done).
    + rewrite grad_fn_set_data_fields.
      repeat split; try done; try (intros [= ?]; done).
Qed.

(** C6. On a Variable [self], [resize_] fails with [InvalidOperation]
    exactly when [self] requires gradients, and so does [resize_as_]
    when the template is a Variable too; an [InvalidOperation] from
    [resize_as_] always means that [self] requires gradients. A template
    that is undefined or not a Variable is rejected first, by [unpack],
    with the unwrap error for argument 1, whether or not [self] requires
    gradients. Neither operation changes the [grad_fn] of [self],
    whatever the outcome, and when [self] requires gradients the call
    fails with the store untouched: the check comes before the kernel. *)
Theorem resize_contract (s : Store) (self : Tensor) (m : AutogradMeta) :
  get_autograd_meta s self = Some m ->
  (forall size o s',
     resize_ self size s = (o, s') ->
     (fails_with InvalidOperation o = true <->
      requires_grad s self = Some true) /\
     grad_fn s' self = grad_fn s self /\
     (requires_grad s self = Some true -> s' = s /\ succeeds o = false)) /\
  (forall tmpl o s',
     resize_as_ self tmpl s = (o, s') ->
     (is_variable s tmpl = Some true ->
      (fails_with InvalidOperation o = true <->
       requires_grad s self = Some true)) /\
     (fails_with InvalidOperation o = true ->
      requires_grad s self = Some true) /\
     grad_fn s' self = grad_fn s self /\
     (requires_grad s self = Some true -> s' = s /\ succeeds o = false)) /\
  (requires_grad s self = Some true ->
   (forall size,
      resize_ self size s =
      (Throw {| kind := InvalidOperation;
                what := "cannot resize variables that require grad" |}, s)) /\
   (forall tmpl, is_variable s tmpl = Some true ->
      resize_as_ self tmpl s =
      (Throw {| kind := InvalidOperation;
                what := "cannot resize variables that require grad" |}, s))) /\
  (resize_as_ self Undefined s =
   (Throw {| kind := UndefinedTensorError;
             what := str ["Expected a Tensor of type Variable but found an undefined Tensor for argument #";
                          show_int 1; " '"; "the_template"; "'"] |}, s)) /\
  (forall tmpl ty,
     is_variable s tmpl = Some false -> type s tmpl = Some ty ->
     resize_as_ self tmpl s =
     (Throw {| kind := NotAVariableError;
               what := str ["Expected object of type Variable but found type ";
                            toString ty; " for argument #"; show_int 1;
                            " '"; "the_template"; "'"] |}, s)) /\
  (forall tmpl,
     is_variable s tmpl <> Some true ->
     resize_as_ self tmpl s = ((unpack tmpl "the_template" 1 s).1, s) /\
     succeeds (resize_as_ self tmpl s).1 = false /\
     fails_with InvalidOperation (resize_as_ self tmpl s).1 = false).
Proof.
  intros E. destruct self as [|p]; [discriminate|].
  destruct (meta_impl _ _ _ E) as (i & I & A).
  pose proof (checked_cast_variable_ok _ "self" 0 _
                (meta_is_variable _ _ _ E)) as Us.
  assert (forall tmpl e,
            unpack tmpl "the_template" 1 s = (Throw e, s) ->
            resize_as_ (Impl p) tmpl s = (Throw e, s)) as Rej.
  { intros tmpl e U. unfold resize_as_.
    rewrite (bind_ok _ _ _ _ _ Us). now rewrite (bind_throw _ _ _ _ _ U). }
  split; [|split; [|split; [|split; [|split]]]].
  - intros size o s' R.
    destruct (resize__run s p i m size I A) as [g G]. rewrite G in R.
    exact (resize_outcomes s (Impl p) m g p (Impl p) _ o s' E R).
  - intros tmpl o s' R.
    destruct (decide (is_variable s tmpl = Some true)) as [V|NV].
    + destruct (proj1 (is_variable_true s tmpl) V) as (j & mj & J & _).
      destruct (resize_as__run s p i m tmpl j I A J V) as [g G].
      rewrite G in R.
      destruct (resize_outcomes s (Impl p) m g p (Impl p) _ o s' E R)
        as (F & Gf & Q).
      repeat split; try tauto; apply Q; assumption.
    + destruct (unpack_rejects s tmpl "the_template" 1 NV) as (e & U & K).
      rewrite (Rej tmpl e U) in R. injection R as <- <-.
      assert (fails_with (A:=Tensor) InvalidOperation (Throw e) = false) as Fl
        by (simpl; now apply bool_decide_eq_false).
      rewrite Fl. repeat split; try done.
  - intros Rg.
    assert (requires_grad_ m || bool_decide (is_Some (grad_fn_ m)) = true)
      as Rg'.
    { unfold requires_grad in Rg. rewrite E in Rg. simpl in Rg. congruence. }
    split.
    + intros size. destruct (resize__run s p i m size I A) as [g ->].
      now rewrite Rg'.
    + intros tmpl V.
      destruct (proj1 (is_variable_true s tmpl) V) as (j & mj & J & _).
      destruct (resize_as__run s p i m tmpl j I A J V) as [g ->].
      now rewrite Rg'.
  - apply Rej. apply checked_cast_variable_undefined.
  - intros tmpl ty V T. apply Rej.
    now apply checked_cast_variable_plain.
  - intros tmpl NV.
    destruct (unpack_rejects s tmpl "the_template" 1 NV) as (e & U & K).
    rewrite (Rej tmpl e U), U. simpl. repeat split.
    now apply bool_decide_eq_false.
Qed.

(** ** [copy_] *)

Lemma copy_trace_entry_run self src s :
  exists out g, copy_trace_entry self src s = (Ok out, with_tracer g s).
Proof.
  unfold copy_trace_entry, isTracing, bind, gets, deref. cbv beta.
  destruct (tracer s) as [ts|] eqn:T.
  - rewrite bool_decide_eq_true_2 by eauto. simpl. rewrite T. simpl.
    destruct (force_outplace ts).
    + exists (Some "aten::expand_as"),
        (fun x => traced (TraceEnsureUnique
                            "copy_ (possibly due to an assignment)" self)
                    (traced (TraceNode "aten::expand_as"
                               [("src", src); ("self", self)]) x)).
      reflexivity.
    + exists (Some "aten::copy_"),
        (traced (TraceInsert "aten::copy_" [self; src])).
      reflexivity.
  - rewrite bool_decide_eq_false_2 by (intros [? ?]; discriminate).
    exists None, (fun x => x). now rewrite with_tracer_id.
Qed.

Lemma gradient_edge_variable s p m :
  get_autograd_meta s (Impl p) = Some m ->
  is_Some (gradient_edge s (Impl p)).
Proof. intros E. unfold gradient_edge. rewrite E. simpl. eauto. Qed.

Lemma copy_node_variables s p m t mt :
  get_autograd_meta s (Impl p) = Some m ->
  get_autograd_meta s t = Some mt ->
  is_Some (copy_node s (Impl p) t).
Proof.
  intros E Et. destruct t as [|q]; [discriminate|].
  destruct (meta_impl _ _ _ Et) as (j & J & _).
  unfold copy_node, collect_next_edges, options, device, tensor_data.
  simpl. rewrite E, Et, J. simpl. eauto.
Qed.

Lemma copy_requires_grad_variables s t m src ms i :
  get_autograd_meta s t = Some m ->
  get_autograd_meta s src = Some ms ->
  impl_of s t = Some i ->
  copy_requires_grad s t src =
  Some ((requires_grad_ m || bool_decide (is_Some (grad_fn_ m))
         || (requires_grad_ ms || bool_decide (is_Some (grad_fn_ ms))))
        && isFloatingPoint (scalar_type_ (data_ i))).
Proof.
  intros E Es I. unfold copy_requires_grad, requires_grad, scalar_type,
    tensor_data. now rewrite E, Es, I.
Qed.

(** The local [grad_fn] of [copy_] is a pure function of the objects. *)
Lemma copy_grad_fn_run s p m src ms :
  get_autograd_meta s (Impl p) = Some m ->
  get_autograd_meta s src = Some ms ->
  copy_grad_fn (Impl p) src s = (Ok (copy_built s (Impl p) src), s).
Proof.
  intros E Es. destruct (meta_impl _ _ _ E) as (i & I & _).
  destruct (copy_node_variables _ _ _ _ _ E Es) as [n N].
  unfold copy_built.
  rewrite (copy_requires_grad_variables _ _ _ _ _ i E Es)
    by (simpl; exact I).
  unfold copy_grad_fn.
  rewrite (bind_deref (fun s => compute_requires_grad s [Impl p; src]) _ s
             (requires_grad_ m || bool_decide (is_Some (grad_fn_ m))
              || (requires_grad_ ms || bool_decide (is_Some (grad_fn_ ms))
                  || false)))
    by (unfold compute_requires_grad, requires_grad; now rewrite E, Es).
  rewrite (bind_deref (fun s => scalar_type s (Impl p)) _ s
             (scalar_type_ (data_ i)))
    by (unfold scalar_type, tensor_data; simpl; now rewrite I).
  rewrite orb_false_r.
  destruct (_ && isFloatingPoint _); [|reflexivity].
  rewrite N. unfold copy_node in N.
  destruct (collect_next_edges s [Impl p; src]) as [edges|] eqn:C;
    [|discriminate].
  destruct (options s src) as [o|] eqn:O; [|discriminate].
  destruct (device s src) as [d|] eqn:D; [|discriminate].
  simpl in N. injection N as <-.
  rewrite (bind_deref _ _ _ _ C), (bind_deref _ _ _ _ O),
    (bind_deref _ _ _ _ D).
  reflexivity.
Qed.

Lemma raw_copy__run s p i src j nb :
  impls s !! p = Some i -> impl_of s src = Some j ->
  raw_copy_ (Impl p) src nb s =
  match at_copy_ (heap s) (data_ i) (data_ j) nb with
  | inl msg => (Throw {| kind := KernelError; what := msg |}, s)
  | inr h => (Ok tt, with_heap h s)
  end.
Proof.
  intros I J. unfold raw_copy_.
  rewrite (bind_deref (fun s => tensor_data s (Impl p)) _ s (data_ i))
    by (unfold tensor_data; simpl; now rewrite I).
  rewrite (bind_deref (fun s => tensor_data s src) _ s (data_ j))
    by (unfold tensor_data; now rewrite J).
  reflexivity.
Qed.

Lemma increment_version_run s p i :
  impls s !! p = Some i ->
  increment_version (Impl p) s =
  match versions s !! version_counter_ i with
  | Some n => (Ok tt, with_versions <[version_counter_ i := S n]> s)
  | None => (Throw {| kind := UndefinedBehaviour;
                      what := "invalid dereference" |}, s)
  end.
Proof.
  intros I. unfold increment_version.
  rewrite (bind_deref (fun s => impl_of s (Impl p)) _ s i) by exact I.
  unfold bind, deref. now destruct (versions s !! version_counter_ i).
Qed.

Lemma rebase_history_run s p m g :
  get_autograd_meta s (Impl p) = Some m ->
  rebase_history (Impl p) g s = (Ok tt, rebased g p s).
Proof.
  intros E. destruct g as [n|]; [|reflexivity].
  apply (update_meta_ok _ _ _ _ E).
Qed.

(** The outcomes of [copy_] on two Variables, in the order in which the
    call can stop: the safety check, the kernel, the version counter. *)
Lemma copy__run s p i m src j ms nb :
  impls s !! p = Some i -> autograd_meta_ i = Some m ->
  impl_of s src = Some j -> autograd_meta_ j = Some ms ->
  exists g g',
    copy_ (Impl p) src nb s =
    match check_inplace (impls s) (Impl p) with
    | Some msg =>
      (Throw {| kind := ViewSafetyError; what := msg |}, with_tracer g s)
    | None =>
      match at_copy_ (heap s) (data_ i) (data_ j) nb with
      | inl msg =>
        (Throw {| kind := KernelError; what := msg |}, with_tracer g s)
      | inr h =>
        match versions s !! version_counter_ i with
        | None =>
          (Throw {| kind := UndefinedBehaviour;
                    what := "invalid dereference" |},
           with_heap h (with_tracer g s))
        | Some n =>
          (Ok (Impl p),
           with_tracer g'
             (rebased (copy_built s (Impl p) src) p
                (with_versions <[version_counter_ i := S n]>
                   (with_heap h (with_tracer g s)))))
        end
      end
    end.
Proof.
  intros I A J As.
  assert (get_autograd_meta s (Impl p) = Some m) as E
    by (unfold get_autograd_meta; simpl; now rewrite I).
  assert (get_autograd_meta s src = Some ms) as Es
    by (unfold get_autograd_meta; now rewrite J).
  destruct (copy_trace_entry_run (Impl p) src s) as (out & g & T).
  set (s1 := with_tracer g s).
  assert (get_autograd_meta s1 (Impl p) = Some m) as E1 by exact E.
  assert (get_autograd_meta s1 src = Some ms) as Es1 by exact Es.
  assert (exists g',
    forall h n,
      bind isTracing (fun tracing =>
        bind (if tracing then record (TraceSetOutput out (Impl p))
              else ret tt) (fun _ => ret (Impl p)))
        (rebased (copy_built s (Impl p) src) p
           (with_versions <[version_counter_ i := S n]> (with_heap h s1)))
      = (Ok (Impl p),
         with_tracer g'
           (rebased (copy_built s (Impl p) src) p
              (with_versions <[version_counter_ i := S n]> (with_heap h s1)))))
    as [g' X].
  { unfold isTracing, bind, gets.
    assert (forall h n,
      tracer (rebased (copy_built s (Impl p) src) p
                (with_versions <[version_counter_ i := S n]> (with_heap h s1)))
      = tracer s1) as Tr.
    { intros h n. unfold rebased. now destruct (copy_built s (Impl p) src). }
    destruct (bool_decide (is_Some (tracer s1))) eqn:B.
    - exists (traced (TraceSetOutput out (Impl p))). intros h n.
      now rewrite Tr, B.
    - exists (fun x => x). intros h n. rewrite Tr, B.
      now rewrite with_tracer_id. }
  exists g, g'.
  unfold copy_, unpack. rewrite (bind_ok _ _ _ _ _ T). fold s1.
  rewrite (bind_ok _ _ _ _ _
             (checked_cast_variable_ok _ "self" 0 _
                (meta_is_variable _ _ _ E1))).
  rewrite (bind_ok _ _ _ _ _
             (checked_cast_variable_ok _ "src" 1 _
                (meta_is_variable _ _ _ Es1))).
  unfold bind at 1. unfold check_inplace_guard.
  change (impls s1) with (impls s).
  destruct (check_inplace (impls s) (Impl p)) as [msg|]; [reflexivity|].
  rewrite (bind_ok _ _ _ _ _ (copy_grad_fn_run s1 p m src ms E1 Es1)).
  change (copy_built s1 (Impl p) src) with (copy_built s (Impl p) src).
  unfold bind at 1.
  rewrite (raw_copy__run s1 p i src j nb I J).
  change (heap s1) with (heap s).
  destruct (at_copy_ (heap s) (data_ i) (data_ j) nb) as [msg|h];
    [reflexivity|].
  unfold bind at 1.
  rewrite (increment_version_run (with_heap h s1) p i I).
  change (versions (with_heap h s1)) with (versions s).
  destruct (versions s !! version_counter_ i) as [n|]; [|reflexivity].
  rewrite (bind_ok _ _ _ _ _
             (rebase_history_run
                (with_versions <[version_counter_ i := S n]> (with_heap h s1))
                p m _ E1)).
  exact (X h n).
Qed.

(** A call of [copy_] on a handle that is not a Variable stops in
    [unpack], with nothing written but the trace. *)
Lemma copy__invalid s self src nb :
  is_variable s self <> Some true \/ is_variable s src <> Some true ->
  exists e g, copy_ self src nb s = (Throw e, with_tracer g s).
Proof.
  intros NV.
  destruct (copy_trace_entry_run self src s) as (out & g & T).
  unfold copy_. rewrite (bind_ok _ _ _ _ _ T).
  destruct (decide (is_variable s self = Some true)) as [V|NVs].
  - destruct NV as [NV|NV]; [done|].
    rewrite (bind_ok _ _ _ _ _
               (checked_cast_variable_ok self "self" 0 (with_tracer g s) V)).
    destruct (unpack_rejects (with_tracer g s) src "src" 1 NV) as (e & U & _).
    rewrite (bind_throw _ _ _ _ _ U). eauto.
  - destruct (unpack_rejects (with_tracer g s) self "self" 0 NVs)
      as (e & U & _).
    rewrite (bind_throw _ _ _ _ _ U). eauto.
Qed.

Lemma variable_impl s t :
  is_variable s t = Some true ->
  exists p i m, t = Impl p /\ impls s !! p = Some i /\ autograd_meta_ i = Some m.
Proof.
  intros (i & m & I & A)%is_variable_true.
  destruct t as [|p]; [discriminate|]. eauto 6.
Qed.

Lemma grad_fn_rebased s b p m :
  get_autograd_meta s (Impl p) = Some m ->
  grad_fn (rebased b p s) (Impl p) =
  Some (match b with Some n => Some n | None => grad_fn_ m end).
Proof.
  intros E. unfold grad_fn, rebased. destruct b as [n|].
  - now rewrite get_meta_set_meta, decide_True, E by done.
  - now rewrite E.
Qed.

Lemma current_version_rebased s b p t :
  current_version (rebased b p s) t = current_version s t.
Proof.
  unfold rebased. destruct b; [|done]. now apply current_version_alter.
Qed.

(** A call of [copy_] is its checks, then the construction of the
    gradient function, then the application. *)
Lemma copy__phases s self src nb :
  copy_ self src nb s =
  bind (copy_checks self src) (fun '(output, self_, src_) =>
    bind (copy_grad_fn self src) (fun grad_fn =>
      copy_apply self self_ src_ nb grad_fn output)) s.
Proof.
  unfold copy_, copy_checks, copy_apply, bind.
  destruct (copy_trace_entry self src s) as [[out|e] s1]; [|reflexivity].
  destruct (unpack self "self" 0 s1) as [[self_|e] s2]; [|reflexivity].
  destruct (unpack src "src" 1 s2) as [[src_|e] s3]; [|reflexivity].
  destruct (check_inplace_guard self s3) as [[[]|e] s4]; reflexivity.
Qed.

Lemma copy_checks_run s p m src ms :
  get_autograd_meta s (Impl p) = Some m ->
  get_autograd_meta s src = Some ms ->
  exists out g,
    copy_checks (Impl p) src s =
    match check_inplace (impls s) (Impl p) with
    | Some msg =>
      (Throw {| kind := ViewSafetyError; what := msg |}, with_tracer g s)
    | None => (Ok (out, Impl p, src), with_tracer g s)
    end.
Proof.
  intros E Es.
  destruct (copy_trace_entry_run (Impl p) src s) as (out & g & T).
  exists out, g. set (s1 := with_tracer g s) in *.
  assert (get_autograd_meta s1 (Impl p) = Some m) as E1 by exact E.
  assert (get_autograd_meta s1 src = Some ms) as Es1 by exact Es.
  unfold copy_checks, unpack.
  rewrite (bind_ok _ _ _ _ _ T).
  rewrite (bind_ok _ _ _ _ _
             (checked_cast_variable_ok _ "self" 0 _
                (meta_is_variable _ _ _ E1))).
  rewrite (bind_ok _ _ _ _ _
             (checked_cast_variable_ok _ "src" 1 _
                (meta_is_variable _ _ _ Es1))).
  unfold bind, check_inplace_guard.
  change (impls s1) with (impls s).
  now destruct (check_inplace (impls s) (Impl p)).
Qed.

(** What a call on two Variables builds: nothing when the in-place
    safety check rejects it, and otherwise the node of [copy_built]. *)
Lemma copy_builds_variables s p m src ms :
  get_autograd_meta s (Impl p) = Some m ->
  get_autograd_meta s src = Some ms ->
  copy_builds s (Impl p) src =
  match check_inplace (impls s) (Impl p) with
  | Some _ => None
  | None => copy_built s (Impl p) src
  end.
Proof.
  intros E Es. unfold copy_builds.
  destruct (copy_checks_run s p m src ms E Es) as (out & g & ->).
  destruct (check_inplace (impls s) (Impl p)); [reflexivity|].
  assert (get_autograd_meta (with_tracer g s) (Impl p) = Some m) as E1
    by exact E.
  assert (get_autograd_meta (with_tracer g s) src = Some ms) as Es1
    by exact Es.
  rewrite (copy_grad_fn_run (with_tracer g s) p m src ms E1 Es1).
  reflexivity.
Qed.

(** C1. On a call of [copy_] whose arguments are Variables: if the
    in-place safety check rejects the call, the call fails with that
    check's error, builds no gradient function and writes no tensor. If
    the check passes, the gradient function the call builds is non-null
    exactly when [self] or [src] requires gradients and the element type
    of [self] is floating-point, and it is then a [CopyBackwards] node
    with the edges of [self] and [src] and the options and device of
    [src]; when the kernel then throws, the call fails with the kernel's
    error and no tensor is written; when the kernel returns, the call
    succeeds and the metadata of [self] has the node as [grad_fn], with
    output slot 0, if one was built and is unchanged if none was. When
    no node is built, and when the call fails, the [grad_fn] of [self]
    after the call is the one before it. *)
Theorem copy__gradient_node (s : Store) (self src : Tensor) (nb : bool)
    (i j : TensorImpl) (m ms : AutogradMeta) :
  impl_of s self = Some i -> autograd_meta_ i = Some m ->
  impl_of s src = Some j -> autograd_meta_ j = Some ms ->
  copy_ self src nb s =
    bind (copy_checks self src) (fun '(output, self_, src_) =>
      bind (copy_grad_fn self src) (fun grad_fn =>
        copy_apply self self_ src_ nb grad_fn output)) s /\
  (forall msg,
     check_inplace (impls s) self = Some msg ->
     copy_builds s self src = None /\
     exists s',
       copy_ self src nb s =
         (Throw {| kind := ViewSafetyError; what := msg |}, s') /\
       impls s' = impls s) /\
  (check_inplace (impls s) self = None ->
   (is_Some (copy_builds s self src) <->
    copy_requires_grad s self src = Some true) /\
   (forall n, copy_builds s self src = Some n ->
      exists edges opts dev,
        collect_next_edges s [self; src] = Some edges /\
        options s src = Some opts /\ device s src = Some dev /\
        n = CopyBackwards edges opts dev) /\
   (forall msg,
      at_copy_ (heap s) (data_ i) (data_ j) nb = inl msg ->
      exists s',
        copy_ self src nb s =
          (Throw {| kind := KernelError; what := msg |}, s') /\
        impls s' = impls s) /\
   (forall h n,
      at_copy_ (heap s) (data_ i) (data_ j) nb = inr h ->
      versions s !! version_counter_ i = Some n ->
      exists s',
        copy_ self src nb s = (Ok self, s') /\
        get_autograd_meta s' self =
          Some (match copy_builds s self src with
                | Some node => set_gradient_edge node 0 m
                | None => m
                end))) /\
  (copy_builds s self src = None ->
   grad_fn (copy_ self src nb s).2 self = grad_fn s self) /\
  (succeeds (copy_ self src nb s).1 = false ->
   grad_fn (copy_ self src nb s).2 self = grad_fn s self).
Proof.
  intros I A J As. destruct self as [|p]; [discriminate|]. simpl in I.
  assert (get_autograd_meta s (Impl p) = Some m) as E
    by (unfold get_autograd_meta; simpl; now rewrite I).
  assert (get_autograd_meta s src = Some ms) as Es
    by (unfold get_autograd_meta; now rewrite J).
  pose proof (copy_builds_variables s p m src ms E Es) as B.
  destruct (copy__run s p i m src j ms nb I A J As) as (g & g' & R).
  assert (grad_fn s (Impl p) = Some (grad_fn_ m)) as G
    by (unfold grad_fn; now rewrite E).
  split; [apply copy__phases|].
  split; [|split; [|split]].
  - intros msg C. rewrite C in B, R. split; [exact B|].
    eexists. split; [exact R | reflexivity].
  - intros C. rewrite C in B, R. rewrite B.
    split; [|split; [|split]].
    + unfold copy_built.
      destruct (copy_requires_grad s (Impl p) src) as [[|]|]; split;
        try done; try (intros [? ?]; discriminate).
      intros _. apply (copy_node_variables _ _ _ _ _ E Es).
    + intros n. unfold copy_built.
      destruct (copy_requires_grad s (Impl p) src) as [[|]|];
        try discriminate.
      unfold copy_node.
      destruct (collect_next_edges s [Impl p; src]) as [edges|];
        [|discriminate].
      destruct (options s src) as [opts|]; [|discriminate].
      destruct (device s src) as [dev|]; [|discriminate].
      simpl. intros [= <-]. eauto 8.
    + intros msg K. rewrite K in R. eexists. split; [exact R | reflexivity].
    + intros h n K Vc. rewrite K, Vc in R. eexists. split; [exact R|].
      change (get_autograd_meta (with_tracer g' ?S) (Impl p))
        with (get_autograd_meta S (Impl p)).
      unfold rebased. destruct (copy_built s (Impl p) src) as [node|].
      * rewrite get_meta_set_meta, decide_True by done.
        change (get_autograd_meta (with_versions ?f ?S) (Impl p))
          with (get_autograd_meta s (Impl p)).
        now rewrite E.
      * exact E.
  - intros N. rewrite B in N. rewrite R.
    destruct (check_inplace (impls s) (Impl p)) as [msg|]; [reflexivity|].
    rewrite N.
    destruct (at_copy_ (heap s) (data_ i) (data_ j) nb) as [msg|h];
      [reflexivity|].
    destruct (versions s !! version_counter_ i) as [n|]; reflexivity.
  - rewrite R.
    destruct (check_inplace (impls s) (Impl p)) as [msg|]; [now intros _|].
    destruct (at_copy_ (heap s) (data_ i) (data_ j) nb) as [msg|h];
      [now intros _|].
    destruct (versions s !! version_counter_ i) as [n|];
      [discriminate | now intros _].
Qed.

(** C2. A successful call of [copy_] leaves the version counter of
    [self] exactly one above its value before the call, whether or not
    a gradient node was built, and the kernel has by then written the
    storage. A call that fails, and in particular one whose kernel
    throws, leaves every version counter as it was. *)
Theorem copy__version (s : Store) (self src : Tensor) (nb : bool)
    (o : Outcome Tensor) (s' : Store) :
  copy_ self src nb s = (o, s') ->
  (succeeds o = true ->
   exists n i j,
     current_version s self = Some n /\
     current_version s' self = Some (S n) /\
     impl_of s self = Some i /\ impl_of s src = Some j /\
     at_copy_ (heap s) (data_ i) (data_ j) nb = inr (heap s')) /\
  (succeeds o = false ->
   versions s' = versions s /\
   forall t, current_version s' t = current_version s t) /\
  (forall i j msg,
     impl_of s self = Some i -> impl_of s src = Some j ->
     at_copy_ (heap s) (data_ i) (data_ j) nb = inl msg ->
     succeeds o = false /\ heap s' = heap s).
Proof.
  intros R.
  destruct (decide (is_variable s self = Some true)) as [V|NV];
    [destruct (decide (is_variable s src = Some true)) as [Vs|NVs]|].
  - destruct (variable_impl _ _ V) as (p & i & m & -> & I & A).
    destruct (proj1 (is_variable_true _ _) Vs) as (j & ms & J & As).
    destruct (copy__run s p i m src j ms nb I A J As) as (g & g' & R').
    rewrite R' in R. clear R'.
    destruct (check_inplace (impls s) (Impl p)) as [msg|].
    { injection R as <- <-. repeat split; try done. }
    destruct (at_copy_ (heap s) (data_ i) (data_ j) nb) as [msg|h] eqn:K.
    { injection R as <- <-. repeat split; try done. }
    assert (forall i' j' msg' (P : Prop),
              impl_of s (Impl p) = Some i' -> impl_of s src = Some j' ->
              at_copy_ (heap s) (data_ i') (data_ j') nb = inl msg' -> P) as Ex.
    { intros i' j' msg' P I' J' K'. simpl in I'. congruence. }
    destruct (versions s !! version_counter_ i) as [n|] eqn:Vc.
    + injection R as <- <-. split; [|split].
      * intros _. exists n, i, j. repeat split; try done.
        -- unfold current_version. simpl. now rewrite I.
        -- change (current_version (with_tracer g' ?S) (Impl p))
             with (current_version S (Impl p)).
           rewrite current_version_rebased. unfold current_version. simpl.
           rewrite I. simpl. apply lookup_insert_eq.
        -- rewrite K. f_equal. unfold rebased.
           now destruct (copy_built s (Impl p) src).
      * discriminate.
      * intros i' j' msg'. apply Ex.
    + injection R as <- <-. split; [|split].
      * discriminate.
      * now intros _.
      * intros i' j' msg'. apply Ex.
  - destruct (copy__invalid s self src nb (or_intror NVs)) as (e & g & R').
    rewrite R' in R. injection R as <- <-. repeat split; try done.
  - destruct (copy__invalid s self src nb (or_introl NV)) as (e & g & R').
    rewrite R' in R. injection R as <- <-. repeat split; try done.
Qed.

End Proofs.

(** * The properties at work in the concrete world *)

Lemma copy__gradient_node_witness :
  (exists s',
     copy_ (Impl 5) (Impl 7) false sample_store = (Ok (Impl 5), s') /\
     copy_builds sample_store (Impl 5) (Impl 7) =
       Some (CopyBackwards
               [Some (GeneratedNode "MulBackward0" [], 2%N); None]
               {| options_dtype := Float; options_device := cpu;
                  options_backend := CPU |} cpu) /\
     grad_fn s' (Impl 5) = Some (copy_builds sample_store (Impl 5) (Impl 7)) /\
     output_nr_ <$> get_autograd_meta s' (Impl 5) = Some 0%N) /\
  (exists s',
     copy_ (Impl 3) (Impl 1) false sample_store = (Ok (Impl 3), s') /\
     copy_builds sample_store (Impl 3) (Impl 1) = None /\
     get_autograd_meta s' (Impl 3) = get_autograd_meta sample_store (Impl 3)) /\
  (exists s',
     copy_ (Impl 1) (Impl 7) false sample_store =
       (Throw {| kind := ViewSafetyError;
                 what := "a leaf Variable that requires grad has been used in an in-place operation." |},
        s') /\
     copy_builds sample_store (Impl 1) (Impl 7) = None /\
     grad_fn (copy_ (Impl 1) (Impl 7) false sample_store).2 (Impl 1) =
       Some None).
Proof.
  pose (m1 := sample_meta None (Some 0) true None 0).
  pose (m0 := sample_meta None None false None 0).
  pose (m5 := sample_meta (Some (GeneratedNode "MulBackward0" [])) None
                false None 2).
  pose (i1 := sample_impl (sample_data 1 cpu CPU Float) 1 (Some m1)).
  pose (i3 := sample_impl (sample_data 3 cpu CPU Long) 3 (Some m0)).
  pose (i5 := sample_impl (sample_data 5 cpu CPU Float) 5 (Some m5)).
  pose (i7 := sample_impl (sample_data 7 cpu CPU Float) 7 (Some m0)).
  assert (impl_of sample_store (Impl 1) = Some i1) as I1 by reflexivity.
  assert (impl_of sample_store (Impl 3) = Some i3) as I3 by reflexivity.
  assert (impl_of sample_store (Impl 5) = Some i5) as I5 by reflexivity.
  assert (impl_of sample_store (Impl 7) = Some i7) as I7 by reflexivity.
  assert (check_inplace (impls sample_store) (Impl 5) = None) as C5
    by reflexivity.
  assert (check_inplace (impls sample_store) (Impl 3) = None) as C3
    by reflexivity.
  assert (check_inplace (impls sample_store) (Impl 1) =
          Some "a leaf Variable that requires grad has been used in an in-place operation.")
    as C1 by reflexivity.
  split; [|split].
  - destruct (copy__gradient_node sample_store (Impl 5) (Impl 7) false
                i5 i7 m5 m0 I5 eq_refl I7 eq_refl) as (_ & _ & P & _).
    destruct (P C5) as (_ & Shape & _ & Su).
    assert (at_copy_ (heap sample_store) (data_ i5) (data_ i7) false =
            inr (<[5 := [13; 14]%Z]> (heap sample_store))) as K
      by reflexivity.
    destruct (Su _ 1 K eq_refl) as (s' & R & Mt).
    assert (copy_builds sample_store (Impl 5) (Impl 7) =
            Some (CopyBackwards
                    [Some (GeneratedNode "MulBackward0" [], 2%N); None]
                    {| options_dtype := Float; options_device := cpu;
                       options_backend := CPU |} cpu)) as B
      by (vm_compute; reflexivity).
    exists s'. split; [exact R|]. split; [exact B|].
    unfold grad_fn. rewrite Mt, B. split; reflexivity.
  - destruct (copy__gradient_node sample_store (Impl 3) (Impl 1) false
                i3 i1 m0 m1 I3 eq_refl I1 eq_refl) as (_ & _ & P & _).
    destruct (P C3) as (_ & _ & _ & Su).
    assert (at_copy_ (heap sample_store) (data_ i3) (data_ i1) false =
            inr (<[3 := [3; 4]%Z]> (heap sample_store))) as K
      by reflexivity.
    destruct (Su _ 0 K eq_refl) as (s' & R & Mt).
    assert (copy_builds sample_store (Impl 3) (Impl 1) = None) as B
      by (vm_compute; reflexivity).
    exists s'. split; [exact R|]. split; [exact B|].
    rewrite Mt, B. reflexivity.
  - destruct (copy__gradient_node sample_store (Impl 1) (Impl 7) false
                i1 i7 m1 m0 I1 eq_refl I7 eq_refl) as (_ & Rj & _ & Nn & _).
    destruct (Rj _ C1) as (B & s' & R & _).
    exists s'. split; [exact R|]. split; [exact B|].
    rewrite (Nn B). reflexivity.
Defined.

(** C1, as first stated, fails on a leaf that requires gradients: both
    arguments are Variables and the condition holds, yet the in-place
    safety check stops the call before a node is built. *)
Lemma copy__rejected_leaf :
  is_variable sample_store (Impl 1) = Some true /\
  is_variable sample_store (Impl 7) = Some true /\
  copy_requires_grad sample_store (Impl 1) (Impl 7) = Some true /\
  (copy_ (Impl 1) (Impl 7) false sample_store).1 =
    Throw {| kind := ViewSafetyError;
             what := "a leaf Variable that requires grad has been used in an in-place operation." |} /\
  copy_builds sample_store (Impl 1) (Impl 7) = None /\
  grad_fn (copy_ (Impl 1) (Impl 7) false sample_store).2 (Impl 1) =
    Some None /\
  ~ (is_Some (copy_builds sample_store (Impl 1) (Impl 7)) <->
     copy_requires_grad sample_store (Impl 1) (Impl 7) = Some true).
Proof.
  assert (copy_builds sample_store (Impl 1) (Impl 7) = None) as B
    by (vm_compute; reflexivity).
  assert (copy_requires_grad sample_store (Impl 1) (Impl 7) = Some true) as Q
    by (vm_compute; reflexivity).
  repeat split; try exact B; try exact Q; try (vm_compute; reflexivity).
  intros [_ X]. specialize (X Q). rewrite B in X.
  destruct X as [? X]. discriminate.
Qed.

Lemma copy__version_witness :
  copy_ (Impl 3) (Impl 1) false traced_store =
    ((copy_ (Impl 3) (Impl 1) false traced_store).1,
     (copy_ (Impl 3) (Impl 1) false traced_store).2) /\
  succeeds (copy_ (Impl 3) (Impl 1) false traced_store).1 = true /\
  exists n,
    current_version traced_store (Impl 3) = Some n /\
    current_version (copy_ (Impl 3) (Impl 1) false traced_store).2 (Impl 3)
      = Some (S n).
Proof.
  assert (copy_ (Impl 3) (Impl 1) false traced_store =
          ((copy_ (Impl 3) (Impl 1) false traced_store).1,
           (copy_ (Impl 3) (Impl 1) false traced_store).2)) as R
    by (vm_compute; reflexivity).
  assert (succeeds (copy_ (Impl 3) (Impl 1) false traced_store).1 = true) as S
    by (vm_compute; reflexivity).
  split; [exact R|]. split; [exact S|].
  destruct (copy__version traced_store (Impl 3) (Impl 1) false _ _ R)
    as (Su & _).
  destruct (Su S) as (n & i & j & V & V' & _). exists n. auto.
Defined.

Lemma set_data_incompatible_witness :
  _has_compatible_shallow_copy_type sample_store (Impl 1) (Impl 6) = false /\
  set_data (Impl 1) (Impl 6) sample_store =
    (Throw {| kind := IncompatibleTypeError;
              what := "Attempted to call `variable.set_data(tensor)`, but `variable` and `tensor` have incompatible tensor type." |},
     sample_store).
Proof.
  split; [reflexivity|].
  apply (set_data_incompatible sample_store (Impl 1) (Impl 6)). reflexivity.
Defined.

Lemma set_data_accumulator_witness :
  _has_compatible_shallow_copy_type sample_store (Impl 1) (Impl 2) = true /\
  accumulator_consistent sample_store (Impl 1) /\
  exists s',
    set_data (Impl 1) (Impl 2) sample_store = (Ok tt, s') /\
    accumulator_reset sample_store s' (Impl 1).
Proof.
  assert (accumulator_consistent sample_store (Impl 1)) as Inv.
  { intros m acc [= <-] [= <-]. reflexivity. }
  assert (_has_compatible_shallow_copy_type sample_store (Impl 1) (Impl 2)
          = true) as C by reflexivity.
  split; [exact C|]. split; [exact Inv|].
  destruct (set_data_accumulator sample_store (Impl 1) (Impl 2)
              (sample_meta None (Some 0) true None 0)
              (sample_impl (sample_data 2 cuda0 CUDA Float) 2
                 (Some (sample_meta None None false None 0)))
              C eq_refl eq_refl)
    as (s' & R & _ & _ & Iff).
  exists s'. split; [exact R|].
  apply (Iff Inv). split; [eexists; reflexivity|].
  right. discriminate.
Defined.

Lemma resize_contract_witness :
  get_autograd_meta sample_store (Impl 1) =
    Some (sample_meta None (Some 0) true None 0) /\
  requires_grad sample_store (Impl 1) = Some true /\
  resize_ (Impl 1) [3%Z] sample_store =
    (Throw {| kind := InvalidOperation;
              what := "cannot resize variables that require grad" |},
     sample_store) /\
  resize_as_ (Impl 1) (Impl 2) sample_store =
    (Throw {| kind := InvalidOperation;
              what := "cannot resize variables that require grad" |},
     sample_store) /\
  resize_as_ (Impl 1) Undefined sample_store =
    (Throw {| kind := UndefinedTensorError;
              what := "Expected a Tensor of type Variable but found an undefined Tensor for argument #1 'the_template'" |},
     sample_store) /\
  resize_as_ (Impl 1) (Impl 0) sample_store =
    (Throw {| kind := NotAVariableError;
              what := "Expected object of type Variable but found type FloatType for argument #1 'the_template'" |},
     sample_store) /\
  get_autograd_meta sample_store (Impl 7) =
    Some (sample_meta None None false None 0) /\
  requires_grad sample_store (Impl 7) = Some false /\
  succeeds (resize_ (Impl 7) [3%Z] sample_store).1 = true /\
  (fails_with InvalidOperation (resize_ (Impl 7) [3%Z] sample_store).1 = true
   <-> requires_grad sample_store (Impl 7) = Some true) /\
  (fails_with InvalidOperation
     (resize_as_ (Impl 7) (Impl 2) sample_store).1 = true
   <-> requires_grad sample_store (Impl 7) = Some true) /\
  grad_fn (resize_as_ (Impl 7) Undefined sample_store).2 (Impl 7)
    = grad_fn sample_store (Impl 7).
Proof.
  destruct (resize_contract sample_store (Impl 1)
              (sample_meta None (Some 0) true None 0) eq_refl)
    as (_ & _ & Ref & Und & Pl & _).
  destruct (Ref eq_refl) as [Ref1 Ref2].
  destruct (resize_contract sample_store (Impl 7)
              (sample_meta None None false None 0) eq_refl)
    as (R & Ra & _).
  split; [reflexivity|]. split; [reflexivity|].
  split; [apply Ref1|]. split; [apply Ref2; reflexivity|].
  split; [exact Und|].
  split; [apply (Pl (Impl 0) _ eq_refl eq_refl)|].
  split; [reflexivity|]. split; [reflexivity|].
  split; [vm_compute; reflexivity|].
  split; [|split].
  - apply (R [3%Z] _ _ (surjective_pairing _)).
  - apply (Ra (Impl 2) _ _ (surjective_pairing _)). reflexivity.
  - apply (Ra Undefined _ _ (surjective_pairing _)).
Defined.

(** With an undefined template and a [self] that requires gradients,
    [resize_as_] fails in [unpack], not with an [InvalidOperation]. *)
Lemma resize_as__undefined_template :
  is_variable sample_store (Impl 1) = Some true /\
  ~ (fails_with InvalidOperation
       (resize_as_ (Impl 1) Undefined sample_store).1 = true
     <-> requires_grad sample_store (Impl 1) = Some true).
Proof.
  split; [reflexivity|]. intros [_ F]. specialize (F eq_refl).
  vm_compute in F. discriminate.
Qed.

Lemma detach__contract_witness :
  is_view sample_store (Impl 4) = Some true /\
  (exists msg s',
     detach_ (Impl 4) sample_store =
       (Throw {| kind := InvalidOperation; what := msg |}, s') /\
     impls s' = impls sample_store) /\
  get_autograd_meta sample_store (Impl 5) =
    Some (sample_meta (Some (GeneratedNode "MulBackward0" [])) None false None 2) /\
  (exists s',
     detach_ (Impl 5) sample_store = (Ok (Impl 5), s') /\
     get_autograd_meta s' (Impl 5) = Some (sample_meta None None false None 0)).
Proof.
  split; [reflexivity|]. split.
  - destruct (proj1 (detach__contract sample_store (Impl 4)) eq_refl)
      as (msg & s' & R & I & _).
    exists msg, s'. auto.
  - split; [reflexivity|].
    destruct (proj2 (detach__contract sample_store (Impl 5)) _ eq_refl eq_refl)
      as (s' & R & E & _).
    exists s'. auto.
Defined.

Lemma detach_contract_witness :
  impl_of sample_store (Impl 1) =
    Some (sample_impl (sample_data 1 cpu CPU Float) 1
            (Some (sample_meta None (Some 0) true None 0))) /\
  exists r s',
    detach (Impl 1) sample_store = (Ok (Impl r), s') /\
    impls sample_store !! r = None /\
    current_version s' (Impl 1) = current_version sample_store (Impl 1) /\
    grad_fn s' (Impl 1) = grad_fn sample_store (Impl 1) /\
    requires_grad s' (Impl 1) = Some true /\
    requires_grad s' (Impl r) = Some false /\
    grad_fn s' (Impl r) = Some None.
Proof.
  split; [reflexivity|].
  destruct (detach_contract sample_store (Impl 1) _
              (sample_meta None (Some 0) true None 0) eq_refl eq_refl)
    as (r & s' & R & F & _ & _ & _ & _ & _ & V & G & Rg & _ & _ & _ & _ & Gr & Rr).
  exists r, s'. rewrite Rg. auto 10.
Defined.

Lemma unpack_contract_witness :
  is_variable sample_store (Impl 0) = Some false /\
  is_variable sample_store (Impl 1) = Some true /\
  unpack (Impl 0) "self" 0 sample_store =
    (Throw {| kind := NotAVariableError;
              what := "Expected object of type Variable but found type FloatType for argument #0 'self'" |},
     sample_store) /\
  unpack (Impl 1) "self" 0 sample_store = (Ok (Impl 1), sample_store) /\
  (exists msg,
     unpack Undefined "src" 1 sample_store =
       (Throw {| kind := UndefinedTensorError; what := msg |}, sample_store) /\
     mentions "src" msg /\ mentions (show_int 1) msg).
Proof.
  split; [reflexivity|]. split; [reflexivity|].
  destruct (unpack_contract sample_store (Impl 0) "self" 0)
    as (_ & P & _ & _).
  destruct (unpack_contract sample_store (Impl 1) "self" 0)
    as (_ & _ & V & _).
  destruct (unpack_contract sample_store Undefined "src" 1)
    as (U & _ & _ & _).
  split; [|split].
  - destruct (P eq_refl) as (ty & msg & T & R & -> & _).
    injection T as <-. exact R.
  - exact (V eq_refl).
  - destruct (U eq_refl) as (msg & R & _ & Mn & Mp). eauto.
Defined.

Lemma unpack_list_contract_witness :
  Forall (passes sample_store) [Impl 1; Undefined; Impl 2] /\
  (exists res,
     unpack_list [Impl 1; Undefined; Impl 2] "tensors" 2 sample_store =
       (Ok res, sample_store) /\
     length res = 3 /\ res !! 1 = Some Undefined) /\
  is_variable sample_store (Impl 0) = Some false /\
  (exists ty,
     unpack_list [Impl 1; Undefined; Impl 0; Impl 2] "tensors" 2 sample_store =
     (Throw {| kind := NotAVariableError;
               what := str ["Expected object of type Variable but found type ";
                            toString ty; " at position #"; show_int 2; " ";
                            "for iterable argument #"; show_int 2;
                            " '"; "tensors"; "'"] |}, sample_store)).
Proof.
  assert (Forall (passes sample_store) [Impl 1; Undefined; Impl 2]) as P.
  { repeat constructor; (now left) || (now right). }
  assert (Forall (passes sample_store) [Impl 1; Undefined]) as P'.
  { repeat constructor; (now left) || (now right). }
  split; [exact P|]. split; [|split; [reflexivity|]].
  - destruct (proj1 (unpack_list_contract sample_store
                       [Impl 1; Undefined; Impl 2] "tensors" 2) P)
      as (res & R & L & _ & U).
    exists res. split; [exact R|]. split; [exact L|]. now apply U.
  - destruct (proj2 (unpack_list_contract sample_store
                       [Impl 1; Undefined; Impl 0; Impl 2] "tensors" 2)
                [Impl 1; Undefined] (Impl 0) [Impl 2] eq_refl P' eq_refl)
      as (ty & _ & R).
    exists ty. exact R.
Defined.

(** * Further properties of the operations *)

(** ** The enumeration of types *)

Lemma all_scalar_types_complete (st : ScalarType) : st ∈ all_scalar_types.
Proof. destruct st; apply (bool_decide_unpack _); vm_compute; exact I. Qed.

Lemma all_scalar_types_NoDup : NoDup all_scalar_types.
Proof. apply (bool_decide_unpack _). vm_compute. exact I. Qed.

(** One round of the outer loop: the inner loop casts every index below
    [NumOptions], which gives the scalar types in declaration order. *)
Lemma allTypesForBackends_cons b bs :
  allTypesForBackends (b :: bs) =
  map (fun s => {| type_backend := b; type_scalar := s |}) all_scalar_types
  ++ allTypesForBackends bs.
Proof. reflexivity. Qed.

Lemma NumOptions_scalar_types : length all_scalar_types = NumOptions.
Proof. reflexivity. Qed.

Lemma types_of_backend_elem b t :
  t ∈ map (fun s => {| type_backend := b; type_scalar := s |}) all_scalar_types
  <-> type_backend t = b.
Proof.
  rewrite list_elem_of_In, in_map_iff. split.
  - now intros (st & <- & _).
  - intros <-. exists (type_scalar t). split; [now destruct t|].
    apply list_elem_of_In, all_scalar_types_complete.
Qed.

Lemma allTypesForBackends_elem (bs : list Backend) t :
  t ∈ allTypesForBackends bs <-> type_backend t ∈ bs.
Proof.
  induction bs as [|b bs IH].
  - split; intros E; inversion E.
  - rewrite allTypesForBackends_cons, elem_of_app, types_of_backend_elem,
      IH, elem_of_cons. reflexivity.
Qed.

(** X1. [allTypesForBackends] returns [NumOptions] = 17 types per
    backend asked for, and a type is in the result exactly when its
    backend was asked for: every scalar type of every such backend, the
    undefined one included, is there, and nothing else. *)
Theorem allTypesForBackends_enumerates (bs : list Backend) :
  length (allTypesForBackends bs) = length bs * NumOptions /\
  forall t, t ∈ allTypesForBackends bs <-> type_backend t ∈ bs.
Proof.
  split; [|apply allTypesForBackends_elem].
  induction bs as [|b bs IH]; [reflexivity|].
  rewrite allTypesForBackends_cons, length_app, length_map,
    NumOptions_scalar_types, IH. reflexivity.
Qed.

(** X2. The result of [allTypesForBackends] is ordered by backend, in
    the order given, and within a backend by scalar type in declaration
    order: entry [k * NumOptions + j] is scalar type [j] of backend [k],
    for every [j] below [NumOptions]. When no backend is repeated, no
    type is. *)
Theorem allTypesForBackends_order (bs : list Backend) :
  (forall k j b,
     bs !! k = Some b -> j < NumOptions ->
     allTypesForBackends bs !! (k * NumOptions + j) =
       Some {| type_backend := b; type_scalar := ScalarType_of_index j |}) /\
  (forall k j b st,
     bs !! k = Some b -> all_scalar_types !! j = Some st ->
     allTypesForBackends bs !! (k * NumOptions + j) =
       Some {| type_backend := b; type_scalar := st |}) /\
  (NoDup bs -> NoDup (allTypesForBackends bs)).
Proof.
  assert (forall k j b st,
     bs !! k = Some b -> all_scalar_types !! j = Some st ->
     allTypesForBackends bs !! (k * NumOptions + j) =
       Some {| type_backend := b; type_scalar := st |}) as L;
    [|split; [|split; [exact L|]]].
  - induction bs as [|b0 bs IH]; intros k j b st Hk Hj; [done|].
    rewrite allTypesForBackends_cons.
    assert (j < NumOptions) as Lj
      by (apply lookup_lt_Some in Hj; rewrite NumOptions_scalar_types in Hj;
          exact Hj).
    destruct k as [|k].
    + injection Hk as ->. change (0 * NumOptions + j) with j.
      rewrite lookup_app_l
        by (rewrite length_map, NumOptions_scalar_types; exact Lj).
      change (map ?f ?l) with (f <$> l). now rewrite list_lookup_fmap, Hj.
    + rewrite lookup_app_r
        by (rewrite length_map, NumOptions_scalar_types; lia).
      rewrite length_map, NumOptions_scalar_types.
      replace (S k * NumOptions + j - NumOptions) with (k * NumOptions + j)
        by lia.
      now apply IH.
  - intros k j b Hk Lj. apply L; [exact Hk|].
    unfold ScalarType_of_index.
    destruct (lookup_lt_is_Some_2 all_scalar_types j) as [st Hst];
      [now rewrite NumOptions_scalar_types|].
    now rewrite (nth_lookup_Some _ _ UndefinedScalarType _ Hst).
  - clear L. induction 1 as [|b bs Nin ND IH]; [constructor|].
    rewrite allTypesForBackends_cons. apply NoDup_app. split; [|split].
    + change (map ?f ?l) with (f <$> l). apply NoDup_fmap_2.
      * intros x y [= ?]. done.
      * apply all_scalar_types_NoDup.
    + intros t Hb%types_of_backend_elem Ht.
      apply allTypesForBackends_elem in Ht. congruence.
    + exact IH.
Qed.

Section More.
Context `{Collaborators}.

(** ** Validation reads and never writes *)

Lemma unpack_cases s t name pos :
  (is_variable s t = Some true /\ unpack t name pos s = (Ok t, s)) \/
  (is_variable s t <> Some true /\
   exists e, unpack t name pos s = (Throw e, s) /\
             kind e <> InvalidOperation).
Proof.
  destruct (decide (is_variable s t = Some true)) as [V|NV].
  - left. split; [exact V|]. now apply checked_cast_variable_ok.
  - right. split; [exact NV|]. now apply unpack_rejects.
Qed.

Lemma unpack_list_from_store s name pos rest :
  forall i res, (unpack_list_from rest name pos i res s).2 = s.
Proof.
  induction rest as [|t rest IH]; intros i res; [reflexivity|].
  simpl. destruct t as [|q]; simpl; [apply IH|].
  unfold bind, deref.
  destruct (is_variable s (Impl q)) as [[|]|] eqn:V; simpl; try reflexivity.
  - apply IH.
  - destruct (type s (Impl q)); reflexivity.
Qed.

Lemma unpack_list_from_success s name pos rest :
  forall i res r s',
    unpack_list_from rest name pos i res s = (Ok r, s') ->
    Forall (passes s) rest.
Proof.
  induction rest as [|t rest IH]; intros i res r s' R; [constructor|].
  simpl in R. destruct t as [|q]; simpl in R.
  - constructor; [now left | eapply IH; exact R].
  - unfold bind, deref in R.
    destruct (is_variable s (Impl q)) as [[|]|] eqn:V; simpl in R.
    + constructor; [now right | eapply IH; exact R].
    + destruct (type s (Impl q)); discriminate.
    + discriminate.
Qed.

(** X3. The unwrap functions only read: whatever handle, list, name and
    position they are given, and whether they return or throw, the store
    after [unpack], [unpack_opt] and the list form of [unpack] is the
    store before. *)
Theorem validation_read_only (s : Store) (name : string) (pos : Z) :
  (forall t, (unpack t name pos s).2 = s) /\
  (forall t, (unpack_opt t name pos s).2 = s) /\
  (forall tl, (unpack_list tl name pos s).2 = s).
Proof.
  assert (forall t, (unpack t name pos s).2 = s) as U.
  { intros t. destruct (unpack_cases s t name pos) as [[_ ->]|(_ & e & -> & _)];
      reflexivity. }
  split; [exact U|]. split.
  - intros t. unfold unpack_opt. destruct (defined t); [apply U | reflexivity].
  - intros tl. apply unpack_list_from_store.
Qed.

(** X4. [unpack_opt] succeeds exactly on a handle that is undefined or
    a Variable, and then returns that handle; it never fails with an
    [UndefinedTensorError]. *)
Theorem unpack_opt_contract (s : Store) (t : Tensor) (name : string)
    (pos : Z) :
  (succeeds (unpack_opt t name pos s).1 = true <-> passes s t) /\
  (passes s t -> unpack_opt t name pos s = (Ok t, s)) /\
  fails_with UndefinedTensorError (unpack_opt t name pos s).1 = false.
Proof.
  assert (passes s t -> unpack_opt t name pos s = (Ok t, s)) as P.
  { intros [->|V]; [reflexivity|]. unfold unpack_opt.
    rewrite (is_variable_defined _ _ _ V). simpl.
    now apply checked_cast_variable_ok. }
  split; [split|split]; try exact P.
  - intros S. destruct t as [|q]; [now left|]. right.
    unfold unpack_opt in S. simpl in S.
    destruct (unpack_cases s (Impl q) name pos)
      as [[V _]|(_ & e & R & _)]; [exact V|].
    rewrite R in S. discriminate.
  - intros Q. now rewrite (P Q).
  - destruct t as [|q]; [reflexivity|]. unfold unpack_opt. simpl.
    unfold unpack, checked_cast_variable.
    change (negb (defined (Impl q))) with false. cbv iota.
    unfold bind, deref.
    destruct (is_variable s (Impl q)) as [[|]|]; simpl; try reflexivity.
    destruct (type s (Impl q)); reflexivity.
Qed.

(** X5. The list form of [unpack] returns normally exactly when every
    element is undefined or a Variable, and what it then returns is the
    list it was given. *)
Theorem unpack_list_success (s : Store) (tl : list Tensor) (name : string)
    (pos : Z) (res : list Tensor) (s' : Store) :
  unpack_list tl name pos s = (Ok res, s') <->
  Forall (passes s) tl /\ res = tl /\ s' = s.
Proof.
  split.
  - intros R.
    assert (Forall (passes s) tl) as P
      by (eapply unpack_list_from_success; exact R).
    pose proof (unpack_list_from_ok s name pos tl [] P) as R'.
    unfold unpack_list in R. simpl in R'. rewrite R' in R.
    injection R as <- <-. done.
  - intros (P & -> & ->). apply (unpack_list_from_ok s name pos tl [] P).
Qed.

(** ** [set_data] replaces the data and nothing else *)

(** X6. A [set_data] with compatible types gives [self] the shape,
    strides, storage, device and type of [new_data] and keeps what is
    its own: its version counter and current version, its metadata-change
    flag, its [grad_fn], [requires_grad] flag, output slot and view
    record. Every other tensor object, the storage contents, the version
    counters, the accumulators and the trace are untouched. *)
Theorem set_data_frame (s : Store) (self new_data : Tensor)
    (i b : TensorImpl) (m : AutogradMeta) :
  _has_compatible_shallow_copy_type s self new_data = true ->
  impl_of s self = Some i -> autograd_meta_ i = Some m ->
  impl_of s new_data = Some b ->
  exists s' i' m',
    set_data self new_data s = (Ok tt, s') /\
    impl_of s' self = Some i' /\ autograd_meta_ i' = Some m' /\
    data_ i' = data_ b /\
    version_counter_ i' = version_counter_ i /\
    allow_tensor_metadata_change_ i' = allow_tensor_metadata_change_ i /\
    grad_fn_ m' = grad_fn_ m /\ requires_grad_ m' = requires_grad_ m /\
    output_nr_ m' = output_nr_ m /\ view_ m' = view_ m /\
    current_version s' self = current_version s self /\
    (forall t, t <> self -> impl_of s' t = impl_of s t) /\
    heap s' = heap s /\ versions s' = versions s /\
    accumulators s' = accumulators s /\ tracer s' = tracer s.
Proof.
  intros C I A B. destruct self as [|p]; [discriminate|].
  assert (get_autograd_meta s (Impl p) = Some m) as E
    by (unfold get_autograd_meta; now rewrite I).
  pose proof (set_data_compatible s p m new_data b C E B) as R.
  simpl in I.
  destruct (set_data_resets s (Impl p) new_data).
  - eexists. exists (set_data_fields (fun _ => data_ b)
                       (set_meta reset_grad_accumulator i)),
      (reset_grad_accumulator m).
    split; [exact R|]. repeat split.
    + simpl. now rewrite !lookup_alter_eq, I.
    + simpl. now rewrite A.
    + unfold current_version. simpl. now rewrite !lookup_alter_eq, I.
    + intros [|q] NE; [done|]. simpl.
      rewrite !lookup_alter_ne by congruence. done.
  - eexists. exists (set_data_fields (fun _ => data_ b) i), m.
    split; [exact R|]. repeat split.
    + simpl. now rewrite !lookup_alter_eq, I.
    + exact A.
    + unfold current_version. simpl. now rewrite !lookup_alter_eq, I.
    + intros [|q] NE; [done|]. simpl.
      rewrite !lookup_alter_ne by congruence. done.
Qed.

Lemma accumulator_consistent_frame s s' t :
  impl_of s' t = impl_of s t -> accumulators s' = accumulators s ->
  accumulator_consistent s t -> accumulator_consistent s' t.
Proof.
  intros I A Inv m acc E L. unfold device, tensor_data. rewrite I.
  apply (Inv m acc).
  - unfold get_autograd_meta in *. now rewrite <- I.
  - unfold lock in *. now rewrite <- A.
Qed.

(** X7. [set_data] keeps the accumulators honest: after a successful
    call, an accumulator of [self] that is still alive records the
    device [self] now has, whatever it recorded before, and every other
    tensor whose live accumulator recorded its device still has one that
    does. *)
Theorem set_data_keeps_accumulators_consistent (s : Store)
    (self new_data : Tensor) (m : AutogradMeta) (b : TensorImpl) (s' : Store) :
  _has_compatible_shallow_copy_type s self new_data = true ->
  get_autograd_meta s self = Some m ->
  impl_of s new_data = Some b ->
  set_data self new_data s = (Ok tt, s') ->
  accumulator_consistent s' self /\
  forall t, t <> self -> accumulator_consistent s t ->
            accumulator_consistent s' t.
Proof.
  intros C E B R. split.
  - exact (set_data_consistent s self new_data m b s' C E B R).
  - intros t NE Inv. destruct self as [|p]; [discriminate|].
    rewrite (set_data_compatible s p m new_data b C E B) in R.
    injection R as <-.
    apply (accumulator_consistent_frame s _ t); [| |exact Inv].
    + destruct t as [|q]; [done|]. simpl.
      destruct (set_data_resets s (Impl p) new_data); simpl;
        rewrite ?lookup_alter_ne by congruence; done.
    + now destruct (set_data_resets s (Impl p) new_data).
Qed.

(** ** What a resize leaves alone *)

Lemma unpack_rejects_kind s t name pos :
  is_variable s t <> Some true ->
  exists e,
    unpack t name pos s = (Throw e, s) /\
    (kind e = UndefinedTensorError \/ kind e = NotAVariableError \/
     kind e = UndefinedBehaviour).
Proof.
  intros NV. unfold unpack.
  destruct (is_variable s t) as [[|]|] eqn:V; [done| |].
  - destruct (plain_has_type _ _ V) as [ty T].
    rewrite (checked_cast_variable_plain _ name pos _ ty V T).
    eexists; split; [reflexivity | right; left; reflexivity].
  - destruct t as [|q];
      [eexists; split; [reflexivity | left; reflexivity]|].
    unfold checked_cast_variable.
    change (negb (defined (Impl q))) with false. cbv iota.
    unfold bind, deref. rewrite V.
    eexists; split; [reflexivity | right; right; reflexivity].
Qed.

(** The stores a resize can leave: the store it found with at most the
    trace grown, or that with the shape of [self] and the storage
    contents replaced by what the kernel returned. *)
Lemma resize__stores self size s :
  (exists g, (resize_ self size s).2 = with_tracer g s) \/
  (exists g p h sz,
     self = Impl p /\
     (resize_ self size s).2 =
       with_impls (alter (set_data_fields (set_shape sz)) p)
         (with_heap h (with_tracer g s))).
Proof.
  destruct (decide (is_variable s self = Some true)) as [V|NV].
  - destruct (variable_impl _ _ V) as (p & i & m & -> & I & A).
    destruct (resize__run s p i m size I A) as [g ->].
    destruct (_ || _).
    + left. exists (fun x => x). now rewrite with_tracer_id.
    + destruct (at_resize_ (heap s) (data_ i) size) as [msg|[h sz]].
      * left. now exists g.
      * right. now exists g, p, h, sz.
  - destruct (unpack_rejects s self "self" 0 NV) as (e & U & _).
    left. exists (fun x => x). unfold resize_.
    now rewrite (bind_throw _ _ _ _ _ U), with_tracer_id.
Qed.

Lemma resize_as__stores self tmpl s :
  (exists g, (resize_as_ self tmpl s).2 = with_tracer g s) \/
  (exists g p h sz,
     self = Impl p /\
     (resize_as_ self tmpl s).2 =
       with_impls (alter (set_data_fields (set_shape sz)) p)
         (with_heap h (with_tracer g s))).
Proof.
  destruct (decide (is_variable s self = Some true)) as [V|NV].
  - destruct (decide (is_variable s tmpl = Some true)) as [Vt|NVt].
    + destruct (variable_impl _ _ V) as (p & i & m & -> & I & A).
      destruct (proj1 (is_variable_true s tmpl) Vt) as (j & mj & J & _).
      destruct (resize_as__run s p i m tmpl j I A J Vt) as [g ->].
      destruct (_ || _).
      * left. exists (fun x => x). now rewrite with_tracer_id.
      * destruct (at_resize_as_ (heap s) (data_ i) (data_ j))
          as [msg|[h sz]].
        -- left. now exists g.
        -- right. now exists g, p, h, sz.
    + destruct (unpack_rejects s tmpl "the_template" 1 NVt) as (e & U & _).
      left. exists (fun x => x). unfold resize_as_.
      rewrite (bind_ok _ _ _ _ _ (checked_cast_variable_ok _ "self" 0 _ V)).
      now rewrite (bind_throw _ _ _ _ _ U), with_tracer_id.
  - destruct (unpack_rejects s self "self" 0 NV) as (e & U & _).
    left. exists (fun x => x). unfold resize_as_.
    now rewrite (bind_throw _ _ _ _ _ U), with_tracer_id.
Qed.

Lemma resized_frame s self s' :
  (exists g, s' = with_tracer g s) \/
  (exists g p h sz,
     self = Impl p /\
     s' = with_impls (alter (set_data_fields (set_shape sz)) p)
            (with_heap h (with_tracer g s))) ->
  versions s' = versions s /\ accumulators s' = accumulators s /\
  (forall t, get_autograd_meta s' t = get_autograd_meta s t) /\
  (forall t, current_version s' t = current_version s t) /\
  (forall t, t <> self -> impl_of s' t = impl_of s t) /\
  (forall d, tensor_data s self = Some d ->
     exists d', tensor_data s' self = Some d' /\
       storage_ d' = storage_ d /\ device_ d' = device_ d /\
       backend_ d' = backend_ d /\ scalar_type_ d' = scalar_type_ d).
Proof.
  intros [[g ->]|(g & p & h & sz & -> & ->)].
  - repeat split; try done. intros d D. exists d. now repeat split.
  - split; [done|]. split; [done|]. split; [|split; [|split]].
    + intros t. now rewrite get_meta_set_data_fields.
    + intros t. now rewrite current_version_alter.
    + intros [|q] NE; [done|]. simpl. apply lookup_alter_ne. congruence.
    + intros d D. rewrite tensor_data_set_data_fields, decide_True by done.
      change (tensor_data (with_heap h (with_tracer g s)) (Impl p))
        with (tensor_data s (Impl p)).
      rewrite D. simpl. eexists. split; [reflexivity|]. now repeat split.
Qed.

(** X9. Neither [resize_] nor [resize_as_], whatever they are given and
    however they end, bumps a version counter, touches an accumulator or
    changes the autograd metadata of any tensor; no tensor but [self] is
    written, and [self] keeps its storage, device, backend and scalar
    type: only its shape and the storage contents can change. *)
Theorem resize_frame (s : Store) (self : Tensor) :
  (forall size s', s' = (resize_ self size s).2 ->
     versions s' = versions s /\ accumulators s' = accumulators s /\
     (forall t, get_autograd_meta s' t = get_autograd_meta s t) /\
     (forall t, current_version s' t = current_version s t) /\
     (forall t, t <> self -> impl_of s' t = impl_of s t) /\
     (forall d, tensor_data s self = Some d ->
        exists d', tensor_data s' self = Some d' /\
          storage_ d' = storage_ d /\ device_ d' = device_ d /\
          backend_ d' = backend_ d /\ scalar_type_ d' = scalar_type_ d)) /\
  (forall tmpl s', s' = (resize_as_ self tmpl s).2 ->
     versions s' = versions s /\ accumulators s' = accumulators s /\
     (forall t, get_autograd_meta s' t = get_autograd_meta s t) /\
     (forall t, current_version s' t = current_version s t) /\
     (forall t, t <> self -> impl_of s' t = impl_of s t) /\
     (forall d, tensor_data s self = Some d ->
        exists d', tensor_data s' self = Some d' /\
          storage_ d' = storage_ d /\ device_ d' = device_ d /\
          backend_ d' = backend_ d /\ scalar_type_ d' = scalar_type_ d)).
Proof.
  split.
  - intros size s' ->. apply resized_frame, resize__stores.
  - intros tmpl s' ->. apply resized_frame, resize_as__stores.
Qed.

(** X10. A resize that is refused before its kernel runs has written
    nothing, not even to the trace: when [resize_] or [resize_as_] fails
    with anything but the kernel's own error, the store is the one it
    was given. *)
Theorem resize_refused_untouched (s : Store) (self : Tensor) :
  (forall size o s',
     resize_ self size s = (o, s') ->
     succeeds o = false -> fails_with KernelError o = false -> s' = s) /\
  (forall tmpl o s',
     resize_as_ self tmpl s = (o, s') ->
     succeeds o = false -> fails_with KernelError o = false -> s' = s).
Proof.
  assert (forall (g : option TracingState -> option TracingState) p
            (k : string + gmap nat Storage * (list Z * list Z))
            (rg : bool) (o : Outcome Tensor) s',
    (if rg then
       (Throw {| kind := InvalidOperation;
                 what := "cannot resize variables that require grad" |}, s)
     else
       match k with
       | inl msg => (Throw {| kind := KernelError; what := msg |},
                     with_tracer g s)
       | inr (h, sz) =>
         (Ok (Impl p),
          with_impls (alter (set_data_fields (set_shape sz)) p)
            (with_heap h (with_tracer g s)))
       end) = (o, s') ->
    succeeds o = false -> fails_with KernelError o = false -> s' = s) as K.
  { intros g p k [|] o s' R Su Ke.
    - now injection R as <- <-.
    - destruct k as [msg|[h sz]]; injection R as <- <-; discriminate. }
  split.
  - intros size o s' R Su Ke.
    destruct (decide (is_variable s self = Some true)) as [V|NV].
    + destruct (variable_impl _ _ V) as (p & i & m & -> & I & A).
      destruct (resize__run s p i m size I A) as [g G]. rewrite G in R.
      exact (K g p _ _ o s' R Su Ke).
    + destruct (unpack_rejects s self "self" 0 NV) as (e & U & _).
      unfold resize_ in R. rewrite (bind_throw _ _ _ _ _ U) in R.
      now injection R as <- <-.
  - intros tmpl o s' R Su Ke.
    destruct (decide (is_variable s self = Some true)) as [V|NV].
    + destruct (decide (is_variable s tmpl = Some true)) as [Vt|NVt].
      * destruct (variable_impl _ _ V) as (p & i & m & -> & I & A).
        destruct (proj1 (is_variable_true s tmpl) Vt) as (j & mj & J & _).
        destruct (resize_as__run s p i m tmpl j I A J Vt) as [g G].
        rewrite G in R. exact (K g p _ _ o s' R Su Ke).
      * destruct (unpack_rejects s tmpl "the_template" 1 NVt) as (e & U & _).
        unfold resize_as_ in R.
        rewrite (bind_ok _ _ _ _ _
                   (checked_cast_variable_ok _ "self" 0 _ V)) in R.
        rewrite (bind_throw _ _ _ _ _ U) in R. now injection R as <- <-.
    + destruct (unpack_rejects s self "self" 0 NV) as (e & U & _).
      unfold resize_as_ in R. rewrite (bind_throw _ _ _ _ _ U) in R.
      now injection R as <- <-.
Qed.

(** ** What a successful [copy_] writes *)

(** The store a successful [copy_] leaves. *)
Lemma copy__success s self src nb r s' :
  copy_ self src nb s = (Ok r, s') ->
  exists p i m j ms g g' h n,
    self = Impl p /\ r = Impl p /\
    impls s !! p = Some i /\ autograd_meta_ i = Some m /\
    impl_of s src = Some j /\ autograd_meta_ j = Some ms /\
    check_inplace (impls s) (Impl p) = None /\
    at_copy_ (heap s) (data_ i) (data_ j) nb = inr h /\
    versions s !! version_counter_ i = Some n /\
    s' = with_tracer g'
           (rebased (copy_built s (Impl p) src) p
              (with_versions <[version_counter_ i := S n]>
                 (with_heap h (with_tracer g s)))).
Proof.
  intros R.
  destruct (decide (is_variable s self = Some true)) as [V|NV];
    [destruct (decide (is_variable s src = Some true)) as [Vs|NVs]|].
  - destruct (variable_impl _ _ V) as (p & i & m & -> & I & A).
    destruct (proj1 (is_variable_true _ _) Vs) as (j & ms & J & As).
    destruct (copy__run s p i m src j ms nb I A J As) as (g & g' & R').
    rewrite R' in R. clear R'.
    destruct (check_inplace (impls s) (Impl p)) as [msg|] eqn:C;
      [discriminate|].
    destruct (at_copy_ (heap s) (data_ i) (data_ j) nb) as [msg|h] eqn:K;
      [discriminate|].
    destruct (versions s !! version_counter_ i) as [n|] eqn:Vc;
      [|discriminate].
    injection R as <- <-. exists p, i, m, j, ms, g, g', h, n.
    repeat split; done.
  - destruct (copy__invalid s self src nb (or_intror NVs)) as (e & g & R').
    rewrite R' in R. discriminate.
  - destruct (copy__invalid s self src nb (or_introl NV)) as (e & g & R').
    rewrite R' in R. discriminate.
Qed.

Lemma copy__success_versions (s : Store) (self src : Tensor)
    (nb : bool) (r : Tensor) (s' : Store) :
  copy_ self src nb s = (Ok r, s') ->
  exists i n,
    impl_of s self = Some i /\
    versions s !! version_counter_ i = Some n /\
    versions s' = <[version_counter_ i := S n]> (versions s) /\
    forall t it,
      impl_of s t = Some it ->
      current_version s' t =
        if decide (version_counter_ it = version_counter_ i)
        then Some (S n) else current_version s t.
Proof.
  intros R.
  destruct (copy__success _ _ _ _ _ _ R)
    as (p & i & m & j & ms & g & g' & h & n & -> & -> & I & A & J & As & C
        & K & Vc & ->).
  exists i, n. split; [exact I|]. split; [exact Vc|]. split.
  - unfold rebased. now destruct (copy_built s (Impl p) src).
  - intros t it It.
    change (current_version (with_tracer g' ?S) t)
      with (current_version S t).
    rewrite current_version_rebased. unfold current_version.
    change (impl_of (with_versions ?f (with_heap h (with_tracer g s))) t)
      with (impl_of s t).
    rewrite It. simpl. case_decide as E.
    + rewrite E. apply lookup_insert_eq.
    + now rewrite lookup_insert_ne by congruence.
Qed.

(** X11. The version counter is shared: after a successful [copy_]
    every tensor that uses the version counter of [self] (every view of
    it) reports a version one higher, and a tensor with another counter
    reports the version it had. Exactly one counter has been written. *)
Theorem copy__bumps_shared_counter (s : Store) (self src : Tensor)
    (nb : bool) (r : Tensor) (s' : Store) :
  copy_ self src nb s = (Ok r, s') ->
  exists i n,
    impl_of s self = Some i /\
    versions s !! version_counter_ i = Some n /\
    versions s' = <[version_counter_ i := S n]> (versions s) /\
    forall t it,
      impl_of s t = Some it ->
      current_version s' t =
        if decide (version_counter_ it = version_counter_ i)
        then Some (S n) else current_version s t.
Proof. apply copy__success_versions. Qed.

Lemma copy__success_meta (s : Store) (self src : Tensor) (nb : bool)
    (r : Tensor) (s' : Store) :
  copy_ self src nb s = (Ok r, s') ->
  r = self /\
  (exists m,
     get_autograd_meta s self = Some m /\
     get_autograd_meta s' self =
       Some (match copy_built s self src with
             | Some node => set_gradient_edge node 0 m
             | None => m
             end)) /\
  (forall t, t <> self -> impl_of s' t = impl_of s t) /\
  (forall t, tensor_data s' t = tensor_data s t) /\
  accumulators s' = accumulators s.
Proof.
  intros R.
  destruct (copy__success _ _ _ _ _ _ R)
    as (p & i & m & j & ms & g & g' & h & n & -> & -> & I & A & J & As & C
        & K & Vc & ->).
  assert (get_autograd_meta s (Impl p) = Some m) as E
    by (unfold get_autograd_meta; simpl; now rewrite I).
  split; [reflexivity|]. unfold rebased.
  destruct (copy_built s (Impl p) src) as [node|].
  - split; [|split; [|split]]; try done.
    + exists m. split; [exact E|].
      change (get_autograd_meta (with_tracer g' ?S) (Impl p))
        with (get_autograd_meta S (Impl p)).
      rewrite get_meta_set_meta, decide_True by done.
      change (get_autograd_meta (with_versions ?f ?S) (Impl p))
        with (get_autograd_meta s (Impl p)).
      now rewrite E.
    + intros [|q] NE; [done|]. simpl. apply lookup_alter_ne. congruence.
    + intros t.
      change (tensor_data (with_tracer g' ?S) t) with (tensor_data S t).
      now rewrite tensor_data_set_meta.
  - split; [|split; [|split]]; try done. exists m. split; [exact E|exact E].
Qed.

(** X12. A successful [copy_] writes two fields of its destination and
    no other field of any tensor: when a gradient node was built the
    [grad_fn] of [self] is that node and its output slot is 0, otherwise
    the metadata of [self] is what it was; the [requires_grad] flag, the
    accumulator and the view record of [self], the shape, storage, device
    and type of every tensor, the metadata of every other tensor and the
    accumulators are unchanged. *)
Theorem copy__frame (s : Store) (self src : Tensor) (nb : bool)
    (r : Tensor) (s' : Store) :
  copy_ self src nb s = (Ok r, s') ->
  r = self /\
  (exists m,
     get_autograd_meta s self = Some m /\
     get_autograd_meta s' self =
       Some (match copy_built s self src with
             | Some node => set_gradient_edge node 0 m
             | None => m
             end)) /\
  (forall t, t <> self -> impl_of s' t = impl_of s t) /\
  (forall t, tensor_data s' t = tensor_data s t) /\
  accumulators s' = accumulators s.
Proof. apply copy__success_meta. Qed.

(** ** How the operations compose *)

(** X13. Once [copy_] has given [self] a gradient function, [self]
    cannot be resized: after a successful [copy_] in which [self] or
    [src] required gradients and [self] is floating-point, [self] is no
    leaf, and [resize_] and [resize_as_] on it fail with
    [InvalidOperation] for every size and every Variable template. *)
Theorem copy__then_resize_refused (s : Store) (self src : Tensor)
    (nb : bool) (r : Tensor) (s' : Store) :
  copy_ self src nb s = (Ok r, s') ->
  copy_requires_grad s self src = Some true ->
  is_leaf self s' = (Ok false, s') /\
  (forall size,
     fails_with InvalidOperation (resize_ self size s').1 = true) /\
  (forall tmpl, is_variable s' tmpl = Some true ->
     fails_with InvalidOperation (resize_as_ self tmpl s').1 = true).
Proof.
  intros R Cg.
  destruct (copy__success_meta _ _ _ _ _ _ R) as (_ & (m & E & E') & _).
  destruct (copy__success _ _ _ _ _ _ R)
    as (p & i & m0 & j & ms & _ & _ & _ & _ & -> & _ & I & A & J & As & _).
  assert (get_autograd_meta s (Impl p) = Some m0) as E0
    by (unfold get_autograd_meta; simpl; now rewrite I).
  assert (get_autograd_meta s src = Some ms) as Es
    by (unfold get_autograd_meta; now rewrite J).
  destruct (copy_node_variables _ _ _ _ _ E0 Es) as [node N].
  unfold copy_built in E'. rewrite Cg, N in E'.
  destruct (meta_impl _ _ _ E') as (i' & I' & A').
  split; [|split].
  - unfold is_leaf. now rewrite (bind_deref _ _ _ _ E').
  - intros size. destruct (resize__run s' p i' _ size I' A') as [g ->].
    simpl grad_fn_. rewrite bool_decide_eq_true_2 by eauto.
    now rewrite orb_true_r.
  - intros tmpl Vt.
    destruct (proj1 (is_variable_true s' tmpl) Vt) as (jt & mt & Jt & _).
    destruct (resize_as__run s' p i' _ tmpl jt I' A' Jt Vt) as [g ->].
    simpl grad_fn_. rewrite bool_decide_eq_true_2 by eauto.
    now rewrite orb_true_r.
Qed.

(** X14. [detach_] makes a tensor resizable again: after a successful
    [detach_] the tensor is a leaf that does not require gradients,
    [resize_] on it never fails with [InvalidOperation], and a second
    [detach_] succeeds and changes no object. *)
Theorem detach__then (s : Store) (self : Tensor) (r : Tensor) (s' : Store) :
  detach_ self s = (Ok r, s') ->
  is_leaf self s' = (Ok true, s') /\
  requires_grad s' self = Some false /\
  (forall size,
     fails_with InvalidOperation (resize_ self size s').1 = false) /\
  succeeds (detach_ self s').1 = true /\
  objects (detach_ self s').2 = objects s'.
Proof.
  intros R.
  assert (exists p m, self = Impl p /\ get_autograd_meta s (Impl p) = Some m
                      /\ view_ m = None) as (p & m & -> & E & V).
  { destruct (get_autograd_meta s self) as [m|] eqn:E.
    - destruct self as [|p]; [discriminate|]. exists p, m.
      split; [reflexivity|]. split; [exact E|].
      destruct (view_ m) as [v|] eqn:V; [|reflexivity].
      assert (is_view s (Impl p) = Some true) as Vw
        by (unfold is_view; rewrite E; simpl; now rewrite V).
      destruct (detach__view _ _ Vw) as [g G]. rewrite G in R. discriminate.
    - exfalso. unfold detach_ in R.
      destruct (detach_trace_entry_run self (Some "detach_") s) as [g G].
      rewrite (bind_ok _ _ _ _ _ G) in R.
      assert (is_view (with_tracer g s) self = None) as Vw
        by (unfold is_view;
            change (get_autograd_meta (with_tracer g s) self)
              with (get_autograd_meta s self); now rewrite E).
      unfold bind at 1 in R. unfold deref in R. rewrite Vw in R.
      discriminate. }
  destruct (detach__plain p m s E V) as [g G]. rewrite G in R.
  injection R as <- <-.
  set (s' := with_tracer g _).
  assert (get_autograd_meta s' (Impl p) =
          Some (set_output_nr 0 (reset_grad_fn (set_requires_grad false m))))
    as E'.
  { unfold get_autograd_meta in *. simpl in *. rewrite !lookup_alter_eq.
    destruct (impls s !! p) as [i|]; [|discriminate]. simpl in *.
    now rewrite E. }
  destruct (meta_impl _ _ _ E') as (i' & I' & A'). clearbody s'.
  split; [|split; [|split; [|split]]].
  - unfold is_leaf. now rewrite (bind_deref _ _ _ _ E').
  - unfold requires_grad. now rewrite E'.
  - intros size. destruct (resize__run s' p i' _ size I' A') as [g0 ->].
    simpl. now destruct (at_resize_ _ _ _) as [?|[? ?]].
  - destruct (detach__plain p _ s' E' V) as [g1 ->]. reflexivity.
  - destruct (detach__plain p _ s' E' V) as [g1 ->].
    unfold objects. simpl. f_equal. f_equal. f_equal.
    apply map_eq. intros q. destruct (decide (q = p)) as [->|NE].
    + rewrite !lookup_alter_eq. rewrite I'. simpl. f_equal.
      unfold set_meta. simpl. rewrite A'. simpl.
      destruct i' as [d v a am]. simpl in *. now rewrite A'.
    + now rewrite !lookup_alter_ne by congruence.
Qed.

(** X15. A detached tensor shares the version counter of its source: an
    in-place [copy_] into the result of [detach v] raises the version
    that [_version] reports for [v] itself by one. *)
Theorem detach_then_copy__bumps_source (s : Store) (v src : Tensor)
    (i : TensorImpl) (nb : bool) (r r' : Tensor) (s1 s2 : Store) :
  impl_of s v = Some i ->
  detach v s = (Ok r, s1) ->
  copy_ r src nb s1 = (Ok r', s2) ->
  exists n,
    _version v s = (Ok n, s) /\
    _version v s1 = (Ok n, s1) /\
    _version v s2 = (Ok (S n), s2) /\
    _version r s2 = (Ok (S n), s2).
Proof.
  intros I D C. destruct (detach_run s v i I) as [g G].
  rewrite G in D. injection D as <- <-.
  set (r := fresh (dom (impls s))) in *. set (s1 := with_tracer g _) in *.
  assert (impls s !! r = None) as F by apply fresh_impl_unused.
  assert (v <> Impl r) as NE by (intros ->; simpl in I; congruence).
  assert (impl_of s1 v = Some i) as I1.
  { destruct v as [|q]; [done|]. simpl.
    rewrite lookup_insert_ne by congruence. exact I. }
  assert (impl_of s1 (Impl r) = Some (detached_view v i)) as Ir
    by (simpl; apply lookup_insert_eq).
  destruct (copy__success_versions _ _ _ _ _ _ C)
    as (i' & n & I' & Vc & _ & Cv).
  rewrite Ir in I'. injection I' as <-. simpl in Vc.
  exists n. unfold _version. repeat split; apply deref_some.
  - unfold current_version. now rewrite I.
  - unfold current_version. now rewrite I1.
  - rewrite (Cv v i I1). now rewrite decide_True.
  - rewrite (Cv (Impl r) _ Ir). now rewrite decide_True.
Qed.

(** ** The tracer is a side channel *)

Lemma same_objects_with_tracer s1 s2 :
  objects s1 = objects s2 -> s2 = with_tracer (fun _ => tracer s2) s1.
Proof.
  destruct s1, s2. unfold objects. simpl. intros [= -> -> -> ->]. reflexivity.
Qed.

Lemma unpack_outcome_tracer f s t name pos :
  unpack t name pos (with_tracer f s) =
  ((unpack t name pos s).1, with_tracer f s).
Proof.
  unfold unpack.
  destruct (is_variable s t) as [[|]|] eqn:V.
  - now rewrite !checked_cast_variable_ok.
  - destruct (plain_has_type _ _ V) as [ty T].
    rewrite (checked_cast_variable_plain t name pos s ty V T).
    now rewrite (checked_cast_variable_plain t name pos (with_tracer f s) ty).
  - destruct t as [|q]; [reflexivity|].
    unfold checked_cast_variable.
    change (negb (defined (Impl q))) with false. cbv iota.
    unfold bind, deref.
    change (is_variable (with_tracer f s) (Impl q))
      with (is_variable s (Impl q)).
    now rewrite V.
Qed.

(** The outcome of [copy_] on arguments that are not both Variables is
    the error of the first [unpack] that fails. *)
Lemma copy__invalid_outcome s self src nb :
  is_variable s self <> Some true \/ is_variable s src <> Some true ->
  exists g,
    copy_ self src nb s =
    ((if decide (is_variable s self = Some true)
      then (unpack src "src" 1 s).1 else (unpack self "self" 0 s).1),
     with_tracer g s).
Proof.
  intros NV.
  destruct (copy_trace_entry_run self src s) as (out & g & T).
  exists g. unfold copy_. rewrite (bind_ok _ _ _ _ _ T).
  destruct (decide (is_variable s self = Some true)) as [V|NVs].
  - destruct NV as [NV|NV]; [done|].
    rewrite (bind_ok _ _ _ _ _
               (checked_cast_variable_ok self "self" 0 (with_tracer g s) V)).
    destruct (unpack_rejects s src "src" 1 NV) as (e & U & _).
    rewrite (bind_throw _ _ (with_tracer g s) e (with_tracer g s))
      by (rewrite unpack_outcome_tracer; now rewrite U).
    now rewrite U.
  - destruct (unpack_rejects s self "self" 0 NVs) as (e & U & _).
    rewrite (bind_throw _ _ (with_tracer g s) e (with_tracer g s))
      by (rewrite unpack_outcome_tracer; now rewrite U).
    now rewrite U.
Qed.

Lemma copy__with_tracer f s self src nb :
  (copy_ self src nb (with_tracer f s)).1 = (copy_ self src nb s).1 /\
  objects (copy_ self src nb (with_tracer f s)).2 =
  objects (copy_ self src nb s).2.
Proof.
  destruct (decide (is_variable s self = Some true
                    /\ is_variable s src = Some true)) as [[V Vs]|NV].
  - destruct (variable_impl _ _ V) as (p & i & m & -> & I & A).
    destruct (proj1 (is_variable_true _ _) Vs) as (j & ms & J & As).
    destruct (copy__run s p i m src j ms nb I A J As) as (g & g' & ->).
    destruct (copy__run (with_tracer f s) p i m src j ms nb I A J As)
      as (k & k' & ->).
    change (impls (with_tracer f s)) with (impls s).
    change (heap (with_tracer f s)) with (heap s).
    change (versions (with_tracer f s)) with (versions s).
    change (copy_built (with_tracer f s) (Impl p) src)
      with (copy_built s (Impl p) src).
    destruct (check_inplace (impls s) (Impl p)); [done|].
    destruct (at_copy_ (heap s) (data_ i) (data_ j) nb); [done|].
    destruct (versions s !! version_counter_ i); [|done].
    split; [reflexivity|]. unfold rebased.
    now destruct (copy_built s (Impl p) src).
  - assert (is_variable s self <> Some true \/ is_variable s src <> Some true)
      as NV'.
    { destruct (decide (is_variable s self = Some true)); [|now left].
      right. intros ?. apply NV. done. }
    destruct (copy__invalid_outcome s self src nb NV') as [g ->].
    destruct (copy__invalid_outcome (with_tracer f s) self src nb NV')
      as [k ->].
    change (is_variable (with_tracer f s) self) with (is_variable s self).
    rewrite !unpack_outcome_tracer. simpl.
    split; reflexivity.
Qed.

(** X16. The trace never decides what [copy_] does: on two stores that
    hold the same objects and differ at most in the trace being
    recorded, [copy_] has the same outcome (the same result or the same
    error) and leaves the same objects. *)
Theorem copy__ignores_tracer (s1 s2 : Store) (self src : Tensor) (nb : bool) :
  objects s1 = objects s2 ->
  (copy_ self src nb s2).1 = (copy_ self src nb s1).1 /\
  objects (copy_ self src nb s2).2 = objects (copy_ self src nb s1).2.
Proof.
  intros O. rewrite (same_objects_with_tracer s1 s2 O).
  apply copy__with_tracer.
Qed.

Lemma resize__with_tracer f s self size :
  (resize_ self size (with_tracer f s)).1 = (resize_ self size s).1 /\
  objects (resize_ self size (with_tracer f s)).2 =
  objects (resize_ self size s).2.
Proof.
  destruct (decide (is_variable s self = Some true)) as [V|NV].
  - destruct (variable_impl _ _ V) as (p & i & m & -> & I & A).
    destruct (resize__run s p i m size I A) as [g ->].
    destruct (resize__run (with_tracer f s) p i m size I A) as [k ->].
    change (heap (with_tracer f s)) with (heap s).
    destruct (_ || _); [done|].
    now destruct (at_resize_ (heap s) (data_ i) size) as [msg|[h sz]].
  - destruct (unpack_rejects s self "self" 0 NV) as (e & U & _).
    unfold resize_.
    rewrite (bind_throw _ _ _ _ _ U).
    rewrite (bind_throw _ _ (with_tracer f s) e (with_tracer f s))
      by (rewrite unpack_outcome_tracer; now rewrite U).
    done.
Qed.

Lemma resize_as__with_tracer f s self tmpl :
  (resize_as_ self tmpl (with_tracer f s)).1 = (resize_as_ self tmpl s).1 /\
  objects (resize_as_ self tmpl (with_tracer f s)).2 =
  objects (resize_as_ self tmpl s).2.
Proof.
  destruct (decide (is_variable s self = Some true)) as [V|NV].
  - destruct (decide (is_variable s tmpl = Some true)) as [Vt|NVt].
    + destruct (variable_impl _ _ V) as (p & i & m & -> & I & A).
      destruct (proj1 (is_variable_true s tmpl) Vt) as (j & mj & J & _).
      destruct (resize_as__run s p i m tmpl j I A J Vt) as [g ->].
      destruct (resize_as__run (with_tracer f s) p i m tmpl j I A J Vt)
        as [k ->].
      change (heap (with_tracer f s)) with (heap s).
      destruct (_ || _); [done|].
      now destruct (at_resize_as_ (heap s) (data_ i) (data_ j))
        as [msg|[h sz]].
    + destruct (unpack_rejects s tmpl "the_template" 1 NVt) as (e & U & _).
      unfold resize_as_.
      rewrite (bind_ok _ _ _ _ _ (checked_cast_variable_ok _ "self" 0 s V)).
      rewrite (bind_ok _ _ _ _ _
                 (checked_cast_variable_ok _ "self" 0 (with_tracer f s) V)).
      rewrite (bind_throw _ _ _ _ _ U).
      rewrite (bind_throw _ _ (with_tracer f s) e (with_tracer f s))
        by (rewrite unpack_outcome_tracer; now rewrite U).
      done.
  - destruct (unpack_rejects s self "self" 0 NV) as (e & U & _).
    unfold resize_as_.
    rewrite (bind_throw _ _ _ _ _ U).
    rewrite (bind_throw _ _ (with_tracer f s) e (with_tracer f s))
      by (rewrite unpack_outcome_tracer; now rewrite U).
    done.
Qed.

Lemma detach__no_meta s self :
  get_autograd_meta s self = None ->
  exists g,
    detach_ self s =
    (Throw {| kind := UndefinedBehaviour; what := "invalid dereference" |},
     with_tracer g s).
Proof.
  intros E. destruct (detach_trace_entry_run self (Some "detach_") s) as [g G].
  exists g. unfold detach_. rewrite (bind_ok _ _ _ _ _ G).
  unfold bind at 1. unfold deref, is_view.
  change (get_autograd_meta (with_tracer g s) self)
    with (get_autograd_meta s self).
  now rewrite E.
Qed.

Lemma detach__with_tracer f s self :
  (detach_ self (with_tracer f s)).1 = (detach_ self s).1 /\
  objects (detach_ self (with_tracer f s)).2 = objects (detach_ self s).2.
Proof.
  destruct (get_autograd_meta s self) as [m|] eqn:E.
  - destruct self as [|p]; [discriminate|].
    destruct (view_ m) as [v|] eqn:V.
    + assert (is_view s (Impl p) = Some true) as Vw
        by (unfold is_view; rewrite E; simpl; now rewrite V).
      destruct (detach__view (Impl p) s Vw) as [g ->].
      destruct (detach__view (Impl p) (with_tracer f s) Vw) as [k ->]. done.
    + destruct (detach__plain p m s E V) as [g ->].
      destruct (detach__plain p m (with_tracer f s) E V) as [k ->]. done.
  - destruct (detach__no_meta s self E) as [g ->].
    destruct (detach__no_meta (with_tracer f s) self E) as [k ->]. done.
Qed.

Lemma detach_no_impl s v :
  impl_of s v = None ->
  exists g,
    detach v s =
    (match v with
     | Undefined => Ok Undefined
     | Impl _ => Throw {| kind := UndefinedBehaviour;
                          what := "invalid dereference" |}
     end, with_tracer g s).
Proof.
  intros I. destruct (detach_trace_entry_run v None s) as [g G].
  unfold detach. rewrite (bind_ok _ _ _ _ _ G).
  destruct v as [|q].
  - unfold make_variable_view. simpl negb. cbv iota.
    rewrite (bind_ok _ _ _ Undefined (with_tracer g s) eq_refl).
    destruct (detach_trace_exit_run Undefined (with_tracer g s)) as [g' G'].
    rewrite (bind_ok _ _ _ _ _ G'). now exists (fun x => g' (g x)).
  - exists g. unfold make_variable_view.
    change (negb (defined (Impl q))) with false. cbv iota.
    unfold bind at 1. unfold bind at 1. unfold deref, tensor_data.
    change (impl_of (with_tracer g s) (Impl q)) with (impl_of s (Impl q)).
    now rewrite I.
Qed.

Lemma detach_with_tracer f s v :
  (detach v (with_tracer f s)).1 = (detach v s).1 /\
  objects (detach v (with_tracer f s)).2 = objects (detach v s).2.
Proof.
  destruct (impl_of s v) as [i|] eqn:I.
  - destruct (detach_run s v i I) as [g ->].
    destruct (detach_run (with_tracer f s) v i I) as [k ->]. done.
  - destruct (detach_no_impl s v I) as [g ->].
    destruct (detach_no_impl (with_tracer f s) v I) as [k ->]. done.
Qed.

(** X17. The same holds of the other manual operations: on two stores
    with the same objects, [resize_], [resize_as_], [detach] and
    [detach_] have the same outcome and leave the same objects, whether
    or not a trace is being recorded. *)
Theorem manual_ops_ignore_tracer (s1 s2 : Store) (self : Tensor) :
  objects s1 = objects s2 ->
  (forall size,
     (resize_ self size s2).1 = (resize_ self size s1).1 /\
     objects (resize_ self size s2).2 = objects (resize_ self size s1).2) /\
  (forall tmpl,
     (resize_as_ self tmpl s2).1 = (resize_as_ self tmpl s1).1 /\
     objects (resize_as_ self tmpl s2).2 =
     objects (resize_as_ self tmpl s1).2) /\
  ((detach self s2).1 = (detach self s1).1 /\
   objects (detach self s2).2 = objects (detach self s1).2) /\
  ((detach_ self s2).1 = (detach_ self s1).1 /\
   objects (detach_ self s2).2 = objects (detach_ self s1).2).
Proof.
  intros O. rewrite (same_objects_with_tracer s1 s2 O).
  split; [|split; [|split]].
  - intros size. apply resize__with_tracer.
  - intros tmpl. apply resize_as__with_tracer.
  - apply detach_with_tracer.
  - apply detach__with_tracer.
Qed.

(** ** What the tracer is told, and when *)

Lemma append_events_nil t : append_events [] t = t.
Proof.
  destruct t as [[fo g]|]; [|reflexivity]. unfold append_events. simpl.
  now rewrite app_nil_r.
Qed.

Lemma append_events_app evs evs' t :
  append_events evs' (append_events evs t) = append_events (evs ++ evs') t.
Proof.
  destruct t as [ts|]; [|reflexivity]. unfold append_events. simpl.
  now rewrite app_assoc.
Qed.

Lemma traced_append ev t : traced ev t = append_events [ev] t.
Proof. reflexivity. Qed.

Lemma pt_ret {A} (a : A) : preserves_tracer (ret a).
Proof. now intros s. Qed.

Lemma pt_throw {A} k msg : preserves_tracer (A:=A) (throw k msg).
Proof. now intros s. Qed.

Lemma pt_gets {A} (f : Store -> A) : preserves_tracer (gets f).
Proof. now intros s. Qed.

Lemma pt_deref {A} (f : Store -> option A) : preserves_tracer (deref f).
Proof. intros s. unfold deref. now destruct (f s). Qed.

Lemma pt_bind {A B} (m : M A) (f : A -> M B) :
  preserves_tracer m -> (forall a, preserves_tracer (f a)) ->
  preserves_tracer (bind m f).
Proof.
  intros Pm Pf s. unfold bind. specialize (Pm s).
  destruct (m s) as [[a|e] s1]; simpl in *; [|exact Pm].
  now rewrite Pf.
Qed.

Lemma pt_alter_impl f t : preserves_tracer (alter_impl f t).
Proof. intros s. now destruct t. Qed.

Lemma pt_update_meta t f : preserves_tracer (update_meta t f).
Proof.
  apply pt_bind; [apply pt_deref|]. intros _. apply pt_alter_impl.
Qed.

Lemma pt_unpack t name pos : preserves_tracer (unpack t name pos).
Proof.
  intros s. destruct (unpack_cases s t name pos) as [[_ ->]|(_ & e & -> & _)];
    reflexivity.
Qed.

Lemma pt_check_inplace_guard self : preserves_tracer (check_inplace_guard self).
Proof.
  intros s. unfold check_inplace_guard.
  now destruct (check_inplace (impls s) self).
Qed.

Lemma pt_copy_grad_fn self src : preserves_tracer (copy_grad_fn self src).
Proof.
  unfold copy_grad_fn.
  apply pt_bind; [apply pt_deref|]. intros rg.
  apply pt_bind; [apply pt_deref|]. intros st.
  destruct (rg && isFloatingPoint st); [|apply pt_ret].
  repeat (apply pt_bind; [apply pt_deref|]; intros ?). apply pt_ret.
Qed.

Lemma pt_raw_copy_ self_ src_ nb : preserves_tracer (raw_copy_ self_ src_ nb).
Proof.
  unfold raw_copy_.
  apply pt_bind; [apply pt_deref|]. intros a.
  apply pt_bind; [apply pt_deref|]. intros b s.
  now destruct (at_copy_ (heap s) a b nb).
Qed.

Lemma pt_increment_version self : preserves_tracer (increment_version self).
Proof.
  unfold increment_version.
  apply pt_bind; [apply pt_deref|]. intros i.
  apply pt_bind; [apply pt_deref|]. intros n. now intros s.
Qed.

Lemma pt_rebase_history self g : preserves_tracer (rebase_history self g).
Proof. destruct g; [apply pt_update_meta | apply pt_ret]. Qed.

Lemma aos_bind {A B} (ev : B -> TraceEvent) (m : M A) (f : A -> M B) :
  preserves_tracer m -> (forall a, appends_on_success ev (f a)) ->
  appends_on_success ev (bind m f).
Proof.
  intros Pm Qf s. unfold bind. specialize (Pm s).
  destruct (m s) as [[a|e] s1]; simpl in *; [|exact Pm].
  now rewrite Qf, Pm.
Qed.

(** The exit hook shared by the operations: when tracing, tell the
    tracer [e], then return [r]. *)
Lemma aos_exit {A} (ev : A -> TraceEvent) (r : A) :
  appends_on_success ev
    (bind isTracing (fun tracing =>
       bind (if tracing then record (ev r) else ret tt)
            (fun _ => ret r))).
Proof.
  intros [im hp vs ac [ts|]]; reflexivity.
Qed.

Lemma copy_trace_entry_events self src s :
  copy_trace_entry self src s =
  (Ok (if bool_decide (is_Some (tracer s))
       then Some (copy_output (outplace s)) else None),
   with_tracer
     (fun _ => append_events (copy_entry_events (outplace s) self src)
                 (tracer s)) s).
Proof.
  unfold copy_trace_entry, isTracing, bind, gets, deref, outplace. cbv beta.
  destruct s as [im hp vs ac [[[|] g]|]]; simpl;
    unfold record, modify, with_tracer, append_events; simpl;
    rewrite <- ?app_assoc; reflexivity.
Qed.

(** X18. What [copy_] tells the tracer: its entry events (an
    [expand_as] node and a uniqueness check when the trace forces
    out-of-place operations, an inserted [copy_] otherwise) on every
    call, before any argument is validated and so also when the call is
    then rejected; after them the output binding, when and only when the
    call succeeds; and nothing when no trace is being recorded. *)
Theorem copy__trace (s : Store) (self src : Tensor) (nb : bool) :
  tracer (copy_ self src nb s).2 =
  append_events
    (copy_entry_events (outplace s) self src ++
     (if succeeds (copy_ self src nb s).1
      then [TraceSetOutput
              (if bool_decide (is_Some (tracer s))
               then Some (copy_output (outplace s)) else None) self]
      else []))
    (tracer s).
Proof.
  unfold copy_. rewrite (bind_ok _ _ _ _ _ (copy_trace_entry_events self src s)).
  set (out := if bool_decide (is_Some (tracer s)) then _ else None).
  set (s1 := with_tracer _ s).
  assert (appends_on_success (fun _ : Tensor => TraceSetOutput out self)
    (bind (unpack self "self" 0) (fun self_ =>
     bind (unpack src "src" 1) (fun src_ =>
     bind (check_inplace_guard self) (fun _ =>
     bind (copy_grad_fn self src) (fun grad_fn =>
     bind (raw_copy_ self_ src_ nb) (fun _ =>
     bind (increment_version self) (fun _ =>
     bind (rebase_history self grad_fn) (fun _ =>
     bind isTracing (fun tracing =>
       bind (if tracing then record (TraceSetOutput out self) else ret tt)
            (fun _ => ret self))))))))))) as Q.
  { apply aos_bind; [apply pt_unpack|]. intros self_.
    apply aos_bind; [apply pt_unpack|]. intros src_.
    apply aos_bind; [apply pt_check_inplace_guard|]. intros _.
    apply aos_bind; [apply pt_copy_grad_fn|]. intros grad_fn.
    apply aos_bind; [apply pt_raw_copy_|]. intros _.
    apply aos_bind; [apply pt_increment_version|]. intros _.
    apply aos_bind; [apply pt_rebase_history|]. intros _.
    apply (aos_exit (fun _ : Tensor => TraceSetOutput out self) self). }
  rewrite (Q s1).
  change (tracer s1)
    with (append_events (copy_entry_events (outplace s) self src) (tracer s)).
  destruct (_ s1).1 as [a|e]; simpl.
  - now rewrite traced_append, append_events_app.
  - now rewrite app_nil_r.
Qed.

Lemma detach_trace_entry_events self u s :
  detach_trace_entry self u s =
  (Ok tt,
   with_tracer (fun _ => append_events (detach_entry_events self u) (tracer s))
     s).
Proof.
  destruct s as [im hp vs ac [ts|]]; destruct u as [w|]; simpl;
    unfold detach_trace_entry, isTracing, bind, gets, record, modify,
      with_tracer, append_events; simpl; rewrite <- ?app_assoc; reflexivity.
Qed.

Lemma aos_detach_exit (r : Tensor) :
  appends_on_success (fun t => TraceAddOutput "aten::detach" t)
    (bind (detach_trace_exit r) (fun _ => ret r)).
Proof. intros [im hp vs ac [ts|]]; reflexivity. Qed.

Lemma pt_modify_impls f : preserves_tracer (modify (with_impls f)).
Proof. now intros s. Qed.

Lemma pt_make_variable_view base data d a e :
  preserves_tracer (make_variable_view base data d a e).
Proof.
  unfold make_variable_view. destruct (negb (defined data)); [apply pt_ret|].
  apply pt_bind; [apply pt_deref|]. intros x.
  apply pt_bind; [apply pt_deref|]. intros b.
  apply pt_bind; [apply pt_gets|]. intros p.
  apply pt_bind; [apply pt_modify_impls | intros _; apply pt_ret].
Qed.

(** X19. What [detach] and [detach_] tell the tracer: the [detach] node
    with its input on every call ([detach_] adds a uniqueness check),
    before [detach_] looks whether [self] is a view, so that a refused
    [detach_] has still grown the trace; then the output binding, of
    the new handle for [detach] and of [self] for [detach_], when and
    only when the call succeeds; nothing when no trace is recorded. *)
Theorem detach_trace (s : Store) (self : Tensor) :
  tracer (detach self s).2 =
    append_events
      (detach_entry_events self None ++
       match (detach self s).1 with
       | Ok r => [TraceAddOutput "aten::detach" r]
       | Throw _ => []
       end) (tracer s) /\
  tracer (detach_ self s).2 =
    append_events
      (detach_entry_events self (Some "detach_") ++
       if succeeds (detach_ self s).1
       then [TraceAddOutput "aten::detach" self] else [])
      (tracer s).
Proof.
  split.
  - unfold detach.
    rewrite (bind_ok _ _ _ _ _ (detach_trace_entry_events self None s)).
    set (s1 := with_tracer _ s).
    assert (appends_on_success (fun t => TraceAddOutput "aten::detach" t)
      (bind (make_variable_view self self false false None) (fun result =>
       bind (detach_trace_exit result) (fun _ => ret result)))) as Q.
    { apply aos_bind; [apply pt_make_variable_view|]. intros r.
      apply aos_detach_exit. }
    rewrite (Q s1).
    change (tracer s1)
      with (append_events (detach_entry_events self None) (tracer s)).
    destruct (_ s1).1 as [a|e].
    + now rewrite traced_append, append_events_app.
    + now rewrite app_nil_r.
  - unfold detach_.
    rewrite (bind_ok _ _ _ _ _
               (detach_trace_entry_events self (Some "detach_") s)).
    set (s1 := with_tracer _ s).
    assert (appends_on_success (fun _ : Tensor => TraceAddOutput "aten::detach" self)
      (bind (deref (fun s => is_view s self)) (fun v =>
       bind (if v then throw InvalidOperation
                         "Can't detach views in-place. Use detach() instead"
             else ret tt) (fun _ =>
       bind (update_meta self (set_requires_grad false)) (fun _ =>
       bind (update_meta self reset_grad_fn) (fun _ =>
       bind (update_meta self (set_output_nr 0)) (fun _ =>
       bind (detach_trace_exit self) (fun _ => ret self)))))))) as Q.
    { apply aos_bind; [apply pt_deref|]. intros v.
      apply aos_bind; [destruct v; [apply pt_throw | apply pt_ret]|].
      intros _.
      apply aos_bind; [apply pt_update_meta|]. intros _.
      apply aos_bind; [apply pt_update_meta|]. intros _.
      apply aos_bind; [apply pt_update_meta|]. intros _.
      intros [im hp vs ac [ts|]]; reflexivity. }
    rewrite (Q s1).
    change (tracer s1)
      with (append_events (detach_entry_events self (Some "detach_"))
              (tracer s)).
    destruct (_ s1).1 as [a|e]; unfold succeeds.
    + now rewrite traced_append, append_events_app.
    + now rewrite app_nil_r.
Qed.

Lemma deref_none {A} (f : Store -> option A) s :
  f s = None ->
  deref f s =
  (Throw {| kind := UndefinedBehaviour; what := "invalid dereference" |}, s).
Proof. intros E. unfold deref. now rewrite E. Qed.

Lemma resize_trace_events self s :
  resize_trace self s =
  (Ok tt, with_tracer (fun _ => append_events (resize_events self) (tracer s)) s).
Proof.
  destruct s as [im hp vs ac [ts|]]; simpl;
    unfold resize_trace, isTracing, bind, gets, record, modify,
      with_tracer, append_events; simpl; rewrite <- ?app_assoc; reflexivity.
Qed.

Lemma resize_as_trace_events self s :
  resize_as_trace self s =
  (Ok tt,
   with_tracer (fun _ => append_events (resize_as_events self) (tracer s)) s).
Proof.
  destruct s as [im hp vs ac [ts|]]; simpl;
    unfold resize_as_trace, isTracing, bind, gets, record, modify,
      with_tracer, append_events; simpl; rewrite <- ?app_assoc; reflexivity.
Qed.

Lemma pt_raw_resize_ self_ size : preserves_tracer (raw_resize_ self_ size).
Proof.
  unfold raw_resize_. apply pt_bind; [apply pt_deref|]. intros a s.
  destruct (at_resize_ (heap s) a size) as [msg|[h sz]]; [reflexivity|].
  now rewrite pt_alter_impl.
Qed.

Lemma pt_raw_resize_as_ self_ t : preserves_tracer (raw_resize_as_ self_ t).
Proof.
  unfold raw_resize_as_. apply pt_bind; [apply pt_deref|]. intros a.
  apply pt_bind; [apply pt_deref|]. intros b s.
  destruct (at_resize_as_ (heap s) a b) as [msg|[h sz]]; [reflexivity|].
  now rewrite pt_alter_impl.
Qed.

Lemma resize__refused s self size :
  succeeds (resize_ self size s).1 = false ->
  fails_with KernelError (resize_ self size s).1 = false ->
  (resize_ self size s).2 = s.
Proof.
  intros Su Ke.
  destruct (decide (is_variable s self = Some true)) as [V|NV].
  - destruct (variable_impl _ _ V) as (p & i & m & -> & I & A).
    destruct (resize__run s p i m size I A) as [g G].
    rewrite G in *. destruct (_ || _); [reflexivity|].
    destruct (at_resize_ (heap s) (data_ i) size) as [msg|[h sz]];
      discriminate.
  - destruct (unpack_rejects s self "self" 0 NV) as (e & U & _).
    unfold resize_. now rewrite (bind_throw _ _ _ _ _ U).
Qed.

Lemma resize_as__refused s self tmpl :
  succeeds (resize_as_ self tmpl s).1 = false ->
  fails_with KernelError (resize_as_ self tmpl s).1 = false ->
  (resize_as_ self tmpl s).2 = s.
Proof.
  intros Su Ke.
  destruct (decide (is_variable s self = Some true)) as [V|NV].
  - destruct (decide (is_variable s tmpl = Some true)) as [Vt|NVt].
    + destruct (variable_impl _ _ V) as (p & i & m & -> & I & A).
      destruct (proj1 (is_variable_true s tmpl) Vt) as (j & mj & J & _).
      destruct (resize_as__run s p i m tmpl j I A J Vt) as [g G].
      rewrite G in *. destruct (_ || _); [reflexivity|].
      destruct (at_resize_as_ (heap s) (data_ i) (data_ j)) as [msg|[h sz]];
        discriminate.
    + destruct (unpack_rejects s tmpl "the_template" 1 NVt) as (e & U & _).
      unfold resize_as_.
      rewrite (bind_ok _ _ _ _ _ (checked_cast_variable_ok _ "self" 0 _ V)).
      now rewrite (bind_throw _ _ _ _ _ U).
  - destruct (unpack_rejects s self "self" 0 NV) as (e & U & _).
    unfold resize_as_. now rewrite (bind_throw _ _ _ _ _ U).
Qed.

(** X20. [resize_] and [resize_as_] tell the tracer only once they are
    past their checks, and then whatever the kernel does: when the call
    succeeds or fails in the kernel, the trace has been told (for
    [resize_]) that the stashed size is dropped, then the resize warning,
    then that the traced value of [self] is forgotten; when the call is
    refused the trace is as it was. *)
Theorem resize_trace_contract (s : Store) (self : Tensor) :
  (forall size,
     tracer (resize_ self size s).2 =
     if succeeds (resize_ self size s).1
        || fails_with KernelError (resize_ self size s).1
     then append_events (resize_events self) (tracer s)
     else tracer s) /\
  (forall tmpl,
     tracer (resize_as_ self tmpl s).2 =
     if succeeds (resize_as_ self tmpl s).1
        || fails_with KernelError (resize_as_ self tmpl s).1
     then append_events (resize_as_events self) (tracer s)
     else tracer s).
Proof.
  split.
  - intros size.
    destruct (succeeds (resize_ self size s).1
              || fails_with KernelError (resize_ self size s).1) eqn:O.
    + destruct (unpack_cases s self "self" 0) as [[V U]|(_ & e & U & _)].
      * unfold resize_ in *. rewrite (bind_ok _ _ _ _ _ U) in *.
        destruct (requires_grad s self) as [[|]|] eqn:Rg.
        -- rewrite (bind_deref _ _ _ _ Rg) in O. discriminate.
        -- rewrite (bind_deref _ _ _ _ Rg).
           rewrite (bind_ok _ _ s tt s eq_refl).
           rewrite (bind_ok _ _ _ _ _ (resize_trace_events self s)).
           rewrite pt_bind; [reflexivity | apply pt_raw_resize_ |].
           intros _. apply pt_ret.
        -- rewrite (bind_throw _ _ _ _ _ (deref_none _ _ Rg)) in O.
           discriminate.
      * unfold resize_ in O. rewrite (bind_throw _ _ _ _ _ U) in O.
        simpl in O. destruct (unpack_rejects_kind s self "self" 0)
          as (e' & U' & K).
        { intros V. rewrite (checked_cast_variable_ok _ "self" 0 _ V) in U.
          discriminate. }
        rewrite U in U'. injection U' as <-.
        apply bool_decide_eq_true in O. destruct K as [K|[K|K]]; congruence.
    + apply orb_false_iff in O as [Su Ke].
      now rewrite (resize__refused s self size Su Ke).
  - intros tmpl.
    destruct (succeeds (resize_as_ self tmpl s).1
              || fails_with KernelError (resize_as_ self tmpl s).1) eqn:O.
    + assert (forall t name pos e,
                unpack t name pos s = (Throw e, s) ->
                kind e <> KernelError) as NK.
      { intros t name pos e U.
        destruct (unpack_rejects_kind s t name pos) as (e' & U' & K).
        { intros V. unfold unpack in U.
          rewrite (checked_cast_variable_ok _ name pos _ V) in U.
          discriminate. }
        rewrite U in U'. injection U' as <-.
        destruct K as [K|[K|K]]; congruence. }
      destruct (unpack_cases s self "self" 0) as [[V U]|(_ & e & U & _)].
      * destruct (unpack_cases s tmpl "the_template" 1)
          as [[Vt Ut]|(_ & e & Ut & _)].
        -- unfold resize_as_ in *. rewrite (bind_ok _ _ _ _ _ U) in *.
           rewrite (bind_ok _ _ _ _ _ Ut) in *.
           destruct (requires_grad s self) as [[|]|] eqn:Rg.
           ++ rewrite (bind_deref _ _ _ _ Rg) in O. discriminate.
           ++ rewrite (bind_deref _ _ _ _ Rg).
              rewrite (bind_ok _ _ s tt s eq_refl).
              rewrite (bind_ok _ _ _ _ _ (resize_as_trace_events self s)).
              rewrite pt_bind; [reflexivity | apply pt_raw_resize_as_ |].
              intros _. apply pt_ret.
           ++ rewrite (bind_throw _ _ _ _ _ (deref_none _ _ Rg)) in O.
              discriminate.
        -- unfold resize_as_ in O. rewrite (bind_ok _ _ _ _ _ U) in O.
           rewrite (bind_throw _ _ _ _ _ Ut) in O. simpl in O.
           apply bool_decide_eq_true in O. now apply NK in Ut.
      * unfold resize_as_ in O. rewrite (bind_throw _ _ _ _ _ U) in O.
        simpl in O. apply bool_decide_eq_true in O. now apply NK in U.
    + apply orb_false_iff in O as [Su Ke].
      now rewrite (resize_as__refused s self tmpl Su Ke).
Qed.

(** ** More on [copy_] *)

(** A call of [copy_] that fails has written no tensor object. *)
Lemma copy__stores s self src nb :
  (succeeds (copy_ self src nb s).1 = false /\
   impls (copy_ self src nb s).2 = impls s) \/
  (exists r, copy_ self src nb s = (Ok r, (copy_ self src nb s).2)).
Proof.
  destruct (decide (is_variable s self = Some true
                    /\ is_variable s src = Some true)) as [[V Vs]|NV].
  - destruct (variable_impl _ _ V) as (p & i & m & -> & I & A).
    destruct (proj1 (is_variable_true _ _) Vs) as (j & ms & J & As).
    destruct (copy__run s p i m src j ms nb I A J As) as (g & g' & ->).
    destruct (check_inplace (impls s) (Impl p)); [now left|].
    destruct (at_copy_ (heap s) (data_ i) (data_ j) nb); [now left|].
    destruct (versions s !! version_counter_ i).
    + right. eexists. reflexivity.
    + now left.
  - assert (is_variable s self <> Some true \/ is_variable s src <> Some true)
      as NV'.
    { destruct (decide (is_variable s self = Some true)); [|now left].
      right. intros ?. apply NV. done. }
    destruct (copy__invalid s self src nb NV') as (e & g & ->).
    now left.
Qed.

Lemma copy_built_not_floating s self src st :
  scalar_type s self = Some st -> isFloatingPoint st = false ->
  copy_built s self src = None.
Proof.
  intros St Fp. unfold copy_built, copy_requires_grad. rewrite St.
  destruct (requires_grad s self) as [a|]; simpl; [|reflexivity].
  destruct (requires_grad s src) as [b|]; simpl; [|reflexivity].
  now rewrite Fp, andb_false_r.
Qed.

(** X22. Copying into a destination whose element type is not
    floating-point never touches autograd metadata: whatever the
    gradient flags of [self] and [src], and however the call ends, the
    metadata of every tensor is what it was before. *)
Theorem copy__not_floating (s : Store) (self src : Tensor) (nb : bool)
    (st : ScalarType) :
  scalar_type s self = Some st -> isFloatingPoint st = false ->
  forall t, get_autograd_meta (copy_ self src nb s).2 t =
            get_autograd_meta s t.
Proof.
  intros St Fp t.
  destruct (copy_ self src nb s) as [[r|e] s'] eqn:R.
  - destruct (copy__success _ _ _ _ _ _ R)
      as (p & i & m & j & ms & g & g' & h & n & -> & -> & _ & _ & _ & _ & _
          & _ & _ & ->).
    now rewrite (copy_built_not_floating _ _ _ _ St Fp).
  - destruct (copy__stores s self src nb) as [(_ & Im)|[r Rr]].
    + rewrite R in Im. simpl in *. unfold get_autograd_meta.
      destruct t as [|q]; [done|]. simpl. now rewrite Im.
    + rewrite R in Rr. discriminate.
Qed.

(** X23. Errors are reported in argument order. [copy_] and
    [resize_as_] report [self] first and their second argument only
    when [self] is a Variable; [resize_as_] tests [requires_grad] only
    after both, and [resize_] after [self]: a handle that is not a
    Variable is reported as such whatever the gradient flags. *)
Theorem unwrap_errors_come_first (s : Store) (self other : Tensor) :
  (is_variable s self <> Some true ->
   (forall nb, (copy_ self other nb s).1 = (unpack self "self" 0 s).1) /\
   (forall size, (resize_ self size s).1 = (unpack self "self" 0 s).1) /\
   (resize_as_ self other s).1 = (unpack self "self" 0 s).1) /\
  (is_variable s self = Some true -> is_variable s other <> Some true ->
   (forall nb, (copy_ self other nb s).1 = (unpack other "src" 1 s).1) /\
   (resize_as_ self other s).1 = (unpack other "the_template" 1 s).1).
Proof.
  split.
  - intros NV. split; [|split].
    + intros nb.
      destruct (copy__invalid_outcome s self other nb (or_introl NV))
        as [g ->].
      now rewrite decide_False.
    + intros size. destruct (unpack_rejects s self "self" 0 NV) as (e & U & _).
      unfold resize_. now rewrite (bind_throw _ _ _ _ _ U), U.
    + destruct (unpack_rejects s self "self" 0 NV) as (e & U & _).
      unfold resize_as_. now rewrite (bind_throw _ _ _ _ _ U), U.
  - intros V NV. split.
    + intros nb.
      destruct (copy__invalid_outcome s self other nb (or_intror NV))
        as [g ->].
      now rewrite decide_True.
    + destruct (unpack_rejects s other "the_template" 1 NV) as (e & U & _).
      unfold resize_as_.
      rewrite (bind_ok _ _ _ _ _ (checked_cast_variable_ok _ "self" 0 _ V)).
      now rewrite (bind_throw _ _ _ _ _ U), U.
Qed.

End More.

(** * The further properties at work in the concrete world *)

Lemma allTypesForBackends_order_witness :
  [CPU; SparseCPU] !! 1 = Some SparseCPU /\
  all_scalar_types !! 6 = Some Float /\
  NoDup [CPU; SparseCPU] /\
  allCPUTypes !! 23 =
    Some {| type_backend := SparseCPU; type_scalar := Float |} /\
  allCPUTypes !! 16 =
    Some {| type_backend := CPU; type_scalar := UndefinedScalarType |} /\
  length allCPUTypes = 34 /\
  NoDup allCPUTypes.
Proof.
  assert (NoDup [CPU; SparseCPU]) as N
    by (apply (bool_decide_unpack _); vm_compute; exact I).
  split; [reflexivity|]. split; [reflexivity|]. split; [exact N|].
  destruct (allTypesForBackends_order [CPU; SparseCPU]) as (Li & L & D).
  split; [apply (L 1 6 SparseCPU Float); reflexivity|].
  split; [apply (Li 0 16 CPU); [reflexivity | unfold NumOptions; lia]|].
  split; [reflexivity | exact (D N)].
Defined.

Lemma unpack_opt_contract_witness :
  passes sample_store Undefined /\ passes sample_store (Impl 1) /\
  unpack_opt Undefined "weight" 2 sample_store = (Ok Undefined, sample_store) /\
  unpack_opt (Impl 1) "weight" 2 sample_store = (Ok (Impl 1), sample_store).
Proof.
  assert (passes sample_store Undefined) as P0 by now left.
  assert (passes sample_store (Impl 1)) as P1 by now right.
  split; [exact P0|]. split; [exact P1|]. split.
  - apply (unpack_opt_contract sample_store Undefined "weight" 2), P0.
  - apply (unpack_opt_contract sample_store (Impl 1) "weight" 2), P1.
Defined.

Lemma set_data_frame_witness :
  _has_compatible_shallow_copy_type sample_store (Impl 1) (Impl 2) = true /\
  exists s' i',
    set_data (Impl 1) (Impl 2) sample_store = (Ok tt, s') /\
    impl_of s' (Impl 1) = Some i' /\
    data_ i' = sample_data 2 cuda0 CUDA Float /\
    version_counter_ i' = 1 /\
    current_version s' (Impl 1) = Some 4.
Proof.
  assert (_has_compatible_shallow_copy_type sample_store (Impl 1) (Impl 2)
          = true) as C by reflexivity.
  split; [exact C|].
  destruct (set_data_frame sample_store (Impl 1) (Impl 2)
              (sample_impl (sample_data 1 cpu CPU Float) 1
                 (Some (sample_meta None (Some 0) true None 0)))
              (sample_impl (sample_data 2 cuda0 CUDA Float) 2
                 (Some (sample_meta None None false None 0)))
              (sample_meta None (Some 0) true None 0)
              C eq_refl eq_refl eq_refl)
    as (s' & i' & m' & R & I & _ & D & V & _ & _ & _ & _ & _ & Cv & _).
  exists s', i'. repeat split; assumption.
Defined.

Lemma set_data_keeps_accumulators_consistent_witness :
  _has_compatible_shallow_copy_type sample_store (Impl 1) (Impl 7) = true /\
  set_data (Impl 1) (Impl 7) sample_store =
    (Ok tt, (set_data (Impl 1) (Impl 7) sample_store).2) /\
  accumulator_consistent (set_data (Impl 1) (Impl 7) sample_store).2 (Impl 1).
Proof.
  assert (_has_compatible_shallow_copy_type sample_store (Impl 1) (Impl 7)
          = true) as C by reflexivity.
  assert (set_data (Impl 1) (Impl 7) sample_store =
          (Ok tt, (set_data (Impl 1) (Impl 7) sample_store).2)) as R
    by (vm_compute; reflexivity).
  split; [exact C|]. split; [exact R|].
  exact (proj1 (set_data_keeps_accumulators_consistent sample_store
                  (Impl 1) (Impl 7)
                  (sample_meta None (Some 0) true None 0)
                  (sample_impl (sample_data 7 cpu CPU Float) 7
                     (Some (sample_meta None None false None 0)))
                  _ C eq_refl eq_refl R)).
Defined.

Lemma resize_frame_witness :
  versions (resize_ (Impl 7) [3%Z] traced_store).2 = versions traced_store /\
  get_autograd_meta (resize_as_ (Impl 7) (Impl 2) traced_store).2 (Impl 7)
    = get_autograd_meta traced_store (Impl 7).
Proof.
  destruct (resize_frame traced_store (Impl 7)) as [R Ra].
  split.
  - apply (R [3%Z] _ eq_refl).
  - apply (Ra (Impl 2) _ eq_refl).
Defined.

Lemma resize_refused_untouched_witness :
  succeeds (resize_ (Impl 1) [3%Z] traced_store).1 = false /\
  fails_with KernelError (resize_ (Impl 1) [3%Z] traced_store).1 = false /\
  (resize_ (Impl 1) [3%Z] traced_store).2 = traced_store.
Proof.
  assert (succeeds (resize_ (Impl 1) [3%Z] traced_store).1 = false) as Su
    by (vm_compute; reflexivity).
  assert (fails_with KernelError (resize_ (Impl 1) [3%Z] traced_store).1
          = false) as Ke by (vm_compute; reflexivity).
  split; [exact Su|]. split; [exact Ke|].
  apply (proj1 (resize_refused_untouched traced_store (Impl 1)) [3%Z] _ _
           (surjective_pairing _) Su Ke).
Defined.

Lemma copy__bumps_shared_counter_witness :
  copy_ (Impl 4) (Impl 7) false sample_store =
    (Ok (Impl 4), (copy_ (Impl 4) (Impl 7) false sample_store).2) /\
  current_version sample_store (Impl 1) = Some 4 /\
  current_version (copy_ (Impl 4) (Impl 7) false sample_store).2 (Impl 1)
    = Some 5 /\
  current_version (copy_ (Impl 4) (Impl 7) false sample_store).2 (Impl 2)
    = Some 0.
Proof.
  assert (copy_ (Impl 4) (Impl 7) false sample_store =
          (Ok (Impl 4), (copy_ (Impl 4) (Impl 7) false sample_store).2)) as R
    by (vm_compute; reflexivity).
  split; [exact R|]. split; [reflexivity|].
  destruct (copy__bumps_shared_counter _ _ _ _ _ _ R)
    as (i & n & I & Vc & _ & Cv).
  injection I as <-. injection Vc as <-.
  split.
  - now rewrite (Cv (Impl 1) _ eq_refl).
  - now rewrite (Cv (Impl 2) _ eq_refl).
Defined.

Lemma copy__frame_witness :
  copy_ (Impl 5) (Impl 7) false sample_store =
    (Ok (Impl 5), (copy_ (Impl 5) (Impl 7) false sample_store).2) /\
  tensor_data (copy_ (Impl 5) (Impl 7) false sample_store).2 (Impl 5)
    = tensor_data sample_store (Impl 5) /\
  impl_of (copy_ (Impl 5) (Impl 7) false sample_store).2 (Impl 7)
    = impl_of sample_store (Impl 7).
Proof.
  assert (copy_ (Impl 5) (Impl 7) false sample_store =
          (Ok (Impl 5), (copy_ (Impl 5) (Impl 7) false sample_store).2)) as R
    by (vm_compute; reflexivity).
  split; [exact R|].
  destruct (copy__frame _ _ _ _ _ _ R) as (_ & _ & O & D & _).
  split; [apply D | apply O; discriminate].
Defined.

Lemma copy__then_resize_refused_witness :
  copy_ (Impl 5) (Impl 7) false sample_store =
    (Ok (Impl 5), (copy_ (Impl 5) (Impl 7) false sample_store).2) /\
  copy_requires_grad sample_store (Impl 5) (Impl 7) = Some true /\
  fails_with InvalidOperation
    (resize_ (Impl 5) [4%Z]
       (copy_ (Impl 5) (Impl 7) false sample_store).2).1 = true.
Proof.
  assert (copy_ (Impl 5) (Impl 7) false sample_store =
          (Ok (Impl 5), (copy_ (Impl 5) (Impl 7) false sample_store).2)) as R
    by (vm_compute; reflexivity).
  split; [exact R|]. split; [reflexivity|].
  apply (copy__then_resize_refused _ _ _ _ _ _ R eq_refl).
Defined.

Lemma detach__then_witness :
  detach_ (Impl 5) sample_store =
    (Ok (Impl 5), (detach_ (Impl 5) sample_store).2) /\
  requires_grad (detach_ (Impl 5) sample_store).2 (Impl 5) = Some false /\
  fails_with InvalidOperation
    (resize_ (Impl 5) [4%Z] (detach_ (Impl 5) sample_store).2).1 = false.
Proof.
  assert (detach_ (Impl 5) sample_store =
          (Ok (Impl 5), (detach_ (Impl 5) sample_store).2)) as R
    by (vm_compute; reflexivity).
  split; [exact R|].
  destruct (detach__then _ _ _ _ R) as (_ & Rg & Rs & _).
  split; [exact Rg | apply Rs].
Defined.

Lemma detach_then_copy__bumps_source_witness :
  detach (Impl 7) sample_store =
    (Ok (Impl 8), (detach (Impl 7) sample_store).2) /\
  copy_ (Impl 8) (Impl 2) false (detach (Impl 7) sample_store).2 =
    (Ok (Impl 8),
     (copy_ (Impl 8) (Impl 2) false (detach (Impl 7) sample_store).2).2) /\
  _version (Impl 7) sample_store = (Ok 0, sample_store) /\
  (_version (Impl 7)
     (copy_ (Impl 8) (Impl 2) false (detach (Impl 7) sample_store).2).2).1
  = Ok 1.
Proof.
  assert (detach (Impl 7) sample_store =
          (Ok (Impl 8), (detach (Impl 7) sample_store).2)) as D
    by (vm_compute; reflexivity).
  assert (copy_ (Impl 8) (Impl 2) false (detach (Impl 7) sample_store).2 =
          (Ok (Impl 8),
           (copy_ (Impl 8) (Impl 2) false
              (detach (Impl 7) sample_store).2).2)) as C
    by (vm_compute; reflexivity).
  split; [exact D|]. split; [exact C|]. split; [reflexivity|].
  destruct (detach_then_copy__bumps_source sample_store (Impl 7) (Impl 2)
              _ false _ _ _ _ eq_refl D C) as (n & V & _ & V2 & _).
  injection V as <-. now rewrite V2.
Defined.

Lemma copy__ignores_tracer_witness :
  objects sample_store = objects traced_store /\
  (copy_ (Impl 5) (Impl 7) false traced_store).1 =
  (copy_ (Impl 5) (Impl 7) false sample_store).1.
Proof.
  split; [reflexivity|].
  apply (copy__ignores_tracer sample_store traced_store (Impl 5) (Impl 7)
           false eq_refl).
Defined.

Lemma manual_ops_ignore_tracer_witness :
  objects sample_store = objects traced_store /\
  (detach_ (Impl 4) traced_store).1 = (detach_ (Impl 4) sample_store).1 /\
  objects (resize_ (Impl 7) [3%Z] traced_store).2 =
  objects (resize_ (Impl 7) [3%Z] sample_store).2.
Proof.
  split; [reflexivity|].
  destruct (manual_ops_ignore_tracer sample_store traced_store (Impl 4)
              eq_refl) as (_ & _ & _ & D & _).
  destruct (manual_ops_ignore_tracer sample_store traced_store (Impl 7)
              eq_refl) as (R & _).
  split; [exact D | apply R].
Defined.

Lemma copy__not_floating_witness :
  scalar_type sample_store (Impl 3) = Some Long /\
  isFloatingPoint Long = false /\
  requires_grad sample_store (Impl 1) = Some true /\
  get_autograd_meta (copy_ (Impl 3) (Impl 1) false sample_store).2 (Impl 3)
    = get_autograd_meta sample_store (Impl 3).
Proof.
  split; [reflexivity|]. split; [reflexivity|]. split; [reflexivity|].
  apply (copy__not_floating sample_store (Impl 3) (Impl 1) false Long
           eq_refl eq_refl).
Defined.

Lemma unwrap_errors_come_first_witness :
  is_variable sample_store (Impl 0) <> Some true /\
  is_variable sample_store (Impl 1) = Some true /\
  (resize_ (Impl 0) [3%Z] sample_store).1
    = (unpack (Impl 0) "self" 0 sample_store).1 /\
  (resize_as_ (Impl 1) (Impl 0) sample_store).1
    = (unpack (Impl 0) "the_template" 1 sample_store).1.
Proof.
  assert (is_variable sample_store (Impl 0) <> Some true) as NV
    by discriminate.
  split; [exact NV|]. split; [reflexivity|].
  destruct (unwrap_errors_come_first sample_store (Impl 0) (Impl 0))
    as [F _].
  destruct (unwrap_errors_come_first sample_store (Impl 1) (Impl 0))
    as [_ S].
  split.
  - apply (F NV).
  - apply (S eq_refl NV).
Defined.
